(** * Weekly schedule: the task placement engine of [streamlit_app.py]

    A shallow embedding of the scheduling core ([overlaps], [can_place],
    [day_window], [try_place_task_on_day], [build_events]) and of the
    module-level manual override, followed by the properties the
    specification states about them.

    Representation choices.
    - A [date] is its proleptic ordinal (a [Z]); [d + timedelta(days=k)] is
      [d + k].  Python's [date.max] is not modelled.
    - A naive [datetime] whose seconds and microseconds are zero (the only
      ones the engine ever builds) is the number of minutes since midnight of
      ordinal 0: [combine d t = d * 1440 + 60 * hour + minute].  Comparison
      and [timedelta] arithmetic are then those of [Z].
    - A [time] is a record of hour and minute, compared field by field as
      Python does.
    - Task durations are floats in the source; every value of the catalog is
      a dyadic rational on which [x * 60] is exact, so they are rationals
      here and [int] is truncation toward zero.
    - Dictionaries are [gmap]s and sets are [gset]s; a subscript on a
      missing key ([KeyError]) is [None] in the [option] monad. *)

From Stdlib Require Import ZArith QArith Lia Lqa.
From stdpp Require Import base option list gmap strings sorting.

Local Open Scope string_scope.
Local Open Scope list_scope.
Local Open Scope Z_scope.

(** ** Models *)

Definition date := Z.
Definition datetime := Z.

Record time := mk_time { hour : Z; minute : Z }.

Record Event := mk_Event {
  name : string;
  start : datetime;
  end_ : datetime;
  color : string;
  kind : string  (* "teaching" or "task" *)
}.

(** ** Time helpers *)

Definition weekday (d : date) : Z := (d + 6) mod 7.

Definition start_of_week_monday (d : date) : date := d - weekday d.

Definition minutes_since_midnight (t : time) : Z := hour t * 60 + minute t.

Definition combine (d : date) (t : time) : datetime :=
  d * 1440 + minutes_since_midnight t.

Definition dt_date (dt : datetime) : date := dt / 1440.

Definition dt_time (dt : datetime) : time :=
  mk_time ((dt mod 1440) / 60) (dt mod 60).

(** [t1 < t2] and [t1 <= t2] on [time] values: tuple order on the fields. *)
Definition time_ltb (a b : time) : bool :=
  (hour a <? hour b) || ((hour a =? hour b) && (minute a <? minute b)).

Definition time_leb (a b : time) : bool := negb (time_ltb b a).

Definition snap_15 (dt : datetime) : datetime :=
  combine (dt_date dt)
          (mk_time (hour (dt_time dt)) ((minute (dt_time dt) / 15) * 15)).

(** ** Fixed teaching blocks (weekday: Monday=0 ... Sunday=6) *)

Definition TeachingBlock : Type := string * time * time * string.

Definition TEACHING : gmap Z (list TeachingBlock) :=
  <[0 := [("Beginner Class", mk_time 17 0, mk_time 18 0, "#a855f7");
          ("Leo Mootoo", mk_time 18 15, mk_time 19 15, "#ef4444")]]>
 (<[1 := [("Pranava Classes", mk_time 13 30, mk_time 17 30, "#14b8a6");
          ("Advanced Class", mk_time 18 30, mk_time 19 30, "#3b82f6")]]>
 (<[2 := [("Jaydon", mk_time 18 30, mk_time 19 30, "#f97316")]]>
 (<[3 := [("Beginner Class", mk_time 17 0, mk_time 18 0, "#a855f7")]]>
 (<[4 := [("Leo Mootoo", mk_time 17 0, mk_time 18 0, "#ef4444")]]>
 (<[6 := [("Amrit", mk_time 19 0, mk_time 20 0, "#84cc16")]]> ∅))))).

(** ** Task specs: (name, hours, occurrences, color) *)

Definition TaskSpec : Type := string * Q * Z * string.

Definition TASK_SPECS : list TaskSpec :=
  [ ("My System", (1 # 1)%Q, 2, "#8b5cf6");
    ("Calculation", (1 # 1)%Q, 4, "#f472b6");
    ("Opening Study", (1 # 1)%Q, 5, "#6366f1");
    ("Middlegame Study", (3 # 2)%Q, 2, "#ec4899");
    ("Endgame Study", (1 # 1)%Q, 2, "#22c55e");
    ("chessable/website tasks", (2 # 1)%Q, 2, "#0ea5e9");
    ("League Study", (2 # 1)%Q, 2, "#f59e0b");
    ("Gym", (3 # 4)%Q, 2, "#10b981") ].

(** Scheduling rules *)
Definition BUFFER_MIN : Z := 15.
Definition WINDOW_START : time := mk_time 13 0.
Definition WINDOW_END_NEXTDAY : time := mk_time 2 0.
Definition MAX_TASKS_WEEKDAY : Z := 3.
Definition MAX_TASKS_WEEKEND : Z := 4.

(** ** Scheduling engine *)

Definition overlaps (a_start a_end b_start b_end : datetime) : bool :=
  negb ((a_end <=? b_start) || (a_start >=? b_end)).

Fixpoint can_place (events : list Event) (s0 e0 : datetime) : bool :=
  let s := s0 - BUFFER_MIN in
  let e := e0 + BUFFER_MIN in
  match events with
  | [] => true
  | ev :: rest =>
      if overlaps s e (start ev) (end_ ev) then false
      else can_place rest s0 e0
  end.

Definition day_window (d : date) : datetime * datetime :=
  (combine d WINDOW_START, combine (d + 1) WINDOW_END_NEXTDAY).

(** [int(x)] on a rational: truncation toward zero. *)
Definition int_of_Q (q : Q) : Z := Z.quot (Qnum q) (Z.pos (Qden q)).

Definition dur_minutes (dur_hours : Q) : Z := int_of_Q (dur_hours * (60 # 1))%Q.

(** The teaching seed: the two nested [for] loops that open [build_events]. *)
Definition teaching_events_of_day
    (teaching : gmap Z (list TeachingBlock)) (week_start : date) (wd : Z)
  : list Event :=
  let d := week_start + wd in
  map (fun '(n, s, e, c) => mk_Event n (combine d s) (combine d e) c "teaching")
      (default [] (teaching !! wd)).

Definition range7 : list Z := [0; 1; 2; 3; 4; 5; 6].

Definition seed_teaching
    (teaching : gmap Z (list TeachingBlock)) (week_start : date) : list Event :=
  flat_map (teaching_events_of_day teaching week_start) range7.

(** Encourage using late time slots (10 PM-12 AM) *)
Definition preferred_start_times : list time :=
  [ mk_time 22 0; mk_time 22 15; mk_time 22 30; mk_time 22 45;
    mk_time 23 0; mk_time 23 15; mk_time 23 30; mk_time 23 45;
    mk_time 21 0; mk_time 21 15; mk_time 21 30; mk_time 21 45;
    mk_time 20 0; mk_time 20 15; mk_time 20 30; mk_time 20 45;
    mk_time 13 0; mk_time 13 15; mk_time 13 30; mk_time 13 45;
    mk_time 14 0; mk_time 14 15; mk_time 14 30; mk_time 14 45;
    mk_time 15 0; mk_time 15 15; mk_time 15 30; mk_time 15 45;
    mk_time 16 0; mk_time 16 15; mk_time 16 30; mk_time 16 45;
    mk_time 17 0; mk_time 17 15; mk_time 17 30; mk_time 17 45;
    mk_time 18 0; mk_time 18 15; mk_time 18 30; mk_time 18 45;
    mk_time 19 0; mk_time 19 15; mk_time 19 30; mk_time 19 45 ].

(** Mon Thu Wed Fri Sat Sun Tue *)
Definition preferred_days : list Z := [0; 3; 2; 4; 5; 6; 1].

(** First loop of [try_place_task_on_day]: the preferred clock times that fit
    the window, mapped onto the day or, before [WINDOW_START], the next day. *)
Definition preferred_candidates (d : date) (wstart wend dur : Z)
  : list datetime :=
  flat_map
    (fun t =>
       let base_date := if time_leb WINDOW_START t then d else d + 1 in
       let s := snap_15 (combine base_date t) in
       if (wstart <=? s) && (s + dur <=? wend) then [s] else [])
    preferred_start_times.

(** The fallback [while cur + dur <= wend] loop, unrolled at most [fuel]
    times; [None] when the fuel runs out before the loop exits. *)
Fixpoint scan_loop (fuel : nat) (cur dur wend : Z) : option (list datetime) :=
  if cur + dur <=? wend then
    match fuel with
    | O => None
    | S fuel' => cons cur <$> scan_loop fuel' (cur + 15) dur wend
    end
  else Some [].

(** Number of iterations the loop makes from [cur]. *)
Definition scan_fuel (cur dur wend : Z) : nat :=
  Z.to_nat ((wend - dur - cur) / 15 + 1).

Definition full_scan (cur dur wend : Z) : list datetime :=
  default [] (scan_loop (scan_fuel cur dur wend) cur dur wend).

(** De-dupe, keeping the first occurrence of each candidate. *)
Fixpoint dedupe (seen : gset Z) (candidates : list datetime) : list datetime :=
  match candidates with
  | [] => []
  | c :: rest =>
      if bool_decide (c ∈ seen) then dedupe seen rest
      else c :: dedupe ({[c]} ∪ seen) rest
  end.

(** The task-specific rules of the placement loop; [true] means the
    candidate is skipped ([continue]). *)
Definition gym_skip (task_name : string) (s e : datetime) : bool :=
  String.eqb task_name "Gym" &&
  (negb (dt_date s =? dt_date e) || time_ltb (mk_time 21 0) (dt_time e)).

Definition chessable_skip (task_name : string) (d : date) (s : datetime) : bool :=
  String.eqb task_name "chessable/website tasks" &&
  (time_ltb (dt_time s) (mk_time 21 0) || negb (dt_date s =? d)).

(** [for start in uniq]: first fit.  Returns the event list and the flag. *)
Fixpoint first_fit (task_name col : string) (d : date) (dur : Z)
    (events : list Event) (uniq : list datetime) : list Event * bool :=
  match uniq with
  | [] => (events, false)
  | s :: rest =>
      let e := s + dur in
      if gym_skip task_name s e then first_fit task_name col d dur events rest
      else if chessable_skip task_name d s
      then first_fit task_name col d dur events rest
      else if can_place events s e
      then (events ++ [mk_Event task_name s e col "task"], true)
      else first_fit task_name col d dur events rest
  end.

Definition candidates_of_day (d : date) (dur : Z) : list datetime :=
  let '(wstart, wend) := day_window d in
  dedupe ∅ (preferred_candidates d wstart wend dur
            ++ full_scan (snap_15 wstart) dur wend).

Definition try_place_task_on_day (week_start : date) (events : list Event)
    (task_name : string) (dur_hours : Q) (col : string) (wd : Z)
  : list Event * bool :=
  let d := week_start + wd in
  let dur := dur_minutes dur_hours in
  first_fit task_name col d dur events (candidates_of_day d dur).

(** ** The weekly schedule state of [build_events] *)

Record State := mk_State {
  events : list Event;
  used_days : gmap string (gset Z);
  tasks_per_day : gmap Z Z;
  gym_days : list Z
}.

Definition spec_name (sp : TaskSpec) : string := sp.1.1.1.

Definition init_state (teaching : gmap Z (list TeachingBlock))
    (specs : list TaskSpec) (week_start : date) : State :=
  mk_State (seed_teaching teaching week_start)
           (list_to_map ((fun sp => (spec_name sp, ∅)) <$> specs))
           (list_to_map ((fun i => (i, 0)) <$> range7))
           [].

(** [wd in s] on a set of weekdays. *)
Definition day_in (wd : Z) (s : gset Z) : bool := bool_decide (wd ∈ s).

(** Opening vs Endgame must be on different days *)
Definition mutex_skip (ud : gmap string (gset Z)) (nm : string) (wd : Z) : bool :=
  (String.eqb nm "Opening Study"
     && day_in wd (default ∅ (ud !! "Endgame Study")))
  || (String.eqb nm "Endgame Study"
     && day_in wd (default ∅ (ud !! "Opening Study"))).

Definition gym_spacing_skip (nm : string) (wd : Z) (gd : list Z) : bool :=
  String.eqb nm "Gym" && existsb (fun g => Z.abs (wd - g) <? 2) gd.

Definition day_limit (wd : Z) : Z :=
  if wd >=? 5 then MAX_TASKS_WEEKEND else MAX_TASKS_WEEKDAY.

Definition append_gym (nm : string) (wd : Z) (gd : list Z) : list Z :=
  if String.eqb nm "Gym" then gd ++ [wd] else gd.

(** The first [for wd in preferred_days] loop (quota enforced).  The flag is
    [placed]. *)
Fixpoint strict_pass (week_start : date) (nm : string) (hrs : Q) (col : string)
    (days : list Z) (st : State) : option (State * bool) :=
  match days with
  | [] => Some (st, false)
  | wd :: rest =>
      used ← used_days st !! nm;
      if day_in wd used then strict_pass week_start nm hrs col rest st
      else if mutex_skip (used_days st) nm wd
      then strict_pass week_start nm hrs col rest st
      else
        cnt ← tasks_per_day st !! wd;
        if cnt >=? day_limit wd then strict_pass week_start nm hrs col rest st
        else if gym_spacing_skip nm wd (gym_days st)
        then strict_pass week_start nm hrs col rest st
        else
          let '(evs, ok) :=
            try_place_task_on_day week_start (events st) nm hrs col wd in
          if ok then
            Some (mk_State evs
                           (<[nm := {[wd]} ∪ used]> (used_days st))
                           (<[wd := cnt + 1]> (tasks_per_day st))
                           (append_gym nm wd (gym_days st)),
                  true)
          else
            strict_pass week_start nm hrs col rest
              (mk_State evs (used_days st) (tasks_per_day st) (gym_days st))
  end.

(** The second loop, entered [if not placed] (no quota check). *)
Fixpoint relaxed_pass (week_start : date) (nm : string) (hrs : Q) (col : string)
    (days : list Z) (st : State) : option (State * bool) :=
  match days with
  | [] => Some (st, false)
  | wd :: rest =>
      used ← used_days st !! nm;
      if day_in wd used then relaxed_pass week_start nm hrs col rest st
      else if mutex_skip (used_days st) nm wd
      then relaxed_pass week_start nm hrs col rest st
      else if gym_spacing_skip nm wd (gym_days st)
      then relaxed_pass week_start nm hrs col rest st
      else
        let '(evs, ok) :=
          try_place_task_on_day week_start (events st) nm hrs col wd in
        if ok then
          Some (mk_State evs
                         (<[nm := {[wd]} ∪ used]> (used_days st))
                         (tasks_per_day st)
                         (append_gym nm wd (gym_days st)),
                true)
        else
          relaxed_pass week_start nm hrs col rest
            (mk_State evs (used_days st) (tasks_per_day st) (gym_days st))
  end.

(** One iteration of [for _ in range(count)]. *)
Definition place_occurrence (week_start : date) (nm : string) (hrs : Q)
    (col : string) (st : State) : option State :=
  '(st1, placed) ← strict_pass week_start nm hrs col preferred_days st;
  if placed : bool then Some st1
  else fst <$> relaxed_pass week_start nm hrs col preferred_days st1.

Fixpoint place_occurrences (n : nat) (week_start : date) (nm : string)
    (hrs : Q) (col : string) (st : State) : option State :=
  match n with
  | O => Some st
  | S n' =>
      st' ← place_occurrence week_start nm hrs col st;
      place_occurrences n' week_start nm hrs col st'
  end.

(** [for name, hrs, count, color in TASK_SPECS] *)
Fixpoint place_tasks (week_start : date) (specs : list TaskSpec) (st : State)
  : option State :=
  match specs with
  | [] => Some st
  | (nm, hrs, count, col) :: rest =>
      st' ← place_occurrences (Z.to_nat count) week_start nm hrs col st;
      place_tasks week_start rest st'
  end.

(** [events.sort(key=lambda e: e.start)]: Python's sort is stable, and a
    stable sort by key has one result; insertion from the right computes it. *)
Fixpoint insert_by_start (e : Event) (l : list Event) : list Event :=
  match l with
  | [] => [e]
  | x :: l' =>
      if start e <=? start x then e :: x :: l' else x :: insert_by_start e l'
  end.

Definition sort_by_start (l : list Event) : list Event :=
  foldr insert_by_start [] l.

(** The event list as it stands just before the final sort. *)
Definition placed_state (teaching : gmap Z (list TeachingBlock))
    (specs : list TaskSpec) (week_start : date) : option State :=
  place_tasks week_start specs (init_state teaching specs week_start).

Definition build_events_from (teaching : gmap Z (list TeachingBlock))
    (specs : list TaskSpec) (week_start : date) : option (list Event) :=
  st ← placed_state teaching specs week_start;
  Some (sort_by_start (events st)).

Definition build_events (week_start : date) : option (list Event) :=
  build_events_from TEACHING TASK_SPECS week_start.

(** ** Manual override (module level) *)

(** Pin Monday "My System" to 1:00-2:00 PM: the [for ev in events] loop with
    its [break]. *)
Definition is_monday_my_system (mon : date) (ev : Event) : bool :=
  String.eqb (name ev) "My System" && (dt_date (start ev) =? mon).

Fixpoint pin_my_system (mon : date) (new_start new_end : datetime)
    (evs : list Event) : list Event :=
  match evs with
  | [] => []
  | ev :: rest =>
      if is_monday_my_system mon ev
      then mk_Event (name ev) new_start new_end (color ev) (kind ev) :: rest
      else ev :: pin_my_system mon new_start new_end rest
  end.

Definition manual_override (week_start : date) (evs : list Event) : list Event :=
  let mon := week_start in
  let new_start := combine mon (mk_time 13 0) in
  let new_end := combine mon (mk_time 14 0) in
  sort_by_start (pin_my_system mon new_start new_end evs).

(** The list the renderer and the exporter receive, for today's date. *)
Definition ui_events (today : date) : option (list Event) :=
  let week_start := start_of_week_monday today in
  evs ← build_events week_start;
  Some (manual_override week_start evs).

(** ** Vocabulary of the properties *)

(** Moving a schedule by [k] whole days. *)
Definition shift_dt (k : Z) (dt : datetime) : datetime := dt + k * 1440.

Definition shift_event (k : Z) (ev : Event) : Event :=
  mk_Event (name ev) (shift_dt k (start ev)) (shift_dt k (end_ ev))
           (color ev) (kind ev).

Definition shift_state (k : Z) (st : State) : State :=
  mk_State (shift_event k <$> events st) (used_days st) (tasks_per_day st)
           (gym_days st).

(** The effect of a shift on a pass result: events move, the flag stays. *)
Definition shift_fit (k : Z) (r : list Event * bool) : list Event * bool :=
  (shift_event k <$> r.1, r.2).

Definition shift_pass (k : Z) (r : State * bool) : State * bool :=
  (shift_state k r.1, r.2).


(** The default week, [week_start = 0]: the task events in the order the
    engine places them, and its bookkeeping when the loops end. *)
Definition week0_tasks : list Event :=
  [
    mk_Event "My System"
      (combine 0 (mk_time 22 0)) (combine 0 (mk_time 23 0)) "#8b5cf6" "task";
    mk_Event "My System"
      (combine 3 (mk_time 22 0)) (combine 3 (mk_time 23 0)) "#8b5cf6" "task";
    mk_Event "Calculation"
      (combine 0 (mk_time 23 15)) (combine 1 (mk_time 0 15)) "#f472b6" "task";
    mk_Event "Calculation"
      (combine 3 (mk_time 23 15)) (combine 4 (mk_time 0 15)) "#f472b6" "task";
    mk_Event "Calculation"
      (combine 2 (mk_time 22 0)) (combine 2 (mk_time 23 0)) "#f472b6" "task";
    mk_Event "Calculation"
      (combine 4 (mk_time 22 0)) (combine 4 (mk_time 23 0)) "#f472b6" "task";
    mk_Event "Opening Study"
      (combine 0 (mk_time 20 0)) (combine 0 (mk_time 21 0)) "#6366f1" "task";
    mk_Event "Opening Study"
      (combine 3 (mk_time 20 0)) (combine 3 (mk_time 21 0)) "#6366f1" "task";
    mk_Event "Opening Study"
      (combine 2 (mk_time 23 15)) (combine 3 (mk_time 0 15)) "#6366f1" "task";
    mk_Event "Opening Study"
      (combine 4 (mk_time 23 15)) (combine 5 (mk_time 0 15)) "#6366f1" "task";
    mk_Event "Opening Study"
      (combine 5 (mk_time 22 0)) (combine 5 (mk_time 23 0)) "#6366f1" "task";
    mk_Event "Middlegame Study"
      (combine 2 (mk_time 20 0)) (combine 2 (mk_time 21 30)) "#ec4899" "task";
    mk_Event "Middlegame Study"
      (combine 4 (mk_time 20 0)) (combine 4 (mk_time 21 30)) "#ec4899" "task";
    mk_Event "Endgame Study"
      (combine 6 (mk_time 22 0)) (combine 6 (mk_time 23 0)) "#22c55e" "task";
    mk_Event "Endgame Study"
      (combine 1 (mk_time 22 0)) (combine 1 (mk_time 23 0)) "#22c55e" "task";
    mk_Event "chessable/website tasks"
      (combine 5 (mk_time 23 15)) (combine 6 (mk_time 1 15)) "#0ea5e9" "task";
    mk_Event "chessable/website tasks"
      (combine 6 (mk_time 23 15)) (combine 7 (mk_time 1 15)) "#0ea5e9" "task";
    mk_Event "League Study"
      (combine 5 (mk_time 13 0)) (combine 5 (mk_time 15 0)) "#f59e0b" "task";
    mk_Event "League Study"
      (combine 6 (mk_time 13 0)) (combine 6 (mk_time 15 0)) "#f59e0b" "task";
    mk_Event "Gym"
      (combine 5 (mk_time 20 0)) (combine 5 (mk_time 20 45)) "#10b981" "task";
    mk_Event "Gym"
      (combine 1 (mk_time 20 0)) (combine 1 (mk_time 20 45)) "#10b981" "task" ].

Definition week0_used_days : gmap string (gset Z) :=
  list_to_map
    [ ("My System", {[0; 3]}); ("Calculation", {[0; 3; 2; 4]});
      ("Opening Study", {[0; 3; 2; 4; 5]}); ("Middlegame Study", {[2; 4]});
      ("Endgame Study", {[6; 1]}); ("chessable/website tasks", {[5; 6]});
      ("League Study", {[5; 6]}); ("Gym", {[5; 1]}) ].

Definition week0_tasks_per_day : gmap Z Z :=
  list_to_map [ (0, 3); (1, 2); (2, 3); (3, 3); (4, 3); (5, 4); (6, 3) ].

Definition week0_state : State :=
  mk_State (seed_teaching TEACHING 0 ++ week0_tasks)
           week0_used_days week0_tasks_per_day [5; 1].

Definition week0_schedule : list Event := sort_by_start (events week0_state).

(** What a pass did when it reports [placed]: on weekday [wd] the
    time-of-day search appended one event, and the bookkeeping moved from
    [st] to [st'].  [counted] tells whether the day's counter is part of it. *)
Definition recorded (counted : bool) (week_start : date) (nm : string)
    (hrs : Q) (col : string) (st st' : State) (wd : Z) : Prop :=
  ∃ used,
    used_days st !! nm = Some used ∧
    try_place_task_on_day week_start (events st) nm hrs col wd
      = (events st', true) ∧
    used_days st' = <[nm := {[wd]} ∪ used]> (used_days st) ∧
    (if counted
     then ∃ cnt, tasks_per_day st !! wd = Some cnt ∧
                 tasks_per_day st' = <[wd := cnt + 1]> (tasks_per_day st)
     else True) ∧
    gym_days st' = (if String.eqb nm "Gym" then gym_days st ++ [wd]
                    else gym_days st).

(** Ascending by start timestamp. *)
Definition by_start (a b : Event) : Prop := start a ≤ start b.

Definition sorted_by_start (l : list Event) : Prop :=
  ∀ (i j : nat) a b, (i < j)%nat → l !! i = Some a → l !! j = Some b →
    start a ≤ start b.

(** Every task event passed [can_place] against the events before it. *)
Definition placements_respect_buffer (evs : list Event) : Prop :=
  ∀ pre ev post, evs = pre ++ ev :: post → kind ev = "task" →
    can_place pre (start ev) (end_ ev) = true.

(** Any two entries of [gym_days] are at least two weekdays apart. *)
Definition gym_spaced (gd : list Z) : Prop :=
  ∀ (i j : nat) a b, i ≠ j → gd !! i = Some a → gd !! j = Some b →
    2 ≤ Z.abs (a - b).

(** No weekday is used by both "Opening Study" and "Endgame Study". *)
Definition mutex_ok (ud : gmap string (gset Z)) : Prop :=
  ∀ o e wd, ud !! "Opening Study" = Some o → ud !! "Endgame Study" = Some e →
    wd ∈ o → wd ∈ e → False.

(** The event the manual override leaves in place of [ev]. *)
Definition pinned (mon : date) (ev : Event) : Event :=
  mk_Event (name ev) (combine mon (mk_time 13 0)) (combine mon (mk_time 14 0))
           (color ev) (kind ev).

(** A symmetric test on every pair of a list, for the checks on the default
    week. *)
Fixpoint pairwiseb {A} (r : A → A → bool) (l : list A) : bool :=
  match l with
  | [] => true
  | x :: l' => forallb (r x) l' && pairwiseb r l'
  end.

Definition disjointb (a b : Event) : bool :=
  negb (overlaps (start a) (end_ a) (start b) (end_ b)).

Definition gym_apartb (a b : Event) : bool :=
  negb (String.eqb (name a) "Gym" && String.eqb (name b) "Gym")
  || (2 <=? Z.abs (dt_date (start a) - dt_date (start b))).

Definition study_apartb (a b : Event) : bool :=
  negb ((String.eqb (name a) "Opening Study"
           && String.eqb (name b) "Endgame Study")
        || (String.eqb (name a) "Endgame Study"
           && String.eqb (name b) "Opening Study"))
  || negb (dt_date (start a) =? dt_date (start b)).

(** Number of task events called [nm]. *)
Definition is_task_named (nm : string) (ev : Event) : bool :=
  String.eqb (name ev) nm && String.eqb (kind ev) "task".

Definition task_count (nm : string) (evs : list Event) : Z :=
  Z.of_nat (length (List.filter (is_task_named nm) evs)).

(** A week in which every day has met its quota and nothing but the
    teaching blocks is on the calendar. *)
Definition quota_full_state : State :=
  mk_State (seed_teaching TEACHING 0)
           (used_days (init_state TEACHING TASK_SPECS 0))
           (list_to_map [ (0, 3); (1, 3); (2, 3); (3, 3); (4, 3); (5, 4); (6, 4) ])
           [].

(** Loop iterations a catalog spends on the task called [nm]:
    [range(count)] of every spec of that name. *)
Fixpoint catalog_quota (nm : string) (specs : list TaskSpec) : Z :=
  match specs with
  | [] => 0
  | (n, _, count, _) :: rest =>
      (if String.eqb n nm then Z.of_nat (Z.to_nat count) else 0)
      + catalog_quota nm rest
  end.

(** The same week once the relaxed pass has placed "My System" in it. *)
Definition quota_full_after : State :=
  mk_State (events quota_full_state
            ++ [mk_Event "My System" (combine 0 (mk_time 22 0))
                         (combine 0 (mk_time 23 0)) "#8b5cf6" "task"])
           (<["My System" := {[0]}]> (used_days quota_full_state))
           (tasks_per_day quota_full_state)
           [].

(** A candidate start the placement loop accepts: it passes the two
    task-specific rules and [can_place]. *)
Definition feasible (nm : string) (d : date) (dur : Z) (evs : list Event)
    (s : datetime) : bool :=
  negb (gym_skip nm s (s + dur)) && negb (chessable_skip nm d s)
  && can_place evs s (s + dur).

(** A start on the quarter-hour grid from which [dur] minutes fit in the
    window of day [d]. *)
Definition in_window (d : date) (dur : Z) (s : datetime) : Prop :=
  (day_window d).1 ≤ s ∧ s + dur ≤ (day_window d).2 ∧ s mod 15 = 0.

(** A task event as the catalog describes it: under the name, color and
    duration of one of its specs, inside the window of a weekday of the
    week. *)
Definition catalog_task (specs : list TaskSpec) (week_start : date)
    (ev : Event) : Prop :=
  kind ev = "task" ∧
  ∃ hrs count wd,
    (name ev, hrs, count, color ev) ∈ specs ∧
    end_ ev = start ev + dur_minutes hrs ∧
    wd ∈ preferred_days ∧
    in_window (week_start + wd) (dur_minutes hrs) (start ev).

(** A relation on every pair of a list, the earlier element first. *)
Fixpoint all_pairs (R : Event → Event → Prop) (l : list Event) : Prop :=
  match l with
  | [] => True
  | x :: l' => Forall (R x) l' ∧ all_pairs R l'
  end.

(** Two events kept apart by the buffer when one of them is a task. *)
Definition buffered (a b : Event) : Prop :=
  kind a = "task" ∨ kind b = "task" →
  end_ a + BUFFER_MIN ≤ start b ∨ end_ b + BUFFER_MIN ≤ start a.

(** The default week after the manual override. *)
Definition week0_final : list Event := manual_override 0 week0_schedule.

Definition bufferedb (a b : Event) : bool :=
  negb (String.eqb (kind a) "task" || String.eqb (kind b) "task")
  || (end_ a + BUFFER_MIN <=? start b) || (end_ b + BUFFER_MIN <=? start a).

(** ** Calendar render: which events become blocks, and where

    [render_week_calendar] turns every event into at most one block of the
    column of its start date.  The pixel arithmetic (floating point) and the
    HTML text are left out; a block is the event with the span of minutes it
    covers in its column. *)

Abbreviation Block := (Event * Z * Z)%type.

(** The body of [for e in events] up to the two [continue]s:
    [(day_idx, st_min, en_min)], or [None] when the event is skipped. *)
Definition calendar_block (week_start : date) (e : Event)
  : option (Z * Z * Z) :=
  let day_idx := dt_date (start e) - week_start in
  if negb ((0 <=? day_idx) && (day_idx <=? 6)) then None
  else
    let st_min := minutes_since_midnight (dt_time (start e)) in
    let en_min := minutes_since_midnight (dt_time (end_ e)) in
    let en_min :=
      if negb (dt_date (end_ e) =? dt_date (start e)) then 24 * 60
      else en_min in
    if en_min <=? st_min then None else Some (day_idx, st_min, en_min).

(** [{i: [] for i in range(7)}] *)
Definition empty_week {A} : gmap Z (list A) :=
  list_to_map ((fun i => (i, [])) <$> range7).

Fixpoint per_day_blocks_loop (week_start : date) (events : list Event)
    (m : gmap Z (list Block)) : option (gmap Z (list Block)) :=
  match events with
  | [] => Some m
  | e :: rest =>
      match calendar_block week_start e with
      | None => per_day_blocks_loop week_start rest m
      | Some (day_idx, st_min, en_min) =>
          col ← m !! day_idx;
          per_day_blocks_loop week_start rest
            (<[day_idx := col ++ [(e, st_min, en_min)]]> m)
      end
  end.

Definition per_day_blocks (week_start : date) (events : list Event)
  : option (gmap Z (list Block)) :=
  per_day_blocks_loop week_start events empty_week.

(** The blocks of column [i], read off the event list. *)
Definition blocks_of_day (week_start : date) (i : Z) (events : list Event)
  : list Block :=
  omap (fun e =>
          match calendar_block week_start e with
          | Some (d, s, en) => if d =? i then Some (e, s, en) else None
          | None => None
          end) events.

(** ** PDF export: the events of each day *)

(** [for e in events: idx = ...; if 0 <= idx <= 6: events_by_day[idx].append(e)] *)
Fixpoint events_by_day_loop (week_start : date) (events : list Event)
    (m : gmap Z (list Event)) : option (gmap Z (list Event)) :=
  match events with
  | [] => Some m
  | e :: rest =>
      let idx := dt_date (start e) - week_start in
      if (0 <=? idx) && (idx <=? 6) then
        day ← m !! idx;
        events_by_day_loop week_start rest (<[idx := day ++ [e]]> m)
      else events_by_day_loop week_start rest m
  end.

(** [for i in range(7): events_by_day[i].sort(key=lambda ev: ev.start)] *)
Fixpoint sort_days (days : list Z) (m : gmap Z (list Event))
  : option (gmap Z (list Event)) :=
  match days with
  | [] => Some m
  | i :: rest =>
      day ← m !! i;
      sort_days rest (<[i := sort_by_start day]> m)
  end.

Definition events_by_day (week_start : date) (events : list Event)
  : option (gmap Z (list Event)) :=
  m ← events_by_day_loop week_start events empty_week;
  sort_days range7 m.

(** The events of the list that start on day [i] of the week. *)
Definition starts_on (week_start : date) (i : Z) (events : list Event)
  : list Event :=
  List.filter (fun e => dt_date (start e) - week_start =? i) events.

Definition in_week (week_start : date) (events : list Event) : list Event :=
  List.filter (fun e => (0 <=? dt_date (start e) - week_start)
                        && (dt_date (start e) - week_start <=? 6)) events.

(** The days of the export one after the other, Monday first. *)
Definition export_order (m : gmap Z (list Event)) : list Event :=
  flat_map (fun i => default [] (m !! i)) range7.

(** The events of the list that start from day [lo] to day [hi]. *)
Definition between (week_start : date) (lo hi : Z) (events : list Event)
  : list Event :=
  List.filter (fun e => (lo <=? dt_date (start e) - week_start)
                        && (dt_date (start e) - week_start <=? hi)) events.

(** ** PDF export: wrapping a line

    A text is a list of characters of any type with a test for whitespace
    and a space character; [len] is the length of the list. *)

Section Text.
Context {A : Type} (is_space : A → bool) (space : A).

(** [text.split()]: the maximal runs of characters that are not whitespace.
    [cur] is the run being read. *)
Fixpoint split_from (cur text : list A) : list (list A) :=
  match text with
  | [] => match cur with [] => [] | _ => [cur] end
  | c :: rest =>
      if is_space c then
        match cur with
        | [] => split_from [] rest
        | _ => cur :: split_from [] rest
        end
      else split_from (cur ++ [c]) rest
  end.

Definition split (text : list A) : list (list A) := split_from [] text.

(** [s.strip()] *)
Fixpoint lstrip (s : list A) : list A :=
  match s with
  | [] => []
  | c :: rest => if is_space c then lstrip rest else s
  end.

Definition strip (s : list A) : list A := rev (lstrip (rev (lstrip s))).

(** Truth value of a string: non-empty. *)
Definition truthy (s : list A) : bool :=
  match s with [] => false | _ => true end.

(** [for w in words] of [wrap_text], with the closing [if cur]. *)
Fixpoint wrap_loop (max_chars : Z) (words : list (list A)) (cur : list A)
  : list (list A) :=
  match words with
  | [] => if truthy cur then [cur] else []
  | w :: rest =>
      if Z.of_nat (length cur) + Z.of_nat (length w)
         + (if truthy cur then 1 else 0) <=? max_chars
      then wrap_loop max_chars rest (strip (cur ++ [space] ++ w))
      else (if truthy cur then [cur] else [])
           ++ wrap_loop max_chars rest w
  end.

Definition wrap_text (text : list A) (max_chars : Z) : list (list A) :=
  wrap_loop max_chars (split text) [].

(** Words with one space between them. *)
Fixpoint join (ws : list (list A)) : list A :=
  match ws with
  | [] => []
  | [w] => w
  | w :: rest => w ++ [space] ++ join rest
  end.

(** A word as [split] yields them. *)
Definition is_word (w : list A) : Prop :=
  w ≠ [] ∧ Forall (fun c => is_space c = false) w.

(** A group of words fits a line when joined it is within [max_chars], or
    it is one word alone. *)
Definition fits (max_chars : Z) (g : list (list A)) : Prop :=
  Z.of_nat (length (join g)) <= max_chars ∨ ∃ w, g = [w].

End Text.

(** Whitespace among the ASCII characters, as [str.isspace] has it. *)
Definition is_space_ascii (c : Ascii.ascii) : bool :=
  let n := Z.of_nat (Ascii.nat_of_ascii c) in
  ((9 <=? n) && (n <=? 13)) || ((28 <=? n) && (n <=? 32)).

(** ** Text of the labels

    A Python string is the list of its code points; [py] reads a literal
    of ASCII characters. *)

Definition str : Type := list Z.

Definition py (s : string) : str :=
  (fun c => Z.of_nat (Ascii.nat_of_ascii c)) <$> String.list_ascii_of_string s.

Definition two_digits (n : Z) : str := [48 + n / 10; 48 + n mod 10].

(** [strftime("%I:%M %p")]: hour of the 12-hour clock and minute, two digits
    each, then AM or PM (the day halves of the C locale). *)
Definition strftime_I_M_p (t : time) : str :=
  let h12 := if hour t mod 12 =? 0 then 12 else hour t mod 12 in
  two_digits h12 ++ py ":" ++ two_digits (minute t) ++ py " "
  ++ py (if hour t <? 12 then "AM" else "PM").

(** [s.lstrip("0")] *)
Fixpoint lstrip_zeros (s : str) : str :=
  match s with
  | [] => []
  | c :: rest => if c =? 48 then lstrip_zeros rest else s
  end.

Definition fmt_ampm (t : time) : str := lstrip_zeros (strftime_I_M_p t).

Definition fmt_ampm_dt (dt : datetime) : str := fmt_ampm (dt_time dt).

(** The label of minute [m] of the day, and the reading of the 12-hour
    clock it is compared with. *)
Definition label_of_minute (m : Z) : str :=
  fmt_ampm (mk_time (m / 60) (m mod 60)).

Definition clock_reading (t : time) : str :=
  let h12 := if hour t mod 12 =? 0 then 12 else hour t mod 12 in
  (if h12 <? 10 then [48 + h12] else [49; 48 + (h12 - 10)])
  ++ [58; 48 + minute t / 10; 48 + minute t mod 10; 32]
  ++ (if hour t <? 12 then [65; 77] else [80; 77]).

(** The minute of the day a label stands for. *)
Definition read_label (s : str) : Z :=
  let half p := if p =? 80 then 720 else 0 in
  match s with
  | [h; 58; m1; m0; 32; p; 77] =>
      ((h - 48) mod 12) * 60 + (m1 - 48) * 10 + (m0 - 48) + half p
  | [h1; h0; 58; m1; m0; 32; p; 77] =>
      (((h1 - 48) * 10 + (h0 - 48)) mod 12) * 60
      + (m1 - 48) * 10 + (m0 - 48) + half p
  | _ => 0
  end.

(** ** PDF export: the lines and the page cursor

    [build_pdf_bytes] writes through [draw_line], which draws a string at
    the height [y], moves [y] one line down, and first starts a page when
    [y] is under the bottom margin.  The model keeps the calls made on the
    canvas, in order.  Lengths are rationals and their arithmetic is exact:
    [inch] is the unit of length and [height] the height of the page.  The
    texts made by [strftime] are given by a function of the format and the
    date.  Names and kinds of events are ASCII. *)

Inductive CanvasOp : Type :=
| showPage
| setFont (font : string) (size : Z)
| drawString (x y : Q) (text : str).

Record Pdf : Type := mk_Pdf { pdf_ops : list CanvasOp; pdf_y : Q }.

(** A statement that moves [y]: a call of [draw_line], or [y -= dy]. *)
Inductive PdfStmt : Type :=
| Line (text : str) (font : string) (size : Z) (indent : Q)
| Down (dy : Q).

Section Pdf.
Context (is_space : Z → bool) (strftime : string → date → str)
        (inch height : Q).

Definition left : Q := 0.75 * inch.
Definition line_h : Q := 12.

Definition pdf_start : Pdf := mk_Pdf [] (height - 0.75 * inch).

Definition new_page (p : Pdf) : Pdf :=
  mk_Pdf (pdf_ops p ++ [showPage]) (height - 0.75 * inch).

Definition draw_line (text : str) (font : string) (size : Z) (indent : Q)
    (p : Pdf) : Pdf :=
  let p := if Qlt_le_dec (pdf_y p) (0.75 * inch) then new_page p else p in
  mk_Pdf (pdf_ops p
          ++ [setFont font size; drawString (left + indent) (pdf_y p) text])
         (pdf_y p - line_h).

Definition run_stmt (p : Pdf) (s : PdfStmt) : Pdf :=
  match s with
  | Line text font size indent => draw_line text font size indent p
  | Down dy => mk_Pdf (pdf_ops p) (pdf_y p - dy)
  end.

Definition run_stmts (body : list PdfStmt) : Pdf :=
  foldl run_stmt pdf_start body.

(** [for ln in wrap_text(text, max_chars=95): draw_line(ln, indent=10)] *)
Definition wrapped (text : str) : list PdfStmt :=
  (fun ln => Line ln "Helvetica" 10 10) <$> wrap_text is_space 32 text 95.

Definition item_text (e : Event) : str :=
  [8226] ++ py " " ++ fmt_ampm_dt (start e) ++ py " " ++ [8211] ++ py " "
  ++ fmt_ampm_dt (end_ e) ++ py "  |  " ++ py (name e) ++ py " ["
  ++ py (kind e) ++ py "]".

Definition pdf_title (week_start : date) : str :=
  py "Weekly Schedule: " ++ strftime "%b %d, %Y" week_start ++ py " (Mon) "
  ++ [8594] ++ py " " ++ strftime "%b %d, %Y" (week_start + 6) ++ py " (Sun)".

(** The lines of day [i], whose events are [evs]. *)
Definition day_block (week_start : date) (i : Z) (evs : list Event)
  : list PdfStmt :=
  let d := week_start + i in
  [Line (strftime "%A" d ++ py " (" ++ strftime "%b %d" d ++ py ")")
        "Helvetica-Bold" 11 0]
  ++ match evs with
     | [] => [Line ([8226] ++ py " (no events)") "Helvetica" 10 10]
     | _ => flat_map (fun e => wrapped (item_text e)) evs
     end
  ++ [Down 4].

Definition day_lines (week_start : date) (m : gmap Z (list Event)) (i : Z)
  : option (list PdfStmt) :=
  evs ← m !! i;
  Some (day_block week_start i evs).

(** The lines of one category of the content library. *)
Definition library_lines (entry : str * list str) : list PdfStmt :=
  [Line entry.1 "Helvetica-Bold" 11 0]
  ++ match entry.2 with
     | [] => [Line ([8226] ++ py " (empty)") "Helvetica" 10 10]
     | _ => flat_map (fun it => wrapped ([8226] ++ py " " ++ it)) entry.2
     end
  ++ [Down 4].

(** The statements of [build_pdf_bytes] that move [y], in order. *)
Definition pdf_body (week_start : date) (events : list Event)
    (content_library : list (str * list str)) : option (list PdfStmt) :=
  m ← events_by_day week_start events;
  days ← mapM (day_lines week_start m) range7;
  Some ([Line (pdf_title week_start) "Helvetica-Bold" 14 0; Down 6;
         Line (py "Schedule") "Helvetica-Bold" 12 0; Down 2]
        ++ concat days
        ++ [Line (py "Content Library") "Helvetica-Bold" 12 0; Down 2]
        ++ flat_map library_lines content_library).

(** The calls [build_pdf_bytes] makes on the canvas before [save]. *)
Definition build_pdf_ops (week_start : date) (events : list Event)
    (content_library : list (str * list str)) : option (list CanvasOp) :=
  body ← pdf_body week_start events content_library;
  Some (pdf_ops (run_stmts body)).

(** The decrements of [y] are not negative. *)
Definition moves_down (s : PdfStmt) : Prop :=
  match s with Line _ _ _ _ => True | Down dy => (0 <= dy)%Q end.

(** A string is drawn between the bottom margin and the first line. *)
Definition inside_margins (op : CanvasOp) : Prop :=
  match op with
  | drawString _ y _ => (0.75 * inch <= y)%Q ∧ (y <= height - 0.75 * inch)%Q
  | _ => True
  end.

(** Height of the last string drawn on the current page; [prev] is the one
    before [ops]. *)
Fixpoint last_line (prev : option Q) (ops : list CanvasOp) : option Q :=
  match ops with
  | [] => prev
  | showPage :: rest => last_line None rest
  | setFont _ _ :: rest => last_line prev rest
  | drawString _ y _ :: rest => last_line (Some y) rest
  end.

(** Each string is at least [line_h] below the string before it on the same
    page. *)
Fixpoint spaced (prev : option Q) (ops : list CanvasOp) : Prop :=
  match ops with
  | [] => True
  | showPage :: rest => spaced None rest
  | setFont _ _ :: rest => spaced prev rest
  | drawString _ y _ :: rest =>
      match prev with Some y0 => (y <= y0 - line_h)%Q | None => True end
      ∧ spaced (Some y) rest
  end.

(** The cursor is a line below the last string of the page. *)
Definition below_last (p : Pdf) : Prop :=
  match last_line None (pdf_ops p) with
  | Some y0 => (pdf_y p <= y0 - line_h)%Q
  | None => True
  end.

(** The strings drawn, each with its font, size and indent, in order. *)
Fixpoint drawn (font : string) (size : Z) (ops : list CanvasOp)
  : list (str * string * Z * Q) :=
  match ops with
  | [] => []
  | showPage :: rest => drawn font size rest
  | setFont f s :: rest => drawn f s rest
  | drawString x _ text :: rest => (text, font, size, x) :: drawn font size rest
  end.

Definition body_lines (body : list PdfStmt) : list (str * string * Z * Q) :=
  omap (fun s => match s with
                 | Line text font size indent =>
                     Some (text, font, size, (left + indent)%Q)
                 | Down _ => None
                 end) body.

End Pdf.

(** An event on the Wednesday of the week that starts on date 0. *)
Definition sample_event : Event :=
  mk_Event "Gym" (combine 2 (mk_time 22 0)) (combine 2 (mk_time 23 0))
           "#22c55e" "task".
(** * Properties *)

(** ** Calendar arithmetic *)

Lemma combine_shift d k t : combine (d + k) t = combine d t + k * 1440.
Proof. unfold combine. lia. Qed.

Lemma dt_date_shift x k : dt_date (x + k * 1440) = dt_date x + k.
Proof. unfold dt_date. rewrite Z.div_add; lia. Qed.

Lemma dt_time_shift x k : dt_time (x + k * 1440) = dt_time x.
Proof.
  unfold dt_time. f_equal.
  - rewrite Z.mod_add by lia. reflexivity.
  - replace (k * 1440) with (k * 24 * 60) by lia. rewrite Z.mod_add; lia.
Qed.

Lemma snap_15_shift x k : snap_15 (x + k * 1440) = snap_15 x + k * 1440.
Proof.
  unfold snap_15. rewrite dt_date_shift, dt_time_shift. apply combine_shift.
Qed.

Lemma leb_shift x y K : (x + K <=? y + K) = (x <=? y).
Proof. destruct (Z.leb_spec x y), (Z.leb_spec (x + K) (y + K)); lia || reflexivity. Qed.

Lemma eqb_shift x y K : (x + K =? y + K) = (x =? y).
Proof. destruct (Z.eqb_spec x y), (Z.eqb_spec (x + K) (y + K)); lia || reflexivity. Qed.

Lemma overlaps_shift a b c d K :
  overlaps (a + K) (b + K) (c + K) (d + K) = overlaps a b c d.
Proof. unfold overlaps. rewrite !Z.geb_leb, !leb_shift. reflexivity. Qed.

(** ** Moving a schedule by whole days

    The engine computes with dates only through [week_start + wd], so the
    schedule of one week is the schedule of any other moved by the number of
    days between them. *)

Lemma can_place_shift k evs s e :
  can_place (shift_event k <$> evs) (shift_dt k s) (shift_dt k e)
  = can_place evs s e.
Proof.
  induction evs as [|ev evs IH]; [reflexivity|].
  cbn [fmap list_fmap can_place]. unfold shift_dt in *. cbn [start end_ shift_event].
  replace (s + k * 1440 - BUFFER_MIN) with (s - BUFFER_MIN + k * 1440) by lia.
  replace (e + k * 1440 + BUFFER_MIN) with (e + BUFFER_MIN + k * 1440) by lia.
  unfold shift_dt. rewrite overlaps_shift.
  destruct (overlaps _ _ _ _); [reflexivity|]. apply IH.
Qed.

Lemma flat_map_shift {A} (f f' : A → list datetime) k l :
  (∀ t, f' t = shift_dt k <$> f t) →
  flat_map f' l = shift_dt k <$> flat_map f l.
Proof.
  intros Hf. induction l as [|t l IH]; [reflexivity|].
  cbn [flat_map]. rewrite fmap_app, Hf, IH. reflexivity.
Qed.

Lemma preferred_candidates_shift k d wstart wend dur :
  preferred_candidates (d + k) (shift_dt k wstart) (shift_dt k wend) dur
  = shift_dt k <$> preferred_candidates d wstart wend dur.
Proof.
  unfold preferred_candidates. apply flat_map_shift. intros t. cbv beta zeta.
  assert (Hs : ∀ b, snap_15 (combine (b + k) t)
                    = shift_dt k (snap_15 (combine b t))).
  { intros b. unfold shift_dt. by rewrite combine_shift, snap_15_shift. }
  destruct (time_leb WINDOW_START t).
  - rewrite Hs. set (s := snap_15 _). unfold shift_dt.
    replace (s + k * 1440 + dur) with (s + dur + k * 1440) by lia.
    rewrite !leb_shift. destruct (_ && _); reflexivity.
  - replace (d + k + 1) with (d + 1 + k) by lia.
    rewrite Hs. set (s := snap_15 _). unfold shift_dt.
    replace (s + k * 1440 + dur) with (s + dur + k * 1440) by lia.
    rewrite !leb_shift. destruct (_ && _); reflexivity.
Qed.

Lemma scan_loop_shift k fuel cur dur wend :
  scan_loop fuel (shift_dt k cur) dur (shift_dt k wend)
  = fmap (M := list) (shift_dt k) <$> scan_loop fuel cur dur wend.
Proof.
  revert cur. induction fuel as [|fuel IH]; intros cur; cbn [scan_loop];
    unfold shift_dt at 1 2;
    replace (cur + k * 1440 + dur) with (cur + dur + k * 1440) by lia;
    rewrite leb_shift; destruct (_ <=? _); try reflexivity.
  replace (shift_dt k cur + 15) with (shift_dt k (cur + 15))
    by (unfold shift_dt; lia).
  rewrite IH. destruct (scan_loop fuel _ _ _); reflexivity.
Qed.

Lemma full_scan_shift k cur dur wend :
  full_scan (shift_dt k cur) dur (shift_dt k wend)
  = shift_dt k <$> full_scan cur dur wend.
Proof.
  unfold full_scan. rewrite scan_loop_shift.
  replace (scan_fuel (shift_dt k cur) dur (shift_dt k wend))
    with (scan_fuel cur dur wend)
    by (unfold scan_fuel, shift_dt; do 3 f_equal; lia).
  destruct (scan_loop _ _ _ _); reflexivity.
Qed.

Lemma dedupe_shift k l : ∀ seen seen' : gset Z,
  (∀ x, shift_dt k x ∈ seen' ↔ x ∈ seen) →
  dedupe seen' (shift_dt k <$> l) = shift_dt k <$> dedupe seen l.
Proof.
  induction l as [|c l IH]; intros seen seen' Hs; [reflexivity|].
  cbn [fmap list_fmap dedupe].
  rewrite (bool_decide_ext _ _ (Hs c)).
  destruct (bool_decide (c ∈ seen)); [by apply IH|].
  cbn [fmap list_fmap]. f_equal. apply IH. intros x.
  rewrite !elem_of_union, !elem_of_singleton, Hs. unfold shift_dt.
  split; (intros [?|?]; [left; lia | by right]).
Qed.

Lemma day_window_shift k d :
  day_window (d + k)
  = (shift_dt k (day_window d).1, shift_dt k (day_window d).2).
Proof.
  unfold day_window, shift_dt. cbn [fst snd].
  replace (d + k + 1) with (d + 1 + k) by lia. by rewrite !combine_shift.
Qed.

Lemma candidates_of_day_shift k d dur :
  candidates_of_day (d + k) dur = shift_dt k <$> candidates_of_day d dur.
Proof.
  unfold candidates_of_day. rewrite day_window_shift.
  destruct (day_window d) as [wstart wend]. cbn [fst snd].
  replace (snap_15 (shift_dt k wstart)) with (shift_dt k (snap_15 wstart))
    by (unfold shift_dt; by rewrite snap_15_shift).
  rewrite preferred_candidates_shift, full_scan_shift, <- fmap_app.
  apply dedupe_shift. intros x. set_solver.
Qed.

Lemma gym_skip_shift k nm s e :
  gym_skip nm (shift_dt k s) (shift_dt k e) = gym_skip nm s e.
Proof.
  unfold gym_skip, shift_dt.
  by rewrite !dt_date_shift, dt_time_shift, eqb_shift.
Qed.

Lemma chessable_skip_shift k nm d s :
  chessable_skip nm (d + k) (shift_dt k s) = chessable_skip nm d s.
Proof.
  unfold chessable_skip, shift_dt.
  by rewrite dt_date_shift, dt_time_shift, eqb_shift.
Qed.

Lemma first_fit_shift k nm col d dur evs uniq :
  first_fit nm col (d + k) dur (shift_event k <$> evs) (shift_dt k <$> uniq)
  = shift_fit k (first_fit nm col d dur evs uniq).
Proof.
  induction uniq as [|s uniq IH]; [reflexivity|].
  cbn [fmap list_fmap first_fit]. cbv zeta.
  replace (shift_dt k s + dur) with (shift_dt k (s + dur))
    by (unfold shift_dt; lia).
  rewrite gym_skip_shift, chessable_skip_shift, can_place_shift.
  destruct (gym_skip nm s (s + dur)); [exact IH|].
  destruct (chessable_skip nm d s); [exact IH|].
  destruct (can_place evs s (s + dur)); [|exact IH].
  unfold shift_fit. cbn [fst snd]. by rewrite fmap_app.
Qed.

Lemma try_place_task_on_day_shift k week_start evs nm hrs col wd :
  try_place_task_on_day (week_start + k) (shift_event k <$> evs) nm hrs col wd
  = shift_fit k (try_place_task_on_day week_start evs nm hrs col wd).
Proof.
  unfold try_place_task_on_day. cbv zeta.
  replace (week_start + k + wd) with (week_start + wd + k) by lia.
  rewrite candidates_of_day_shift. apply first_fit_shift.
Qed.

Lemma strict_pass_shift k week_start nm hrs col days : ∀ st,
  strict_pass (week_start + k) nm hrs col days (shift_state k st)
  = shift_pass k <$> strict_pass week_start nm hrs col days st.
Proof.
  induction days as [|wd days IH]; intros st; [reflexivity|].
  cbn [strict_pass]. cbn [used_days tasks_per_day gym_days events shift_state].
  destruct (used_days st !! nm) as [used|]; [|reflexivity]. cbn [mbind option_bind].
  destruct (day_in wd used); [apply IH|].
  destruct (mutex_skip (used_days st) nm wd); [apply IH|].
  destruct (tasks_per_day st !! wd) as [cnt|]; [|reflexivity].
  cbn [mbind option_bind].
  destruct (cnt >=? day_limit wd); [apply IH|].
  destruct (gym_spacing_skip nm wd (gym_days st)); [apply IH|].
  rewrite try_place_task_on_day_shift.
  destruct (try_place_task_on_day week_start (events st) nm hrs col wd)
    as [evs ok].
  unfold shift_fit. cbn [fst snd]. destruct ok; [reflexivity|].
  apply (IH (mk_State evs (used_days st) (tasks_per_day st) (gym_days st))).
Qed.

Lemma relaxed_pass_shift k week_start nm hrs col days : ∀ st,
  relaxed_pass (week_start + k) nm hrs col days (shift_state k st)
  = shift_pass k <$> relaxed_pass week_start nm hrs col days st.
Proof.
  induction days as [|wd days IH]; intros st; [reflexivity|].
  cbn [relaxed_pass]. cbn [used_days tasks_per_day gym_days events shift_state].
  destruct (used_days st !! nm) as [used|]; [|reflexivity]. cbn [mbind option_bind].
  destruct (day_in wd used); [apply IH|].
  destruct (mutex_skip (used_days st) nm wd); [apply IH|].
  destruct (gym_spacing_skip nm wd (gym_days st)); [apply IH|].
  rewrite try_place_task_on_day_shift.
  destruct (try_place_task_on_day week_start (events st) nm hrs col wd)
    as [evs ok].
  unfold shift_fit. cbn [fst snd]. destruct ok; [reflexivity|].
  apply (IH (mk_State evs (used_days st) (tasks_per_day st) (gym_days st))).
Qed.

Lemma place_occurrence_shift k week_start nm hrs col st :
  place_occurrence (week_start + k) nm hrs col (shift_state k st)
  = shift_state k <$> place_occurrence week_start nm hrs col st.
Proof.
  unfold place_occurrence. rewrite strict_pass_shift.
  destruct (strict_pass week_start nm hrs col preferred_days st)
    as [[st1 placed]|]; [|reflexivity].
  cbn [fmap option_fmap option_map mbind option_bind shift_pass fst snd].
  destruct placed; [reflexivity|].
  rewrite relaxed_pass_shift.
  destruct (relaxed_pass week_start nm hrs col preferred_days st1)
    as [[st2 ?]|]; reflexivity.
Qed.

Lemma place_occurrences_shift k week_start nm hrs col n : ∀ st,
  place_occurrences n (week_start + k) nm hrs col (shift_state k st)
  = shift_state k <$> place_occurrences n week_start nm hrs col st.
Proof.
  induction n as [|n IH]; intros st; [reflexivity|].
  cbn [place_occurrences]. rewrite place_occurrence_shift.
  destruct (place_occurrence week_start nm hrs col st) as [st'|];
    [|reflexivity].
  apply IH.
Qed.

Lemma place_tasks_shift k week_start specs : ∀ st,
  place_tasks (week_start + k) specs (shift_state k st)
  = shift_state k <$> place_tasks week_start specs st.
Proof.
  induction specs as [|[[[nm hrs] count] col] specs IH]; intros st;
    [reflexivity|].
  cbn [place_tasks]. rewrite place_occurrences_shift.
  destruct (place_occurrences _ week_start nm hrs col st) as [st'|];
    [|reflexivity].
  apply IH.
Qed.

Lemma seed_teaching_shift k teaching week_start :
  seed_teaching teaching (week_start + k)
  = shift_event k <$> seed_teaching teaching week_start.
Proof.
  unfold seed_teaching. induction range7 as [|wd l IH]; [reflexivity|].
  cbn [flat_map]. rewrite fmap_app, IH. f_equal.
  unfold teaching_events_of_day. cbv zeta.
  induction (default [] (teaching !! wd)) as [|[[[n s] e] c] bl IHb];
    [reflexivity|].
  cbn [map fmap list_fmap]. f_equal; [|exact IHb].
  unfold shift_event, shift_dt. cbn [name start end_ color kind].
  replace (week_start + k + wd) with (week_start + wd + k) by lia.
  by rewrite !combine_shift.
Qed.

Lemma init_state_shift k teaching specs week_start :
  init_state teaching specs (week_start + k)
  = shift_state k (init_state teaching specs week_start).
Proof.
  unfold init_state, shift_state. cbn [events used_days tasks_per_day gym_days].
  by rewrite seed_teaching_shift.
Qed.

Lemma insert_by_start_shift k e l :
  insert_by_start (shift_event k e) (shift_event k <$> l)
  = shift_event k <$> insert_by_start e l.
Proof.
  induction l as [|x l IH]; [reflexivity|].
  cbn [fmap list_fmap insert_by_start]. cbn [start shift_event].
  unfold shift_dt at 1 2. rewrite leb_shift.
  destruct (start e <=? start x); [reflexivity|].
  cbn [fmap list_fmap]. f_equal. exact IH.
Qed.

Lemma sort_by_start_shift k l :
  sort_by_start (shift_event k <$> l) = shift_event k <$> sort_by_start l.
Proof.
  unfold sort_by_start. induction l as [|e l IH]; [reflexivity|].
  cbn [fmap list_fmap foldr]. rewrite IH. apply insert_by_start_shift.
Qed.

Lemma placed_state_shift k teaching specs week_start :
  placed_state teaching specs (week_start + k)
  = shift_state k <$> placed_state teaching specs week_start.
Proof. unfold placed_state. rewrite init_state_shift. apply place_tasks_shift. Qed.

Lemma build_events_from_shift k teaching specs week_start :
  build_events_from teaching specs (week_start + k)
  = fmap (M := list) (shift_event k)
      <$> build_events_from teaching specs week_start.
Proof.
  unfold build_events_from. rewrite placed_state_shift.
  destruct (placed_state teaching specs week_start) as [st|]; [|reflexivity].
  cbn [fmap option_fmap option_map mbind option_bind shift_state events].
  by rewrite sort_by_start_shift.
Qed.

(** ** The schedule of every week in closed form *)

Lemma placed_state_week0 :
  placed_state TEACHING TASK_SPECS 0 = Some week0_state.
Proof. vm_compute. reflexivity. Qed.

Lemma placed_state_closed week_start :
  placed_state TEACHING TASK_SPECS week_start
  = Some (shift_state week_start week0_state).
Proof.
  replace week_start with (0 + week_start) at 1 by lia.
  by rewrite placed_state_shift, placed_state_week0.
Qed.

Lemma build_events_closed week_start :
  build_events week_start = Some (shift_event week_start <$> week0_schedule).
Proof.
  unfold build_events, build_events_from. rewrite placed_state_closed.
  cbn [mbind option_bind shift_state events]. by rewrite sort_by_start_shift.
Qed.

(** ** What each loop of the engine does *)

Lemma State_eta st :
  mk_State (events st) (used_days st) (tasks_per_day st) (gym_days st) = st.
Proof. by destruct st. Qed.

Lemma first_fit_false nm col d dur evs uniq evs' :
  first_fit nm col d dur evs uniq = (evs', false) → evs' = evs.
Proof.
  induction uniq as [|s uniq IH]; cbn [first_fit]; [congruence|].
  cbv zeta. destruct (gym_skip _ _ _); [exact IH|].
  destruct (chessable_skip _ _ _); [exact IH|].
  destruct (can_place _ _ _); [discriminate|exact IH].
Qed.

Lemma first_fit_true nm col d dur evs uniq evs' :
  first_fit nm col d dur evs uniq = (evs', true) →
  ∃ s, s ∈ uniq ∧
       gym_skip nm s (s + dur) = false ∧
       chessable_skip nm d s = false ∧
       can_place evs s (s + dur) = true ∧
       evs' = evs ++ [mk_Event nm s (s + dur) col "task"].
Proof.
  induction uniq as [|s uniq IH]; cbn [first_fit]; [discriminate|].
  cbv zeta. intros H.
  assert (Hrec : first_fit nm col d dur evs uniq = (evs', true) →
                 ∃ s0, s0 ∈ s :: uniq ∧ gym_skip nm s0 (s0 + dur) = false ∧
                   chessable_skip nm d s0 = false ∧
                   can_place evs s0 (s0 + dur) = true ∧
                   evs' = evs ++ [mk_Event nm s0 (s0 + dur) col "task"]).
  { intros H'. destruct (IH H') as (s0 & ? & ?). exists s0.
    split; [by apply list_elem_of_further|done]. }
  destruct (gym_skip nm s (s + dur)) eqn:Hg; [by apply Hrec|].
  destruct (chessable_skip nm d s) eqn:Hc; [by apply Hrec|].
  destruct (can_place evs s (s + dur)) eqn:Hp; [|by apply Hrec].
  exists s. repeat split; try done; [apply list_elem_of_here|congruence].
Qed.

Lemma try_place_false week_start evs nm hrs col wd evs' :
  try_place_task_on_day week_start evs nm hrs col wd = (evs', false) →
  evs' = evs.
Proof. apply first_fit_false. Qed.

Lemma try_place_true week_start evs nm hrs col wd evs' :
  try_place_task_on_day week_start evs nm hrs col wd = (evs', true) →
  ∃ s, s ∈ candidates_of_day (week_start + wd) (dur_minutes hrs) ∧
       gym_skip nm s (s + dur_minutes hrs) = false ∧
       chessable_skip nm (week_start + wd) s = false ∧
       can_place evs s (s + dur_minutes hrs) = true ∧
       evs' = evs ++ [mk_Event nm s (s + dur_minutes hrs) col "task"].
Proof. apply first_fit_true. Qed.

Lemma strict_pass_false week_start nm hrs col days : ∀ st st',
  strict_pass week_start nm hrs col days st = Some (st', false) → st' = st.
Proof.
  induction days as [|wd days IH]; intros st st'; cbn [strict_pass];
    [congruence|].
  destruct (used_days st !! nm) as [used|]; [|discriminate].
  cbn [mbind option_bind].
  destruct (day_in wd used); [apply IH|].
  destruct (mutex_skip _ _ _); [apply IH|].
  destruct (tasks_per_day st !! wd) as [cnt|]; [|discriminate].
  cbn [mbind option_bind].
  destruct (cnt >=? day_limit wd); [apply IH|].
  destruct (gym_spacing_skip _ _ _); [apply IH|].
  destruct (try_place_task_on_day _ _ _ _ _ _) as [evs ok] eqn:Ht.
  destruct ok; [discriminate|].
  apply try_place_false in Ht. subst evs. rewrite State_eta. apply IH.
Qed.

Lemma relaxed_pass_false week_start nm hrs col days : ∀ st st',
  relaxed_pass week_start nm hrs col days st = Some (st', false) → st' = st.
Proof.
  induction days as [|wd days IH]; intros st st'; cbn [relaxed_pass];
    [congruence|].
  destruct (used_days st !! nm) as [used|]; [|discriminate].
  cbn [mbind option_bind].
  destruct (day_in wd used); [apply IH|].
  destruct (mutex_skip _ _ _); [apply IH|].
  destruct (gym_spacing_skip _ _ _); [apply IH|].
  destruct (try_place_task_on_day _ _ _ _ _ _) as [evs ok] eqn:Ht.
  destruct ok; [discriminate|].
  apply try_place_false in Ht. subst evs. rewrite State_eta. apply IH.
Qed.

(** The day-level conditions under which a pass tried weekday [wd]. *)
Lemma strict_pass_true week_start nm hrs col days : ∀ st st',
  strict_pass week_start nm hrs col days st = Some (st', true) →
  ∃ wd, wd ∈ days ∧
    recorded true week_start nm hrs col st st' wd ∧
    (∀ used, used_days st !! nm = Some used → wd ∉ used) ∧
    mutex_skip (used_days st) nm wd = false ∧
    (∀ cnt, tasks_per_day st !! wd = Some cnt → cnt < day_limit wd) ∧
    gym_spacing_skip nm wd (gym_days st) = false.
Proof.
  induction days as [|wd days IH]; intros st st'; cbn [strict_pass];
    [discriminate|].
  intros H.
  assert (Hrec : strict_pass week_start nm hrs col days st = Some (st', true) →
    ∃ wd0, wd0 ∈ wd :: days ∧
      recorded true week_start nm hrs col st st' wd0 ∧
      (∀ used, used_days st !! nm = Some used → wd0 ∉ used) ∧
      mutex_skip (used_days st) nm wd0 = false ∧
      (∀ cnt, tasks_per_day st !! wd0 = Some cnt → cnt < day_limit wd0) ∧
      gym_spacing_skip nm wd0 (gym_days st) = false).
  { intros H'. destruct (IH _ _ H') as (wd0 & ? & ?). exists wd0.
    split; [by apply list_elem_of_further|done]. }
  destruct (used_days st !! nm) as [used|] eqn:Hu; [|discriminate].
  cbn [mbind option_bind] in H.
  destruct (day_in wd used) eqn:Hin; [by apply Hrec|].
  destruct (mutex_skip _ _ _) eqn:Hm; [by apply Hrec|].
  destruct (tasks_per_day st !! wd) as [cnt|] eqn:Hc; [|discriminate].
  cbn [mbind option_bind] in H.
  destruct (cnt >=? day_limit wd) eqn:Hq; [by apply Hrec|].
  destruct (gym_spacing_skip _ _ _) eqn:Hg; [by apply Hrec|].
  destruct (try_place_task_on_day _ _ _ _ _ _) as [evs ok] eqn:Ht.
  destruct ok.
  - injection H as <-. exists wd. split; [apply list_elem_of_here|].
    split; [|split; [|split; [|split]]].
    + exists used. cbn [events used_days tasks_per_day gym_days].
      unfold append_gym. repeat split; try done. by exists cnt.
    + intros u Hu'. assert (u = used) as -> by congruence.
      unfold day_in in Hin.
      by apply bool_decide_eq_false in Hin.
    + done.
    + intros c Hc'. assert (c = cnt) as -> by congruence.
      rewrite Z.geb_leb in Hq.
      apply Z.leb_gt in Hq. exact Hq.
    + done.
  - apply try_place_false in Ht. subst evs. rewrite State_eta in H.
    by apply Hrec.
Qed.

Lemma relaxed_pass_true week_start nm hrs col days : ∀ st st',
  relaxed_pass week_start nm hrs col days st = Some (st', true) →
  ∃ wd, wd ∈ days ∧
    recorded false week_start nm hrs col st st' wd ∧
    tasks_per_day st' = tasks_per_day st ∧
    (∀ used, used_days st !! nm = Some used → wd ∉ used) ∧
    mutex_skip (used_days st) nm wd = false ∧
    gym_spacing_skip nm wd (gym_days st) = false.
Proof.
  induction days as [|wd days IH]; intros st st'; cbn [relaxed_pass];
    [discriminate|].
  intros H.
  assert (Hrec : relaxed_pass week_start nm hrs col days st = Some (st', true) →
    ∃ wd0, wd0 ∈ wd :: days ∧
      recorded false week_start nm hrs col st st' wd0 ∧
      tasks_per_day st' = tasks_per_day st ∧
      (∀ used, used_days st !! nm = Some used → wd0 ∉ used) ∧
      mutex_skip (used_days st) nm wd0 = false ∧
      gym_spacing_skip nm wd0 (gym_days st) = false).
  { intros H'. destruct (IH _ _ H') as (wd0 & ? & ?). exists wd0.
    split; [by apply list_elem_of_further|done]. }
  destruct (used_days st !! nm) as [used|] eqn:Hu; [|discriminate].
  cbn [mbind option_bind] in H.
  destruct (day_in wd used) eqn:Hin; [by apply Hrec|].
  destruct (mutex_skip _ _ _) eqn:Hm; [by apply Hrec|].
  destruct (gym_spacing_skip _ _ _) eqn:Hg; [by apply Hrec|].
  destruct (try_place_task_on_day _ _ _ _ _ _) as [evs ok] eqn:Ht.
  destruct ok.
  - injection H as <-. exists wd. split; [apply list_elem_of_here|].
    split; [|split; [|split; [|split]]].
    + exists used. cbn [events used_days tasks_per_day gym_days].
      unfold append_gym. done.
    + done.
    + intros u Hu'. assert (u = used) as -> by congruence.
      unfold day_in in Hin.
      by apply bool_decide_eq_false in Hin.
    + done.
    + done.
  - apply try_place_false in Ht. subst evs. rewrite State_eta in H.
    by apply Hrec.
Qed.

Lemma place_occurrence_cases week_start nm hrs col st st' :
  place_occurrence week_start nm hrs col st = Some st' →
  st' = st ∨
  ∃ wd counted, wd ∈ preferred_days ∧
    recorded counted week_start nm hrs col st st' wd ∧
    (counted = false → tasks_per_day st' = tasks_per_day st) ∧
    (∀ used, used_days st !! nm = Some used → wd ∉ used) ∧
    mutex_skip (used_days st) nm wd = false ∧
    gym_spacing_skip nm wd (gym_days st) = false.
Proof.
  unfold place_occurrence.
  destruct (strict_pass week_start nm hrs col preferred_days st)
    as [[st1 placed]|] eqn:Hs; [|discriminate].
  cbn [mbind option_bind]. destruct placed.
  - intros [= <-]. right.
    destruct (strict_pass_true _ _ _ _ _ _ _ Hs)
      as (wd & Hwd & Hrec & Hused & Hm & _ & Hg).
    exists wd, true. repeat split; done.
  - apply strict_pass_false in Hs. subst st1.
    destruct (relaxed_pass week_start nm hrs col preferred_days st)
      as [[st2 placed]|] eqn:Hr; [|discriminate].
    cbn [fmap option_fmap option_map fst]. intros [= <-]. destruct placed.
    + right.
      destruct (relaxed_pass_true _ _ _ _ _ _ _ Hr)
        as (wd & Hwd & Hrec & Ht & Hused & Hm & Hg).
      exists wd, false. repeat split; done.
    + left. by apply relaxed_pass_false in Hr.
Qed.

(** Why the strict pass passed over a weekday. *)
Lemma strict_pass_false_days week_start nm hrs col days : ∀ st st',
  strict_pass week_start nm hrs col days st = Some (st', false) →
  ∀ wd, wd ∈ days →
    ∃ used, used_days st !! nm = Some used ∧
      (wd ∈ used ∨ mutex_skip (used_days st) nm wd = true ∨
       ∃ cnt, tasks_per_day st !! wd = Some cnt ∧
         (day_limit wd ≤ cnt ∨
          gym_spacing_skip nm wd (gym_days st) = true ∨
          (try_place_task_on_day week_start (events st) nm hrs col wd).2
            = false)).
Proof.
  induction days as [|wd days IH]; intros st st' H w Hw;
    [by apply elem_of_nil in Hw|].
  cbn [strict_pass] in H.
  destruct (used_days st !! nm) as [used|] eqn:Hu; [|discriminate].
  cbn [mbind option_bind] in H. exists used. split; [done|].
  assert (Hrec : strict_pass week_start nm hrs col days st = Some (st', false) →
    w ∈ days →
    w ∈ used ∨ mutex_skip (used_days st) nm w = true ∨
    ∃ cnt, tasks_per_day st !! w = Some cnt ∧
      (day_limit w ≤ cnt ∨ gym_spacing_skip nm w (gym_days st) = true ∨
       (try_place_task_on_day week_start (events st) nm hrs col w).2 = false)).
  { intros H' Hw'. destruct (IH _ _ H' w Hw') as (used' & Hu' & Hcase).
    by assert (used' = used) as <- by congruence. }
  apply elem_of_cons in Hw as [->|Hw].
  - destruct (day_in wd used) eqn:Hin;
      [left; by apply bool_decide_eq_true in Hin|].
    destruct (mutex_skip _ _ _) eqn:Hm; [right; by left|].
    destruct (tasks_per_day st !! wd) as [cnt|] eqn:Hc; [|discriminate].
    cbn [mbind option_bind] in H. right. right. exists cnt. split; [done|].
    destruct (cnt >=? day_limit wd) eqn:Hq.
    { left. rewrite Z.geb_leb in Hq. by apply Z.leb_le in Hq. }
    destruct (gym_spacing_skip _ _ _) eqn:Hg; [right; by left|].
    destruct (try_place_task_on_day _ _ _ _ _ _) as [evs ok] eqn:Ht.
    destruct ok; [discriminate|]. right. by right.
  - destruct (day_in wd used); [by apply Hrec|].
    destruct (mutex_skip _ _ _); [by apply Hrec|].
    destruct (tasks_per_day st !! wd) as [cnt|]; [|discriminate].
    cbn [mbind option_bind] in H.
    destruct (cnt >=? day_limit wd); [by apply Hrec|].
    destruct (gym_spacing_skip _ _ _); [by apply Hrec|].
    destruct (try_place_task_on_day _ _ _ _ _ _) as [evs ok] eqn:Ht.
    destruct ok; [discriminate|].
    apply try_place_false in Ht. subst evs. rewrite State_eta in H.
    by apply Hrec.
Qed.

(** The relaxed pass runs on the state the strict pass left untouched, so
    the weekday it places on is one whose counter had met the limit: the
    quota test is the only one the strict pass makes and the relaxed pass
    does not. *)
Lemma relaxed_pass_only_over_quota week_start nm hrs col days st st1 st' :
  strict_pass week_start nm hrs col days st = Some (st1, false) →
  relaxed_pass week_start nm hrs col days st1 = Some (st', true) →
  ∃ wd cnt, wd ∈ days ∧
    recorded false week_start nm hrs col st st' wd ∧
    tasks_per_day st !! wd = Some cnt ∧ day_limit wd ≤ cnt ∧
    tasks_per_day st' = tasks_per_day st.
Proof.
  intros Hs Hr. pose proof (strict_pass_false _ _ _ _ _ _ _ Hs) as ->.
  destruct (relaxed_pass_true _ _ _ _ _ _ _ Hr)
    as (wd & Hwd & Hrec & Htp & Hfresh & Hm & Hg).
  destruct (strict_pass_false_days _ _ _ _ _ _ _ Hs wd Hwd)
    as (used & Hu & [Hin|[Hm'|(cnt & Hc & [Hq|[Hg'|Ht]])]]).
  - by destruct (Hfresh used Hu).
  - congruence.
  - by exists wd, cnt.
  - congruence.
  - destruct Hrec as (_ & _ & Ht' & _). rewrite Ht' in Ht. discriminate.
Qed.

(** ** No subscript of the engine fails *)

Lemma strict_pass_total week_start nm hrs col days : ∀ st,
  is_Some (used_days st !! nm) →
  (∀ wd, wd ∈ days → is_Some (tasks_per_day st !! wd)) →
  is_Some (strict_pass week_start nm hrs col days st).
Proof.
  induction days as [|wd days IH]; intros st Hu Hk; cbn [strict_pass];
    [by eexists|].
  assert (Hk' : ∀ w, w ∈ days → is_Some (tasks_per_day st !! w))
    by (intros w Hw; apply Hk; by apply list_elem_of_further).
  destruct Hu as [used Hu]. rewrite Hu. cbn [mbind option_bind].
  destruct (day_in wd used); [by apply IH; [eexists|]|].
  destruct (mutex_skip _ _ _); [by apply IH; [eexists|]|].
  destruct (Hk wd) as [cnt Hc]; [apply list_elem_of_here|].
  rewrite Hc. cbn [mbind option_bind].
  destruct (cnt >=? day_limit wd); [by apply IH; [eexists|]|].
  destruct (gym_spacing_skip _ _ _); [by apply IH; [eexists|]|].
  destruct (try_place_task_on_day _ _ _ _ _ _) as [evs ok].
  destruct ok; [by eexists|]. apply IH; [by eexists|done].
Qed.

Lemma relaxed_pass_total week_start nm hrs col days : ∀ st,
  is_Some (used_days st !! nm) →
  is_Some (relaxed_pass week_start nm hrs col days st).
Proof.
  induction days as [|wd days IH]; intros st Hu; cbn [relaxed_pass];
    [by eexists|].
  destruct Hu as [used Hu]. rewrite Hu. cbn [mbind option_bind].
  destruct (day_in wd used); [by apply IH; eexists|].
  destruct (mutex_skip _ _ _); [by apply IH; eexists|].
  destruct (gym_spacing_skip _ _ _); [by apply IH; eexists|].
  destruct (try_place_task_on_day _ _ _ _ _ _) as [evs ok].
  destruct ok; [by eexists|]. apply IH. by eexists.
Qed.

Lemma place_occurrence_total week_start nm hrs col st :
  is_Some (used_days st !! nm) →
  (∀ wd, wd ∈ preferred_days → is_Some (tasks_per_day st !! wd)) →
  is_Some (place_occurrence week_start nm hrs col st).
Proof.
  intros Hu Hk. unfold place_occurrence.
  destruct (strict_pass_total week_start nm hrs col preferred_days st Hu Hk)
    as [[st1 placed] Hs].
  rewrite Hs. cbn [mbind option_bind]. destruct placed; [by eexists|].
  apply strict_pass_false in Hs. subst st1.
  destruct (relaxed_pass_total week_start nm hrs col preferred_days st Hu)
    as [[st2 ?] Hr].
  rewrite Hr. by eexists.
Qed.

(** A step never removes a key of either dictionary. *)
Lemma place_occurrence_keys week_start nm hrs col st st' :
  place_occurrence week_start nm hrs col st = Some st' →
  (∀ k, is_Some (used_days st !! k) → is_Some (used_days st' !! k)) ∧
  (∀ k, is_Some (tasks_per_day st !! k) → is_Some (tasks_per_day st' !! k)).
Proof.
  intros H. destruct (place_occurrence_cases _ _ _ _ _ _ H)
    as [->|(wd & counted & _ & Hrec & Hcnt & _)]; [done|].
  destruct Hrec as (used & _ & _ & Hud & Htp & _). split.
  - intros k Hk. rewrite Hud. apply lookup_insert_is_Some'. by right.
  - intros k Hk. destruct counted.
    + destruct Htp as (cnt & _ & ->). apply lookup_insert_is_Some'. by right.
    + by rewrite Hcnt.
Qed.

Lemma place_occurrences_total week_start nm hrs col n : ∀ st,
  is_Some (used_days st !! nm) →
  (∀ wd, wd ∈ preferred_days → is_Some (tasks_per_day st !! wd)) →
  ∃ st', place_occurrences n week_start nm hrs col st = Some st' ∧
    (∀ k, is_Some (used_days st !! k) → is_Some (used_days st' !! k)) ∧
    (∀ k, is_Some (tasks_per_day st !! k) → is_Some (tasks_per_day st' !! k)).
Proof.
  induction n as [|n IH]; intros st Hu Hk; cbn [place_occurrences].
  - by exists st.
  - destruct (place_occurrence_total week_start nm hrs col st Hu Hk)
      as [st1 H1].
    rewrite H1. cbn [mbind option_bind].
    destruct (place_occurrence_keys _ _ _ _ _ _ H1) as [Hu1 Hk1].
    destruct (IH st1) as (st' & H' & Hu' & Hk'); [auto..|].
    exists st'. split; [done|]. split; auto.
Qed.

Lemma place_tasks_total week_start specs : ∀ st,
  (∀ sp, sp ∈ specs → is_Some (used_days st !! spec_name sp)) →
  (∀ wd, wd ∈ preferred_days → is_Some (tasks_per_day st !! wd)) →
  is_Some (place_tasks week_start specs st).
Proof.
  induction specs as [|[[[nm hrs] count] col] specs IH]; intros st Hu Hk;
    cbn [place_tasks]; [by eexists|].
  destruct (place_occurrences_total week_start nm hrs col (Z.to_nat count) st)
    as (st1 & H1 & Hu1 & Hk1);
    [apply (Hu (nm, hrs, count, col)), list_elem_of_here|done|].
  rewrite H1. cbn [mbind option_bind]. apply IH.
  - intros sp Hsp. apply Hu1, Hu. by apply list_elem_of_further.
  - intros wd Hwd. by apply Hk1, Hk.
Qed.

Lemma init_state_keys teaching specs week_start :
  (∀ sp, sp ∈ specs →
     is_Some (used_days (init_state teaching specs week_start) !! spec_name sp))
  ∧ (∀ wd, wd ∈ preferred_days →
     is_Some (tasks_per_day (init_state teaching specs week_start) !! wd)).
Proof.
  split.
  - intros sp Hsp. cbn [init_state used_days].
    apply elem_of_dom. rewrite dom_list_to_map_L, elem_of_list_to_set.
    rewrite <- list_fmap_compose. apply list_elem_of_fmap. by exists sp.
  - intros wd Hwd. cbn [init_state tasks_per_day].
    unfold preferred_days in Hwd.
    repeat (apply elem_of_cons in Hwd as [->|Hwd]; [by eexists|]).
    by apply elem_of_nil in Hwd.
Qed.

Lemma build_events_from_total teaching specs week_start :
  is_Some (build_events_from teaching specs week_start).
Proof.
  unfold build_events_from, placed_state.
  destruct (init_state_keys teaching specs week_start) as [Hu Hk].
  destruct (place_tasks_total week_start specs _ Hu Hk) as [st Hst].
  rewrite Hst. by eexists.
Qed.

(** ** The fallback scan terminates *)

Lemma scan_loop_enough dur wend n : ∀ cur,
  (wend - dur - cur) / 15 + 1 ≤ Z.of_nat n →
  is_Some (scan_loop n cur dur wend).
Proof.
  induction n as [|n IH]; intros cur Hn; cbn [scan_loop];
    destruct (Z.leb_spec (cur + dur) wend) as [Hle|Hgt]; try by eexists.
  - assert (0 ≤ (wend - dur - cur) / 15) by (apply Z.div_pos; lia).
    exfalso. lia.
  - destruct (IH (cur + 15)) as [l Hl]; [|rewrite Hl; by eexists].
    replace (wend - dur - (cur + 15)) with (wend - dur - cur + (-1) * 15)
      by lia.
    rewrite Z.div_add by lia. lia.
Qed.

Lemma scan_loop_fuel dur wend n m : ∀ cur l,
  scan_loop n cur dur wend = Some l → (n ≤ m)%nat →
  scan_loop m cur dur wend = Some l.
Proof.
  revert m. induction n as [|n IH]; intros m cur l; cbn [scan_loop].
  - destruct m; cbn [scan_loop]; destruct (cur + dur <=? wend); done.
  - intros H Hm. destruct m as [|m]; [lia|]. cbn [scan_loop].
    destruct (cur + dur <=? wend); [|done].
    destruct (scan_loop n (cur + 15) dur wend) as [l'|] eqn:Hl; [|done].
    rewrite (IH m _ _ Hl) by lia. done.
Qed.

(** [full_scan] satisfies the equation of the [while] loop. *)
Lemma full_scan_unfold cur dur wend :
  full_scan cur dur wend
  = if cur + dur <=? wend then cur :: full_scan (cur + 15) dur wend else [].
Proof.
  unfold full_scan.
  destruct (scan_loop_enough dur wend (scan_fuel cur dur wend) cur) as [l Hl];
    [unfold scan_fuel; lia|].
  destruct (scan_loop_enough dur wend (scan_fuel (cur + 15) dur wend) (cur + 15))
    as [l' Hl']; [unfold scan_fuel; lia|].
  rewrite Hl, Hl'. cbn [default from_option id].
  destruct (scan_fuel cur dur wend) as [|n] eqn:Hn; cbn [scan_loop] in Hl;
    destruct (Z.leb_spec (cur + dur) wend) as [Hle|Hgt]; try congruence.
  assert (Hn' : scan_loop n (cur + 15) dur wend = Some l').
  { destruct (scan_loop_enough dur wend n (cur + 15)) as [l2 Hl2].
    - unfold scan_fuel in Hn.
      replace (wend - dur - (cur + 15)) with (wend - dur - cur + (-1) * 15)
        by lia.
      rewrite Z.div_add by lia. lia.
    - rewrite Hl2. f_equal.
      destruct (Nat.le_ge_cases n (scan_fuel (cur + 15) dur wend)).
      + rewrite (scan_loop_fuel _ _ _ _ _ _ Hl2 H) in Hl'. congruence.
      + rewrite (scan_loop_fuel _ _ _ _ _ _ Hl' H) in Hl2. congruence. }
  rewrite Hn' in Hl. cbn in Hl. congruence.
Qed.

(** ** The final sort *)

Lemma insert_by_start_perm e l : insert_by_start e l ≡ₚ e :: l.
Proof.
  induction l as [|x l IH]; cbn [insert_by_start]; [done|].
  destruct (start e <=? start x); [done|].
  rewrite IH. apply Permutation_swap.
Qed.

Lemma sort_by_start_perm l : sort_by_start l ≡ₚ l.
Proof.
  unfold sort_by_start. induction l as [|e l IH]; cbn [foldr]; [done|].
  by rewrite insert_by_start_perm, IH.
Qed.

Lemma insert_by_start_sorted e l :
  StronglySorted by_start l → StronglySorted by_start (insert_by_start e l).
Proof.
  induction 1 as [|x l Hl IH Hx]; cbn [insert_by_start].
  - repeat constructor.
  - destruct (Z.leb_spec (start e) (start x)) as [Hle|Hgt].
    + constructor; [by constructor|]. constructor; [exact Hle|].
      eapply Forall_impl; [exact Hx|]. unfold by_start. intros y Hy. lia.
    + constructor; [exact IH|].
      rewrite insert_by_start_perm. constructor; [|exact Hx].
      unfold by_start. lia.
Qed.

Lemma sort_by_start_strongly_sorted l :
  StronglySorted by_start (sort_by_start l).
Proof.
  unfold sort_by_start. induction l as [|e l IH]; cbn [foldr];
    [constructor|by apply insert_by_start_sorted].
Qed.

Lemma StronglySorted_sorted_by_start l :
  StronglySorted by_start l → sorted_by_start l.
Proof.
  induction 1 as [|x l Hl IH Hx]; intros i j a b Hij Ha Hb.
  - by rewrite lookup_nil in Ha.
  - destruct j as [|j]; [lia|]. cbn in Hb. destruct i as [|i].
    + cbn in Ha. injection Ha as <-.
      rewrite Forall_forall in Hx. apply Hx. by eapply list_elem_of_lookup_2.
    + cbn in Ha. apply (IH i j); [lia|done..].
Qed.

Lemma sort_by_start_sorted l : sorted_by_start (sort_by_start l).
Proof. apply StronglySorted_sorted_by_start, sort_by_start_strongly_sorted. Qed.

Lemma sorted_by_start_tail x l : sorted_by_start (x :: l) → sorted_by_start l.
Proof. intros H i j a b Hij Ha Hb. apply (H (S i) (S j)); [lia|done..]. Qed.

(** Sorting a list that is already in order changes nothing. *)
Lemma sort_by_start_id l : sorted_by_start l → sort_by_start l = l.
Proof.
  unfold sort_by_start. induction l as [|x l IH]; intros Hs; [done|].
  cbn [foldr]. rewrite IH by (by eapply sorted_by_start_tail).
  destruct l as [|y l]; [done|]. cbn [insert_by_start].
  assert (start x ≤ start y) as Hxy
    by (apply (Hs 0%nat 1%nat); [lia|done..]).
  destruct (Z.leb_spec (start x) (start y)); [done|lia].
Qed.

(** ** Invariants of the placement loops *)

Lemma place_occurrences_ind (P : State → Prop) week_start nm hrs col :
  (∀ st st', P st → place_occurrence week_start nm hrs col st = Some st' →
             P st') →
  ∀ n st st', P st →
    place_occurrences n week_start nm hrs col st = Some st' → P st'.
Proof.
  intros Hstep. induction n as [|n IH]; intros st st' HP;
    cbn [place_occurrences]; [by intros [= <-]|].
  destruct (place_occurrence week_start nm hrs col st) as [st1|] eqn:H1;
    [|discriminate].
  cbn [mbind option_bind]. apply IH. by eapply Hstep.
Qed.

Lemma place_tasks_ind (P : State → Prop) week_start :
  (∀ nm hrs col st st', P st →
     place_occurrence week_start nm hrs col st = Some st' → P st') →
  ∀ specs st st', P st → place_tasks week_start specs st = Some st' → P st'.
Proof.
  intros Hstep.
  induction specs as [|[[[nm hrs] count] col] specs IH]; intros st st' HP;
    cbn [place_tasks]; [by intros [= <-]|].
  destruct (place_occurrences _ week_start nm hrs col st) as [st1|] eqn:H1;
    [|discriminate].
  cbn [mbind option_bind]. apply IH.
  eapply place_occurrences_ind; [|exact HP|exact H1]. apply Hstep.
Qed.

Lemma snoc_split {A} (pre post l : list A) x y :
  pre ++ x :: post = l ++ [y] →
  (post = [] ∧ pre = l ∧ x = y) ∨
  (∃ post', post = post' ++ [y] ∧ l = pre ++ x :: post').
Proof.
  destruct post as [|p post _] using rev_ind; intros H.
  - left. apply (app_inj_tail pre l x y) in H as [-> ->]. done.
  - right. exists post.
    replace (pre ++ x :: post ++ [p]) with ((pre ++ x :: post) ++ [p]) in H
      by (by rewrite <- app_assoc).
    apply app_inj_tail in H as [<- ->]. done.
Qed.

Lemma place_occurrence_respects_buffer week_start nm hrs col st st' :
  placements_respect_buffer (events st) →
  place_occurrence week_start nm hrs col st = Some st' →
  placements_respect_buffer (events st').
Proof.
  intros Hinv H.
  destruct (place_occurrence_cases _ _ _ _ _ _ H)
    as [->|(wd & counted & _ & Hrec & _)]; [done|].
  destruct Hrec as (used & _ & Ht & _).
  apply try_place_true in Ht as (s & _ & _ & _ & Hcp & Hev).
  rewrite Hev. intros pre ev post Hsplit Hkind. symmetry in Hsplit.
  apply snoc_split in Hsplit as [(_ & -> & ->)|(post' & _ & Hl)].
  - exact Hcp.
  - by apply (Hinv pre ev post').
Qed.

Lemma seed_teaching_kind teaching week_start ev :
  ev ∈ seed_teaching teaching week_start → kind ev = "teaching".
Proof.
  unfold seed_teaching. intros H.
  apply list_elem_of_In, in_flat_map in H as (wd & _ & H).
  unfold teaching_events_of_day in H. cbv zeta in H.
  apply in_map_iff in H as ([[[n s] e] c] & <- & _). reflexivity.
Qed.

Lemma seed_respects_buffer teaching week_start :
  placements_respect_buffer (seed_teaching teaching week_start).
Proof.
  intros pre ev post Hsplit Hkind.
  assert (kind ev = "teaching") as Hk.
  { apply (seed_teaching_kind teaching week_start). rewrite Hsplit.
    apply elem_of_app. right. apply list_elem_of_here. }
  congruence.
Qed.

Lemma placed_state_respects_buffer teaching specs week_start st :
  placed_state teaching specs week_start = Some st →
  placements_respect_buffer (events st).
Proof.
  unfold placed_state.
  apply (place_tasks_ind (λ s, placements_respect_buffer (events s))).
  - intros nm hrs col s s' Hs H.
    by eapply place_occurrence_respects_buffer.
  - apply seed_respects_buffer.
Qed.

Lemma gym_spacing_skip_false nm wd gd :
  gym_spacing_skip nm wd gd = false →
  nm = "Gym" → ∀ g, g ∈ gd → 2 ≤ Z.abs (wd - g).
Proof.
  unfold gym_spacing_skip. intros H -> g Hg. cbn in H.
  destruct (Z.ltb_spec (Z.abs (wd - g)) 2) as [Hlt|]; [|done].
  exfalso. assert (existsb (λ g, Z.abs (wd - g) <? 2) gd = true) as He.
  { apply existsb_exists. exists g. split; [by apply list_elem_of_In|].
    by apply Z.ltb_lt. }
  congruence.
Qed.

Lemma gym_spaced_snoc gd wd :
  gym_spaced gd → (∀ g, g ∈ gd → 2 ≤ Z.abs (wd - g)) → gym_spaced (gd ++ [wd]).
Proof.
  intros Hgd Hwd i j a b Hij Ha Hb.
  apply lookup_snoc_Some in Ha as [[Hi Ha]|[Hi <-]];
    apply lookup_snoc_Some in Hb as [[Hj Hb]|[Hj <-]].
  - by apply (Hgd i j).
  - apply list_elem_of_lookup_2, Hwd in Ha. lia.
  - by apply list_elem_of_lookup_2, Hwd in Hb.
  - lia.
Qed.

Lemma place_occurrence_gym_spaced week_start nm hrs col st st' :
  gym_spaced (gym_days st) →
  place_occurrence week_start nm hrs col st = Some st' →
  gym_spaced (gym_days st').
Proof.
  intros Hinv H.
  destruct (place_occurrence_cases _ _ _ _ _ _ H)
    as [->|(wd & counted & _ & Hrec & _ & _ & _ & Hg)]; [done|].
  destruct Hrec as (used & _ & _ & _ & _ & ->).
  destruct (String.eqb_spec nm "Gym") as [Hnm|]; [|done].
  apply gym_spaced_snoc; [done|]. by apply (gym_spacing_skip_false nm).
Qed.

Lemma mutex_skip_false ud nm wd :
  mutex_skip ud nm wd = false →
  (nm = "Opening Study" → ∀ e, ud !! "Endgame Study" = Some e → wd ∉ e) ∧
  (nm = "Endgame Study" → ∀ o, ud !! "Opening Study" = Some o → wd ∉ o).
Proof.
  unfold mutex_skip, day_in. intros H. apply orb_false_elim in H as [H1 H2].
  split; intros -> s Hs; rewrite Hs in *; cbn in *;
    by apply bool_decide_eq_false in H1 || by apply bool_decide_eq_false in H2.
Qed.

Lemma place_occurrence_mutex_ok week_start nm hrs col st st' :
  mutex_ok (used_days st) →
  place_occurrence week_start nm hrs col st = Some st' →
  mutex_ok (used_days st').
Proof.
  intros Hinv H.
  destruct (place_occurrence_cases _ _ _ _ _ _ H)
    as [->|(wd & counted & _ & Hrec & _ & Hfresh & Hm & _)]; [done|].
  destruct Hrec as (used & Hu & _ & Hud & _).
  apply mutex_skip_false in Hm as [HmO HmE].
  rewrite Hud. intros o e w Ho He Hwo Hwe.
  destruct (decide (nm = "Opening Study")) as [->|HnO].
  - rewrite lookup_insert_eq in Ho. rewrite lookup_insert_ne in He by done.
    injection Ho as <-. apply elem_of_union in Hwo as [Hw|Hw].
    + apply elem_of_singleton in Hw as ->. by apply (HmO eq_refl e).
    + by apply (Hinv used e w).
  - rewrite lookup_insert_ne in Ho by done.
    destruct (decide (nm = "Endgame Study")) as [->|HnE].
    + rewrite lookup_insert_eq in He. injection He as <-.
      apply elem_of_union in Hwe as [Hw|Hw].
      * apply elem_of_singleton in Hw as ->. by apply (HmE eq_refl o).
      * by apply (Hinv o used w).
    + rewrite lookup_insert_ne in He by done. by apply (Hinv o e w).
Qed.

Lemma init_used_days_empty teaching specs week_start nm s :
  used_days (init_state teaching specs week_start) !! nm = Some s → s = ∅.
Proof.
  cbn [init_state used_days]. intros H.
  apply elem_of_list_to_map_2, list_elem_of_fmap in H as (sp & [= _ ->] & _).
  reflexivity.
Qed.

Lemma placed_state_invariants teaching specs week_start st :
  placed_state teaching specs week_start = Some st →
  gym_spaced (gym_days st) ∧ mutex_ok (used_days st).
Proof.
  unfold placed_state.
  apply (place_tasks_ind
           (λ s, gym_spaced (gym_days s) ∧ mutex_ok (used_days s))).
  - intros nm hrs col s s' [Hg Hm] H. split.
    + by eapply place_occurrence_gym_spaced.
    + by eapply place_occurrence_mutex_ok.
  - split.
    + intros i j a b _ Ha. cbn [init_state gym_days] in Ha.
      by rewrite lookup_nil in Ha.
    + intros o e wd Ho _ Hwo.
      apply init_used_days_empty in Ho as ->. set_solver.
Qed.

(** ** Reading facts off the default week *)

Lemma pairwiseb_lookup {A} (r : A → A → bool) l :
  (∀ x y, r x y = r y x) → pairwiseb r l = true →
  ∀ (i j : nat) a b, i ≠ j → l !! i = Some a → l !! j = Some b → r a b = true.
Proof.
  intros Hsym. induction l as [|x l IH]; intros Hp i j a b Hij Ha Hb.
  - by rewrite lookup_nil in Ha.
  - cbn [pairwiseb] in Hp. apply andb_prop in Hp as [Hx Hl].
    rewrite forallb_forall in Hx.
    destruct i as [|i], j as [|j]; cbn in Ha, Hb; try done.
    + injection Ha as <-. by apply Hx, list_elem_of_In, list_elem_of_lookup_2 with j.
    + injection Hb as <-. rewrite Hsym.
      by apply Hx, list_elem_of_In, list_elem_of_lookup_2 with i.
    + apply (IH Hl i j); [lia|done..].
Qed.

Lemma shift_event_name k ev : name (shift_event k ev) = name ev.
Proof. reflexivity. Qed.

Lemma shift_event_kind k ev : kind (shift_event k ev) = kind ev.
Proof. reflexivity. Qed.

Lemma shift_event_start_date k ev :
  dt_date (start (shift_event k ev)) = dt_date (start ev) + k.
Proof. apply dt_date_shift. Qed.

Lemma shift_event_end_date k ev :
  dt_date (end_ (shift_event k ev)) = dt_date (end_ ev) + k.
Proof. apply dt_date_shift. Qed.

Lemma shift_event_start_time k ev :
  dt_time (start (shift_event k ev)) = dt_time (start ev).
Proof. apply dt_time_shift. Qed.

Lemma shift_event_end_time k ev :
  dt_time (end_ (shift_event k ev)) = dt_time (end_ ev).
Proof. apply dt_time_shift. Qed.

Lemma shift_event_overlaps k a b :
  overlaps (start (shift_event k a)) (end_ (shift_event k a))
           (start (shift_event k b)) (end_ (shift_event k b))
  = overlaps (start a) (end_ a) (start b) (end_ b).
Proof. apply overlaps_shift. Qed.

Lemma can_place_true evs s e :
  can_place evs s e = true ↔
  ∀ x, x ∈ evs →
    overlaps (s - BUFFER_MIN) (e + BUFFER_MIN) (start x) (end_ x) = false.
Proof.
  induction evs as [|ev evs IH]; cbn [can_place].
  - split; [intros _ x Hx; by apply elem_of_nil in Hx|done].
  - destruct (overlaps _ _ (start ev) (end_ ev)) eqn:Ho.
    + split; [done|]. intros H. rewrite <- Ho. symmetry.
      apply H, list_elem_of_here.
    + rewrite IH. split.
      * intros H x Hx. apply elem_of_cons in Hx as [->|Hx]; [done|by apply H].
      * intros H x Hx. by apply H, list_elem_of_further.
Qed.

Lemma week0_positive : Forall (λ ev, start ev < end_ ev) week0_schedule.
Proof. refine (bool_decide_unpack _ _). vm_compute. exact I. Qed.

Lemma week0_disjoint : pairwiseb disjointb week0_schedule = true.
Proof. vm_compute. reflexivity. Qed.

Lemma disjointb_sym a b : disjointb a b = disjointb b a.
Proof.
  unfold disjointb, overlaps. rewrite !Z.geb_leb. f_equal. f_equal.
  apply orb_comm.
Qed.

(** * The claims of the specification *)

(** C1.  In the list [build_events] returns, every event has [start < end]
    and no two events at different positions overlap; and in the order of
    placement every task event passed [can_place] against the events that
    were already in the list, that is, widened by [BUFFER_MIN] on both
    sides it overlaps none of them. *)
Theorem events_never_overlap (week_start : date) :
  ∃ st evs,
    placed_state TEACHING TASK_SPECS week_start = Some st ∧
    build_events week_start = Some evs ∧
    evs = sort_by_start (events st) ∧
    (∀ ev, ev ∈ evs → start ev < end_ ev) ∧
    (∀ (i j : nat) a b, i ≠ j → evs !! i = Some a → evs !! j = Some b →
       overlaps (start a) (end_ a) (start b) (end_ b) = false) ∧
    (∀ pre ev post, events st = pre ++ ev :: post → kind ev = "task" →
       can_place pre (start ev) (end_ ev) = true ∧
       ∀ x, x ∈ pre →
         overlaps (start ev - BUFFER_MIN) (end_ ev + BUFFER_MIN)
                  (start x) (end_ x) = false).
Proof.
  exists (shift_state week_start week0_state),
         (shift_event week_start <$> week0_schedule).
  split; [apply placed_state_closed|].
  split; [apply build_events_closed|].
  split; [cbn [shift_state events]; by rewrite sort_by_start_shift|].
  split; [|split].
  - intros ev Hev. apply list_elem_of_fmap in Hev as (ev0 & -> & Hev0).
    pose proof week0_positive as Hpos. rewrite Forall_forall in Hpos.
    specialize (Hpos ev0 Hev0). cbn [shift_event start end_].
    unfold shift_dt. lia.
  - intros i j a b Hij Ha Hb.
    apply list_lookup_fmap_Some in Ha as (a0 & -> & Ha).
    apply list_lookup_fmap_Some in Hb as (b0 & -> & Hb).
    rewrite shift_event_overlaps.
    pose proof (pairwiseb_lookup disjointb week0_schedule disjointb_sym
                  week0_disjoint i j a0 b0 Hij Ha Hb) as H.
    unfold disjointb in H. by apply negb_true_iff in H.
  - intros pre ev post Hsplit Hkind.
    pose proof (placed_state_respects_buffer _ _ _ _
                  (placed_state_closed week_start) pre ev post Hsplit Hkind)
      as Hcp.
    split; [exact Hcp|]. by apply can_place_true.
Qed.


(** In the default week the day counters add up to the number of task
    events: every placement of the shipped catalog was a counted one. *)
Lemma week0_every_placement_counted :
  foldr (λ wd acc, default 0 (tasks_per_day week0_state !! wd) + acc) 0 range7
  = Z.of_nat (length week0_tasks).
Proof. vm_compute. reflexivity. Qed.




Lemma gym_skip_false s e :
  gym_skip "Gym" s e = false →
  dt_date s = dt_date e ∧ time_leb (dt_time e) (mk_time 21 0) = true.
Proof.
  unfold gym_skip, time_leb. cbn [String.eqb Ascii.eqb Bool.eqb andb].
  intros H. apply orb_false_elim in H as [Hd Ht]. rewrite Ht.
  apply negb_false_iff, Z.eqb_eq in Hd. done.
Qed.

Lemma chessable_skip_false d s :
  chessable_skip "chessable/website tasks" d s = false →
  time_leb (mk_time 21 0) (dt_time s) = true ∧ dt_date s = d.
Proof.
  unfold chessable_skip, time_leb.
  replace (String.eqb "chessable/website tasks" "chessable/website tasks")
    with true by (symmetry; apply String.eqb_refl).
  cbn [andb]. intros H. apply orb_false_elim in H as [Ht Hd]. rewrite Ht.
  apply negb_false_iff, Z.eqb_eq in Hd. done.
Qed.

Lemma week0_gym_rule :
  Forall (λ ev, name ev = "Gym" →
            dt_date (start ev) = dt_date (end_ ev) ∧
            time_leb (dt_time (end_ ev)) (mk_time 21 0) = true ∧
            dt_date (start ev) ∈ gym_days week0_state)
         week0_schedule.
Proof. refine (bool_decide_unpack _ _). vm_compute. exact I. Qed.

Lemma week0_gym_apart : pairwiseb gym_apartb week0_schedule = true.
Proof. vm_compute. reflexivity. Qed.

Lemma gym_apartb_sym a b : gym_apartb a b = gym_apartb b a.
Proof.
  unfold gym_apartb. rewrite (andb_comm (String.eqb (name a) "Gym")).
  f_equal. f_equal. lia.
Qed.

(** C4.  Whenever the time-of-day search accepts a "Gym" candidate, the
    event ends on the day it starts, at or before 9 PM.  In the list
    [build_events] returns, every event called "Gym" does, and starts on one
    of the weekdays recorded in [gym_days]; two "Gym" events at different
    positions start on days at least 2 apart, and so are any two entries of
    [gym_days]. *)
Theorem gym_events_rule (week_start : date) :
  (∀ evs hrs col wd evs',
     try_place_task_on_day week_start evs "Gym" hrs col wd = (evs', true) →
     ∃ ev, evs' = evs ++ [ev] ∧ name ev = "Gym" ∧
       dt_date (start ev) = dt_date (end_ ev) ∧
       time_leb (dt_time (end_ ev)) (mk_time 21 0) = true) ∧
  ∃ st evs,
    placed_state TEACHING TASK_SPECS week_start = Some st ∧
    build_events week_start = Some evs ∧
    (∀ ev, ev ∈ evs → name ev = "Gym" →
       dt_date (start ev) = dt_date (end_ ev) ∧
       time_leb (dt_time (end_ ev)) (mk_time 21 0) = true ∧
       dt_date (start ev) - week_start ∈ gym_days st) ∧
    (∀ (i j : nat) a b, i ≠ j → evs !! i = Some a → evs !! j = Some b →
       name a = "Gym" → name b = "Gym" →
       2 ≤ Z.abs (dt_date (start a) - dt_date (start b))) ∧
    gym_spaced (gym_days st).
Proof.
  split.
  { intros evs hrs col wd evs' H.
    apply try_place_true in H as (s & _ & Hg & _ & _ & ->).
    apply gym_skip_false in Hg as [Hd Ht]. eexists. split; [reflexivity|].
    done. }
  exists (shift_state week_start week0_state),
         (shift_event week_start <$> week0_schedule).
  split; [apply placed_state_closed|].
  split; [apply build_events_closed|].
  split; [|split].
  - intros ev Hev Hname. apply list_elem_of_fmap in Hev as (ev0 & -> & Hev0).
    pose proof week0_gym_rule as Hrule. rewrite Forall_forall in Hrule.
    destruct (Hrule ev0 Hev0 Hname) as (Hd & Ht & Hin).
    rewrite shift_event_start_date, shift_event_end_date, shift_event_end_time.
    repeat split; [lia|done|].
    cbn [shift_state gym_days].
    by replace (dt_date (start ev0) + week_start - week_start)
      with (dt_date (start ev0)) by lia.
  - intros i j a b Hij Ha Hb Hna Hnb.
    apply list_lookup_fmap_Some in Ha as (a0 & -> & Ha).
    apply list_lookup_fmap_Some in Hb as (b0 & -> & Hb).
    rewrite !shift_event_start_date.
    pose proof (pairwiseb_lookup gym_apartb week0_schedule gym_apartb_sym
                  week0_gym_apart i j a0 b0 Hij Ha Hb) as H.
    unfold gym_apartb in H. rewrite shift_event_name in Hna, Hnb.
    rewrite Hna, Hnb in H. cbn in H. apply Z.leb_le in H. lia.
  - apply (placed_state_invariants TEACHING TASK_SPECS week_start).
    apply placed_state_closed.
Qed.

Lemma week0_chessable_rule :
  Forall (λ ev, name ev = "chessable/website tasks" →
            time_leb (mk_time 21 0) (dt_time (start ev)) = true ∧
            dt_date (start ev) ∈ ({[5; 6]} : gset Z))
         week0_schedule.
Proof. refine (bool_decide_unpack _ _). vm_compute. exact I. Qed.

(** C5.  Whenever the time-of-day search accepts a candidate for
    "chessable/website tasks" on weekday [wd], the event starts at or after
    9 PM on the date [week_start + wd] itself.  In the list [build_events]
    returns, every event of that name starts at or after 9 PM, on a weekday
    recorded for the task in [used_days]. *)
Theorem chessable_events_rule (week_start : date) :
  (∀ evs hrs col wd evs',
     try_place_task_on_day week_start evs "chessable/website tasks" hrs col wd
       = (evs', true) →
     ∃ ev, evs' = evs ++ [ev] ∧ name ev = "chessable/website tasks" ∧
       time_leb (mk_time 21 0) (dt_time (start ev)) = true ∧
       dt_date (start ev) = week_start + wd) ∧
  ∃ st evs used,
    placed_state TEACHING TASK_SPECS week_start = Some st ∧
    build_events week_start = Some evs ∧
    used_days st !! "chessable/website tasks" = Some used ∧
    ∀ ev, ev ∈ evs → name ev = "chessable/website tasks" →
      time_leb (mk_time 21 0) (dt_time (start ev)) = true ∧
      dt_date (start ev) - week_start ∈ used.
Proof.
  split.
  { intros evs hrs col wd evs' H.
    apply try_place_true in H as (s & _ & _ & Hc & _ & ->).
    apply chessable_skip_false in Hc as [Ht Hd]. eexists.
    split; [reflexivity|]. done. }
  exists (shift_state week_start week0_state),
         (shift_event week_start <$> week0_schedule), {[5; 6]}.
  split; [apply placed_state_closed|].
  split; [apply build_events_closed|].
  split; [by vm_compute|].
  intros ev Hev Hname. apply list_elem_of_fmap in Hev as (ev0 & -> & Hev0).
  pose proof week0_chessable_rule as Hrule. rewrite Forall_forall in Hrule.
  destruct (Hrule ev0 Hev0 Hname) as (Ht & Hin).
  rewrite shift_event_start_date, shift_event_start_time. split; [done|].
  by replace (dt_date (start ev0) + week_start - week_start)
    with (dt_date (start ev0)) by lia.
Qed.

(** ** Counting the task events *)

Lemma task_count_app nm l1 l2 :
  task_count nm (l1 ++ l2) = task_count nm l1 + task_count nm l2.
Proof. unfold task_count. rewrite List.filter_app, length_app. lia. Qed.

Lemma task_count_cons nm e l :
  task_count nm (e :: l)
  = (if is_task_named nm e then 1 else 0) + task_count nm l.
Proof.
  unfold task_count. cbn [List.filter].
  destruct (is_task_named nm e); cbn [length]; lia.
Qed.

Lemma task_count_insert nm e l :
  task_count nm (insert_by_start e l) = task_count nm (e :: l).
Proof.
  induction l as [|x l IH]; cbn [insert_by_start]; [done|].
  destruct (start e <=? start x); [done|].
  rewrite (task_count_cons nm x), IH, !task_count_cons. lia.
Qed.

Lemma task_count_sort nm l : task_count nm (sort_by_start l) = task_count nm l.
Proof.
  unfold sort_by_start. induction l as [|e l IH]; cbn [foldr]; [done|].
  by rewrite task_count_insert, !task_count_cons, IH.
Qed.

Lemma task_count_seed nm teaching week_start :
  task_count nm (seed_teaching teaching week_start) = 0.
Proof.
  assert (H : ∀ l, (∀ ev, ev ∈ l → kind ev = "teaching") → task_count nm l = 0).
  { induction l as [|e l IH]; intros Hk; [done|].
    rewrite task_count_cons, IH
      by (intros ev Hev; by apply Hk, list_elem_of_further).
    unfold is_task_named. rewrite (Hk e) by apply list_elem_of_here.
    cbn. by rewrite andb_false_r. }
  apply H. intros ev. apply seed_teaching_kind.
Qed.

(** One iteration of the occurrence loop appends at most one event, a task
    event under the name of its spec. *)
Lemma place_occurrence_count week_start nm hrs col st st' nm' :
  place_occurrence week_start nm hrs col st = Some st' →
  task_count nm' (events st')
  ≤ task_count nm' (events st) + (if String.eqb nm nm' then 1 else 0).
Proof.
  intros H. destruct (place_occurrence_cases _ _ _ _ _ _ H)
    as [->|(wd & counted & _ & Hrec & _)].
  - destruct (String.eqb nm nm'); lia.
  - destruct Hrec as (used & _ & Ht & _).
    apply try_place_true in Ht as (s & _ & _ & _ & _ & ->).
    rewrite task_count_app, task_count_cons. unfold is_task_named.
    cbn [name kind]. rewrite andb_true_r.
    change (task_count nm' []) with 0.
    destruct (String.eqb nm nm'); lia.
Qed.

Lemma place_occurrences_count week_start nm hrs col nm' n : ∀ st st',
  place_occurrences n week_start nm hrs col st = Some st' →
  task_count nm' (events st')
  ≤ task_count nm' (events st)
    + (if String.eqb nm nm' then Z.of_nat n else 0).
Proof.
  induction n as [|n IH]; intros st st'; cbn [place_occurrences].
  - intros [= <-]. destruct (String.eqb nm nm'); lia.
  - destruct (place_occurrence week_start nm hrs col st) as [st1|] eqn:H1;
      [|discriminate].
    cbn [mbind option_bind]. intros Hn. apply IH in Hn.
    apply (place_occurrence_count _ _ _ _ _ _ nm') in H1.
    destruct (String.eqb nm nm'); lia.
Qed.

Lemma place_tasks_count week_start nm' specs : ∀ st st',
  place_tasks week_start specs st = Some st' →
  task_count nm' (events st')
  ≤ task_count nm' (events st) + catalog_quota nm' specs.
Proof.
  induction specs as [|[[[nm hrs] count] col] specs IH]; intros st st';
    cbn [place_tasks catalog_quota].
  - intros [= <-]. lia.
  - destruct (place_occurrences _ week_start nm hrs col st) as [st1|] eqn:H1;
      [|discriminate].
    cbn [mbind option_bind]. intros Hn. apply IH in Hn.
    apply (place_occurrences_count _ _ _ _ nm') in H1. lia.
Qed.

Lemma build_events_from_count teaching specs week_start evs nm :
  build_events_from teaching specs week_start = Some evs →
  task_count nm evs ≤ catalog_quota nm specs.
Proof.
  unfold build_events_from, placed_state.
  destruct (place_tasks _ _ _) as [st|] eqn:Hst; [|discriminate].
  cbn [mbind option_bind]. intros [= <-]. rewrite task_count_sort.
  apply (place_tasks_count _ nm) in Hst.
  cbn [init_state events] in Hst. rewrite task_count_seed in Hst. lia.
Qed.

(** C10.  For every spec of the catalog, the list [build_events] returns
    holds at most [occurrences] task events under the spec's name: an
    iteration of the occurrence loop appends at most one. *)
Theorem occurrences_never_exceeded (week_start : date) :
  ∃ evs, build_events week_start = Some evs ∧
    ∀ nm hrs count col, (nm, hrs, count, col) ∈ TASK_SPECS →
      task_count nm evs ≤ count.
Proof.
  destruct (build_events_from_total TEACHING TASK_SPECS week_start)
    as [evs Hevs].
  exists evs. split; [exact Hevs|].
  intros nm hrs count col Hin.
  pose proof (build_events_from_count _ _ _ _ nm Hevs) as Hle.
  unfold TASK_SPECS in Hin.
  repeat (apply elem_of_cons in Hin as [[= -> -> -> ->]|Hin];
          [vm_compute in Hle |- *; exact Hle|]).
  by apply elem_of_nil in Hin.
Qed.

Lemma week0_study_apart : pairwiseb study_apartb week0_schedule = true.
Proof. vm_compute. reflexivity. Qed.

Lemma study_apartb_sym a b : study_apartb a b = study_apartb b a.
Proof.
  unfold study_apartb. rewrite (Z.eqb_sym (dt_date (start a))).
  destruct (String.eqb (name a) "Opening Study"),
    (String.eqb (name b) "Endgame Study"),
    (String.eqb (name a) "Endgame Study"),
    (String.eqb (name b) "Opening Study"); reflexivity.
Qed.

(** C6.  A placement of "Opening Study" (in either pass) is on a weekday
    "Endgame Study" has not used, and the other way round; so the weekdays
    the two tasks have used stay disjoint through every occurrence, and are
    disjoint when the loops end.  In the list [build_events] returns, no
    "Opening Study" event starts on the date an "Endgame Study" event
    starts on. *)
Theorem opening_endgame_days_disjoint (week_start : date) :
  (∀ nm hrs col st st',
     place_occurrence week_start nm hrs col st = Some st' →
     st' = st ∨
     ∃ wd counted, recorded counted week_start nm hrs col st st' wd ∧
       (nm = "Opening Study" →
        ∀ e, used_days st !! "Endgame Study" = Some e → wd ∉ e) ∧
       (nm = "Endgame Study" →
        ∀ o, used_days st !! "Opening Study" = Some o → wd ∉ o)) ∧
  (∀ nm hrs col st st',
     mutex_ok (used_days st) →
     place_occurrence week_start nm hrs col st = Some st' →
     mutex_ok (used_days st')) ∧
  ∃ st evs,
    placed_state TEACHING TASK_SPECS week_start = Some st ∧
    build_events week_start = Some evs ∧
    mutex_ok (used_days st) ∧
    ∀ a b, a ∈ evs → b ∈ evs →
      name a = "Opening Study" → name b = "Endgame Study" →
      dt_date (start a) ≠ dt_date (start b).
Proof.
  split; [|split].
  - intros nm hrs col st st' H.
    destruct (place_occurrence_cases _ _ _ _ _ _ H)
      as [->|(wd & counted & _ & Hrec & _ & _ & Hm & _)]; [by left|right].
    exists wd, counted. split; [exact Hrec|]. by apply mutex_skip_false.
  - intros nm hrs col st st'. apply place_occurrence_mutex_ok.
  - exists (shift_state week_start week0_state),
           (shift_event week_start <$> week0_schedule).
    split; [apply placed_state_closed|].
    split; [apply build_events_closed|].
    split.
    + apply (placed_state_invariants TEACHING TASK_SPECS week_start).
      apply placed_state_closed.
    + intros a b Ha Hb Hna Hnb.
      apply list_elem_of_lookup_1 in Ha as [i Ha].
      apply list_elem_of_lookup_1 in Hb as [j Hb].
      destruct (decide (i = j)) as [->|Hij]; [congruence|].
      apply list_lookup_fmap_Some in Ha as (a0 & -> & Ha).
      apply list_lookup_fmap_Some in Hb as (b0 & -> & Hb).
      rewrite !shift_event_start_date.
      pose proof (pairwiseb_lookup study_apartb week0_schedule
                    study_apartb_sym week0_study_apart i j a0 b0 Hij Ha Hb)
        as H.
      unfold study_apartb in H. rewrite shift_event_name in Hna, Hnb.
      rewrite Hna, Hnb in H. cbn in H.
      apply negb_true_iff, Z.eqb_neq in H. lia.
Qed.

(** ** The manual override *)

Lemma pin_my_system_cases mon evs :
  (Forall (λ ev, is_monday_my_system mon ev = false) evs ∧
   pin_my_system mon (combine mon (mk_time 13 0)) (combine mon (mk_time 14 0))
                 evs = evs) ∨
  (∃ pre ev post,
     evs = pre ++ ev :: post ∧
     Forall (λ x, is_monday_my_system mon x = false) pre ∧
     is_monday_my_system mon ev = true ∧
     pin_my_system mon (combine mon (mk_time 13 0)) (combine mon (mk_time 14 0))
                   evs = pre ++ pinned mon ev :: post).
Proof.
  induction evs as [|x evs IH]; [left; by split|].
  cbn [pin_my_system]. destruct (is_monday_my_system mon x) eqn:Hx.
  - right. exists [], x, evs. repeat split; done.
  - destruct IH as [[Hall ->]|(pre & ev & post & -> & Hpre & Hev & ->)].
    + left. split; [by constructor|done].
    + right. exists (x :: pre), ev, post. repeat split; try done.
      by constructor.
Qed.

(** C7.  The override loop either finds no "My System" event starting on
    the week's Monday and returns the list as it is, or rewrites the first
    such event, and that one only, to Monday 1 PM-2 PM, keeping its name,
    color and kind; the sort that follows only reorders the list, and on a
    list without such an event that was in order it changes nothing. *)
Theorem manual_override_frame (week_start : date) (evs : list Event) :
  let new_start := combine week_start (mk_time 13 0) in
  let new_end := combine week_start (mk_time 14 0) in
  manual_override week_start evs
    ≡ₚ pin_my_system week_start new_start new_end evs ∧
  ((Forall (λ ev, is_monday_my_system week_start ev = false) evs ∧
    pin_my_system week_start new_start new_end evs = evs ∧
    (sorted_by_start evs → manual_override week_start evs = evs))
   ∨
   (∃ pre ev post ev',
      evs = pre ++ ev :: post ∧
      Forall (λ x, is_monday_my_system week_start x = false) pre ∧
      name ev = "My System" ∧ dt_date (start ev) = week_start ∧
      pin_my_system week_start new_start new_end evs = pre ++ ev' :: post ∧
      start ev' = new_start ∧ end_ ev' = new_end ∧
      name ev' = name ev ∧ color ev' = color ev ∧ kind ev' = kind ev)).
Proof.
  cbv zeta. split; [apply sort_by_start_perm|].
  destruct (pin_my_system_cases week_start evs)
    as [[Hall Hpin]|(pre & ev & post & Hevs & Hpre & Hev & Hpin)].
  - left. split; [done|]. split; [done|].
    intros Hs. unfold manual_override. cbv zeta. rewrite Hpin.
    by apply sort_by_start_id.
  - right. exists pre, ev, post, (pinned week_start ev).
    unfold is_monday_my_system in Hev.
    apply andb_prop in Hev as [Hn Hd].
    apply String.eqb_eq in Hn. apply Z.eqb_eq in Hd.
    repeat split; done.
Qed.

(** C8.  The list [build_events] returns is in ascending order of start,
    and so is the list after the manual override, which is the list the
    renderer and the exporter receive. *)
Theorem consumers_receive_sorted_events :
  (∀ week_start, ∃ evs,
     build_events week_start = Some evs ∧
     sorted_by_start evs ∧
     sorted_by_start (manual_override week_start evs)) ∧
  (∀ today, ∃ evs out,
     build_events (start_of_week_monday today) = Some evs ∧
     ui_events today = Some out ∧
     out = manual_override (start_of_week_monday today) evs ∧
     sorted_by_start out).
Proof.
  assert (Hb : ∀ week_start, ∃ evs,
             build_events week_start = Some evs ∧ sorted_by_start evs).
  { intros week_start. unfold build_events, build_events_from.
    rewrite placed_state_closed. cbn [mbind option_bind].
    eexists. split; [reflexivity|]. apply sort_by_start_sorted. }
  split.
  - intros week_start. destruct (Hb week_start) as (evs & He & Hs).
    exists evs. repeat split; [done..|]. apply sort_by_start_sorted.
  - intros today.
    destruct (Hb (start_of_week_monday today)) as (evs & He & Hs).
    exists evs, (manual_override (start_of_week_monday today) evs).
    split; [done|]. split; [|split; [done|]].
    + unfold ui_events. cbv zeta. by rewrite He.
    + apply sort_by_start_sorted.
Qed.



(** * Further properties of the code *)

(** ** Time helpers *)

Lemma minutes_of_dt_time dt :
  minutes_since_midnight (dt_time dt) = dt mod 1440.
Proof.
  unfold minutes_since_midnight, dt_time. cbn [hour minute].
  pose proof (Z.mod_pos_bound dt 1440 ltac:(lia)) as Hb.
  pose proof (Z.div_mod (dt mod 1440) 60 ltac:(lia)) as Hd.
  assert ((dt mod 1440) mod 60 = dt mod 60) as Hm.
  { apply Z.mod_mod_divide. by exists 24. }
  lia.
Qed.

Lemma combine_date_time dt : combine (dt_date dt) (dt_time dt) = dt.
Proof.
  unfold combine. rewrite minutes_of_dt_time. unfold dt_date.
  pose proof (Z.div_mod dt 1440 ltac:(lia)). lia.
Qed.

Lemma snap_15_floor dt : snap_15 dt = dt - dt mod 15.
Proof.
  unfold snap_15, combine, minutes_since_midnight, dt_time, dt_date.
  cbn [hour minute].
  pose proof (Z.div_mod dt 1440 ltac:(lia)) as H1.
  pose proof (Z.div_mod (dt mod 1440) 60 ltac:(lia)) as H2.
  pose proof (Z.div_mod (dt mod 60) 15 ltac:(lia)) as H3.
  assert ((dt mod 1440) mod 60 = dt mod 60) as Hm.
  { apply Z.mod_mod_divide. by exists 24. }
  assert ((dt mod 60) mod 15 = dt mod 15) as Hq.
  { apply Z.mod_mod_divide. by exists 4. }
  lia.
Qed.

Lemma snap_15_rounds_down_grid dt : (snap_15 dt) mod 15 = 0.
Proof.
  rewrite snap_15_floor.
  replace (dt - dt mod 15) with (dt / 15 * 15)
    by (pose proof (Z.div_mod dt 15 ltac:(lia)); lia).
  apply Z.mod_mul. lia.
Qed.

(** X1.  [snap_15] rounds a timestamp down to the quarter hour: the result
    is on the 15-minute grid, at most 14 minutes before the argument, on the
    same date, and snapping again changes nothing. *)
Theorem snap_15_rounds_down (dt : datetime) :
  (snap_15 dt) mod 15 = 0 ∧
  snap_15 dt ≤ dt < snap_15 dt + 15 ∧
  dt_date (snap_15 dt) = dt_date dt ∧
  minute (dt_time (snap_15 dt)) mod 15 = 0 ∧
  snap_15 (snap_15 dt) = snap_15 dt.
Proof.
  pose proof (snap_15_rounds_down_grid dt) as Ha.
  pose proof (Z.mod_pos_bound dt 15 ltac:(lia)) as Hb.
  split; [exact Ha|]. split; [rewrite snap_15_floor; lia|].
  split; [|split].
  - rewrite snap_15_floor. unfold dt_date.
    pose proof (Z.div_mod dt 1440 ltac:(lia)) as Hd.
    pose proof (Z.mod_pos_bound dt 1440 ltac:(lia)) as Hr.
    pose proof (Z.mod_pos_bound (dt mod 1440) 15 ltac:(lia)) as Hr'.
    pose proof (Z.mod_le (dt mod 1440) 15 ltac:(lia) ltac:(lia)) as Hle.
    assert ((dt mod 1440) mod 15 = dt mod 15) as Hm
      by (apply Z.mod_mod_divide; by exists 96).
    symmetry.
    apply (Z.div_unique _ _ _ (dt mod 1440 - (dt mod 1440) mod 15)); lia.
  - unfold dt_time. cbn [minute].
    rewrite Z.mod_mod_divide by (by exists 4). exact Ha.
  - rewrite (snap_15_floor (snap_15 dt)), Ha. lia.
Qed.

(** X2.  [start_of_week_monday d] is a Monday, it is the last one not after
    [d], every date of that week is sent to it, and on a Monday the function
    changes nothing. *)
Theorem start_of_week_monday_is_monday (d : date) :
  weekday (start_of_week_monday d) = 0 ∧
  start_of_week_monday d ≤ d ≤ start_of_week_monday d + 6 ∧
  (∀ d', start_of_week_monday d ≤ d' ≤ start_of_week_monday d + 6 →
         start_of_week_monday d' = start_of_week_monday d) ∧
  (weekday d = 0 → start_of_week_monday d = d).
Proof.
  unfold start_of_week_monday, weekday.
  pose proof (Z.mod_pos_bound (d + 6) 7 ltac:(lia)) as Hb.
  pose proof (Z.div_mod (d + 6) 7 ltac:(lia)) as Hd.
  assert (Hmon : (d - (d + 6) mod 7 + 6) mod 7 = 0).
  { replace (d - (d + 6) mod 7 + 6) with ((d + 6) / 7 * 7) by lia.
    apply Z.mod_mul. lia. }
  split; [exact Hmon|]. split; [lia|]. split; [|lia].
  intros d' Hd'.
  assert ((d' + 6) mod 7 = d' - (d - (d + 6) mod 7)); [|lia].
  symmetry. apply (Z.mod_unique _ _ ((d + 6) / 7)); lia.
Qed.

(** X3.  On two non-empty half-open intervals [overlaps] holds exactly when
    some instant lies in both; the test is symmetric; and moving one
    interval so that it ends where the other starts is not an overlap. *)
Theorem overlaps_shares_an_instant (a_start a_end b_start b_end : datetime) :
  a_start < a_end → b_start < b_end →
  (overlaps a_start a_end b_start b_end = true ↔
   ∃ t, a_start ≤ t < a_end ∧ b_start ≤ t < b_end) ∧
  overlaps a_start a_end b_start b_end = overlaps b_start b_end a_start a_end ∧
  overlaps a_start a_end a_end (a_end + (b_end - b_start)) = false.
Proof.
  intros Ha Hb. unfold overlaps. rewrite !Z.geb_leb. split; [|split].
  - rewrite negb_true_iff, orb_false_iff, !Z.leb_gt. split.
    + intros [H1 H2]. exists (Z.max a_start b_start). lia.
    + intros (t & H1 & H2). lia.
  - rewrite orb_comm. reflexivity.
  - rewrite Z.leb_refl. reflexivity.
Qed.

Lemma overlaps_shares_an_instant_witness :
  (overlaps 0 10 5 15 = true ↔ ∃ t, 0 ≤ t < 10 ∧ 5 ≤ t < 15) ∧
  overlaps 0 10 5 15 = overlaps 5 15 0 10 ∧
  overlaps 0 10 10 (10 + (15 - 5)) = false.
Proof. apply overlaps_shares_an_instant; lia. Defined.

Lemma can_place_gap evs s e :
  can_place evs s e = true ↔
  ∀ x, x ∈ evs → e + BUFFER_MIN ≤ start x ∨ end_ x ≤ s - BUFFER_MIN.
Proof.
  rewrite can_place_true. unfold overlaps.
  split; intros H x Hx; specialize (H x Hx).
  - rewrite negb_false_iff, orb_true_iff, Z.geb_leb, !Z.leb_le in H. lia.
  - rewrite negb_false_iff, orb_true_iff, Z.geb_leb, !Z.leb_le. lia.
Qed.

(** X4.  [can_place] accepts a slot exactly when every event of the list
    ends at least [BUFFER_MIN] minutes before the slot starts or starts at
    least [BUFFER_MIN] minutes after it ends.  So the answer does not depend
    on the order of the list, a slot accepted against a list is accepted
    against any part of it, and the empty list accepts every slot. *)
Theorem can_place_keeps_buffer (evs : list Event) (s e : datetime) :
  (can_place evs s e = true ↔
   ∀ x, x ∈ evs → e + BUFFER_MIN ≤ start x ∨ end_ x + BUFFER_MIN ≤ s) ∧
  (∀ evs', evs ≡ₚ evs' → can_place evs' s e = can_place evs s e) ∧
  (∀ l1 l2, evs = l1 ++ l2 →
     can_place evs s e = can_place l1 s e && can_place l2 s e) ∧
  can_place [] s e = true.
Proof.
  split; [|split; [|split]].
  - rewrite can_place_gap. split; intros H x Hx; specialize (H x Hx); lia.
  - intros evs' Hp.
    destruct (can_place evs s e) eqn:H1, (can_place evs' s e) eqn:H2;
      try reflexivity; exfalso.
    + rewrite can_place_gap in H1. apply not_true_iff_false in H2.
      apply H2, can_place_gap. intros x Hx. apply H1. by rewrite Hp.
    + rewrite can_place_gap in H2. apply not_true_iff_false in H1.
      apply H1, can_place_gap. intros x Hx. apply H2. by rewrite <- Hp.
  - intros l1 l2 ->. induction l1 as [|x l1 IH]; [reflexivity|].
    cbn [app can_place]. destruct (overlaps _ _ _ _); [reflexivity|exact IH].
  - reflexivity.
Qed.

(** ** The candidate starts of a day *)

Lemma scan_loop_elem dur wend s n : ∀ cur l,
  scan_loop n cur dur wend = Some l →
  (s ∈ l ↔ ∃ k, 0 ≤ k ∧ s = cur + 15 * k ∧ s + dur ≤ wend).
Proof.
  induction n as [|n IH]; intros cur l; cbn [scan_loop];
    destruct (Z.leb_spec (cur + dur) wend) as [Hle|Hgt]; try discriminate.
  - intros [= <-]. split; [by intros ?%elem_of_nil|]. intros (k & ? & ? & ?). lia.
  - destruct (scan_loop n (cur + 15) dur wend) as [l'|] eqn:Hl; [|discriminate].
    cbn. intros [= <-]. rewrite elem_of_cons, (IH _ _ Hl). split.
    + intros [->|(k & Hk & -> & Hs)]; [exists 0; lia|exists (k + 1); lia].
    + intros (k & Hk & -> & Hs). destruct (decide (k = 0)) as [->|]; [left; lia|].
      right. exists (k - 1). lia.
  - intros [= <-]. split; [by intros ?%elem_of_nil|]. intros (k & ? & ? & ?). lia.
Qed.

Lemma full_scan_elem cur dur wend s :
  s ∈ full_scan cur dur wend ↔
  ∃ k, 0 ≤ k ∧ s = cur + 15 * k ∧ s + dur ≤ wend.
Proof.
  unfold full_scan.
  destruct (scan_loop_enough dur wend (scan_fuel cur dur wend) cur) as [l Hl];
    [unfold scan_fuel; lia|].
  rewrite Hl. cbn [default from_option id]. by apply (scan_loop_elem _ _ _ _ _ _ Hl).
Qed.

Lemma dedupe_elem l : ∀ (seen : gset Z) x,
  x ∈ dedupe seen l ↔ x ∈ l ∧ x ∉ seen.
Proof.
  induction l as [|c l IH]; intros seen x; cbn [dedupe].
  - split; [by intros ?%elem_of_nil|by intros [?%elem_of_nil _]].
  - destruct (bool_decide (c ∈ seen)) eqn:Hc.
    + apply bool_decide_eq_true in Hc. rewrite IH, elem_of_cons.
      split; [intros [? ?]; auto|]. intros [[->|?] ?]; [done|auto].
    + apply bool_decide_eq_false in Hc. rewrite !elem_of_cons, IH.
      rewrite elem_of_union, elem_of_singleton. split.
      * intros [->|[? ?]]; [auto|]. split; [auto|]. tauto.
      * intros [[->|?] ?]; [auto|].
        destruct (decide (x = c)) as [->|]; [auto|]. right. tauto.
Qed.

Lemma dedupe_NoDup l : ∀ seen : gset Z, NoDup (dedupe seen l).
Proof.
  induction l as [|c l IH]; intros seen; cbn [dedupe]; [constructor|].
  destruct (bool_decide (c ∈ seen)); [apply IH|].
  constructor; [|apply IH]. rewrite dedupe_elem. intros [_ Hn].
  apply Hn, elem_of_union. left. by apply elem_of_singleton.
Qed.

Lemma dedupe_sublist l : ∀ seen : gset Z, sublist (dedupe seen l) l.
Proof.
  induction l as [|c l IH]; intros seen; cbn [dedupe]; [constructor|].
  destruct (bool_decide (c ∈ seen)).
  - apply sublist_cons, IH.
  - apply sublist_skip, IH.
Qed.

Lemma dedupe_app l1 : ∀ (seen : gset Z) l2,
  dedupe seen (l1 ++ l2)
  = dedupe seen l1 ++ dedupe (list_to_set l1 ∪ seen) l2.
Proof.
  induction l1 as [|c l1 IH]; intros seen l2; cbn [app dedupe list_to_set].
  - by rewrite (left_id_L ∅ (∪)).
  - destruct (bool_decide (c ∈ seen)) eqn:Hc.
    + apply bool_decide_eq_true in Hc. rewrite IH. do 2 f_equal.
      apply set_eq. intros x. rewrite !elem_of_union, elem_of_singleton.
      split; [tauto|]. intros [[->|?]|?]; tauto.
    + rewrite IH. cbn [app]. do 3 f_equal.
      apply set_eq. intros x. rewrite !elem_of_union, elem_of_singleton.
      tauto.
Qed.

Lemma dedupe_id l : ∀ seen : gset Z,
  NoDup l → (∀ x, x ∈ l → x ∉ seen) → dedupe seen l = l.
Proof.
  induction l as [|c l IH]; intros seen Hnd Hs; [reflexivity|].
  cbn [dedupe]. apply NoDup_cons in Hnd as [Hc Hnd].
  rewrite bool_decide_eq_false_2 by (apply Hs, list_elem_of_here).
  f_equal. apply IH; [done|]. intros x Hx.
  rewrite elem_of_union, elem_of_singleton. intros [->|Hin]; [done|].
  by apply (Hs x); [apply list_elem_of_further|].
Qed.

(** X5.  The de-duplication keeps exactly the first occurrence of every
    candidate: its result has no repetition, holds the same values, keeps
    their order, starts with the de-duplicated first part of the list, and
    is the list itself when there was nothing to remove. *)
Theorem dedupe_keeps_first (l : list datetime) :
  NoDup (dedupe ∅ l) ∧
  (∀ x, x ∈ dedupe ∅ l ↔ x ∈ l) ∧
  sublist (dedupe ∅ l) l ∧
  (∀ l1 l2, l = l1 ++ l2 →
     dedupe ∅ l = dedupe ∅ l1 ++ dedupe (list_to_set l1) l2) ∧
  (NoDup l → dedupe ∅ l = l).
Proof.
  split; [apply dedupe_NoDup|]. split; [|split; [apply dedupe_sublist|split]].
  - intros x. rewrite dedupe_elem. split; [tauto|]. intros Hx.
    split; [done|apply not_elem_of_empty].
  - intros l1 l2 ->. rewrite dedupe_app. by rewrite (right_id_L ∅ (∪)).
  - intros Hnd. apply dedupe_id; [done|]. intros x _. apply not_elem_of_empty.
Qed.

Lemma day_window_minutes d :
  day_window d = (d * 1440 + 780, d * 1440 + 1560).
Proof.
  unfold day_window, combine, minutes_since_midnight, WINDOW_START,
    WINDOW_END_NEXTDAY.
  cbn [hour minute]. f_equal; lia.
Qed.

Lemma preferred_candidates_elem d wstart wend dur s :
  s ∈ preferred_candidates d wstart wend dur →
  wstart ≤ s ∧ s + dur ≤ wend ∧ s mod 15 = 0.
Proof.
  unfold preferred_candidates. intros H.
  apply list_elem_of_In, in_flat_map in H as (t & _ & H). cbv zeta in H.
  destruct (Z.leb_spec wstart (snap_15 (combine
              (if time_leb WINDOW_START t then d else d + 1) t))) as [H1|];
    [|by destruct H].
  destruct (Z.leb_spec (snap_15 (combine
              (if time_leb WINDOW_START t then d else d + 1) t) + dur) wend)
    as [H2|]; [|by destruct H].
  cbn in H. destruct H as [<-|[]]. repeat split; [done..|].
  apply snap_15_rounds_down_grid.
Qed.

Lemma candidates_of_day_elem d dur s :
  s ∈ candidates_of_day d dur ↔ in_window d dur s.
Proof.
  unfold candidates_of_day, in_window. rewrite day_window_minutes.
  cbn [fst snd]. rewrite dedupe_elem, elem_of_app.
  assert (Hw : snap_15 (d * 1440 + 780) = d * 1440 + 780).
  { rewrite snap_15_floor.
    replace (d * 1440 + 780) with ((d * 96 + 52) * 15) by lia.
    rewrite Z.mod_mul; lia. }
  rewrite Hw, full_scan_elem. split.
  - intros [[Hp|(k & Hk & -> & Hs)] _].
    + by apply preferred_candidates_elem in Hp.
    + repeat split; [lia..|].
      replace (d * 1440 + 780 + 15 * k) with ((d * 96 + 52 + k) * 15) by lia.
      apply Z.mod_mul. lia.
  - intros (H1 & H2 & H3). split; [|apply not_elem_of_empty]. right.
    exists ((s - (d * 1440 + 780)) / 15).
    pose proof (Z.div_mod s 15 ltac:(lia)) as Hd.
    assert (s - (d * 1440 + 780) = (s / 15 - (d * 96 + 52)) * 15) as Hq by lia.
    rewrite Hq, Z.div_mul by lia. lia.
Qed.

Lemma candidates_of_day_NoDup d dur : NoDup (candidates_of_day d dur).
Proof.
  unfold candidates_of_day. destruct (day_window d). apply dedupe_NoDup.
Qed.

Lemma candidates_of_day_head d dur :
  dur ≤ 240 →
  ∃ rest, candidates_of_day d dur = combine d (mk_time 22 0) :: rest.
Proof.
  intros Hdur. unfold candidates_of_day. rewrite day_window_minutes.
  unfold preferred_candidates, preferred_start_times. cbn [flat_map].
  change (time_leb WINDOW_START (mk_time 22 0)) with true. cbv iota.
  assert (Hs : snap_15 (combine d (mk_time 22 0)) = d * 1440 + 1320).
  { rewrite snap_15_floor. unfold combine, minutes_since_midnight.
    cbn [hour minute].
    replace (d * 1440 + (22 * 60 + 0)) with ((d * 96 + 88) * 15) by lia.
    rewrite Z.mod_mul; lia. }
  rewrite Hs.
  destruct (Z.leb_spec (d * 1440 + 780) (d * 1440 + 1320)); [|lia].
  destruct (Z.leb_spec (d * 1440 + 1320 + dur) (d * 1440 + 1560)); [|lia].
  cbn [andb app dedupe].
  rewrite bool_decide_eq_false_2 by apply not_elem_of_empty.
  eexists. reflexivity.
Qed.

(** X6.  The candidate starts of a day are exactly the instants on the
    quarter-hour grid from which the duration fits between 1 PM of the day
    and 2 AM of the next, each listed once; and for a task of at most four
    hours the first of them is 10 PM. *)
Theorem candidates_cover_the_window (d : date) (dur : Z) :
  (∀ s, s ∈ candidates_of_day d dur ↔
        combine d WINDOW_START ≤ s ∧
        s + dur ≤ combine (d + 1) WINDOW_END_NEXTDAY ∧
        s mod 15 = 0) ∧
  NoDup (candidates_of_day d dur) ∧
  (dur ≤ 240 →
   ∃ rest, candidates_of_day d dur = combine d (mk_time 22 0) :: rest).
Proof.
  split; [|split].
  - intros s. apply candidates_of_day_elem.
  - apply candidates_of_day_NoDup.
  - apply candidates_of_day_head.
Qed.

(** ** First fit *)

Lemma feasible_false nm d dur evs s :
  feasible nm d dur evs s = false ↔
  gym_skip nm s (s + dur) = true ∨ chessable_skip nm d s = true ∨
  can_place evs s (s + dur) = false.
Proof.
  unfold feasible.
  destruct (gym_skip _ _ _), (chessable_skip _ _ _), (can_place _ _ _);
    cbn; intuition discriminate.
Qed.

Lemma first_fit_none nm col d dur evs uniq :
  (∀ s, s ∈ uniq → feasible nm d dur evs s = false) →
  first_fit nm col d dur evs uniq = (evs, false).
Proof.
  induction uniq as [|s uniq IH]; intros H; [reflexivity|].
  cbn [first_fit]. cbv zeta.
  assert (IH' := IH (λ s' Hs', H s' (list_elem_of_further _ _ _ Hs'))).
  pose proof (H s (list_elem_of_here _ _)) as Hs. unfold feasible in Hs.
  destruct (gym_skip _ _ _); [exact IH'|].
  destruct (chessable_skip _ _ _); [exact IH'|].
  destruct (can_place _ _ _); [discriminate|exact IH'].
Qed.

Lemma first_fit_first nm col d dur evs uniq evs' :
  first_fit nm col d dur evs uniq = (evs', true) →
  ∃ pre s post, uniq = pre ++ s :: post ∧
    (∀ s', s' ∈ pre → feasible nm d dur evs s' = false) ∧
    feasible nm d dur evs s = true ∧
    evs' = evs ++ [mk_Event nm s (s + dur) col "task"].
Proof.
  induction uniq as [|s uniq IH]; cbn [first_fit]; [discriminate|].
  cbv zeta. intros H.
  assert (Hrec : feasible nm d dur evs s = false →
    first_fit nm col d dur evs uniq = (evs', true) →
    ∃ pre s0 post, s :: uniq = pre ++ s0 :: post ∧
      (∀ s', s' ∈ pre → feasible nm d dur evs s' = false) ∧
      feasible nm d dur evs s0 = true ∧
      evs' = evs ++ [mk_Event nm s0 (s0 + dur) col "task"]).
  { intros Hs H'. destruct (IH H') as (pre & s0 & post & -> & Hpre & Hs0 & ->).
    exists (s :: pre), s0, post. repeat split; try done.
    intros s' [->|Hs']%elem_of_cons; [done|by apply Hpre]. }
  destruct (gym_skip nm s (s + dur)) eqn:Hg;
    [apply Hrec; [unfold feasible; by rewrite Hg|done]|].
  destruct (chessable_skip nm d s) eqn:Hc;
    [apply Hrec; [unfold feasible; by rewrite Hg, Hc|done]|].
  destruct (can_place evs s (s + dur)) eqn:Hp;
    [|apply Hrec; [unfold feasible; by rewrite Hg, Hc, Hp|done]].
  exists [], s, uniq. split; [done|]. split; [by intros s' ?%elem_of_nil|].
  split; [unfold feasible; by rewrite Hg, Hc, Hp|]. by injection H as <-.
Qed.

Lemma first_fit_false_all nm col d dur evs uniq evs' :
  first_fit nm col d dur evs uniq = (evs', false) →
  ∀ s, s ∈ uniq → feasible nm d dur evs s = false.
Proof.
  induction uniq as [|s uniq IH]; cbn [first_fit];
    [by intros _ s ?%elem_of_nil|].
  cbv zeta. intros H s' [->|Hs']%elem_of_cons.
  - unfold feasible. destruct (gym_skip _ _ _); [done|].
    destruct (chessable_skip _ _ _); [done|].
    by destruct (can_place _ _ _).
  - destruct (gym_skip nm s (s + dur)); [by apply IH|].
    destruct (chessable_skip nm d s); [by apply IH|].
    destruct (can_place evs s (s + dur)); [discriminate|by apply IH].
Qed.

(** X7.  The time-of-day search is a first fit over the whole grid of the
    day: it succeeds exactly when some quarter-hour start in the window
    passes the task-specific rules and [can_place]; it then appends one task
    event, at the first such start in candidate order; and when it fails it
    returns the event list untouched. *)
Theorem try_place_is_first_fit
    (week_start : date) (evs : list Event) (nm : string) (hrs : Q)
    (col : string) (wd : Z) :
  ((try_place_task_on_day week_start evs nm hrs col wd).2 = true ↔
   ∃ s, in_window (week_start + wd) (dur_minutes hrs) s ∧
        feasible nm (week_start + wd) (dur_minutes hrs) evs s = true) ∧
  ((try_place_task_on_day week_start evs nm hrs col wd).2 = false →
   (try_place_task_on_day week_start evs nm hrs col wd).1 = evs) ∧
  (∀ evs', try_place_task_on_day week_start evs nm hrs col wd = (evs', true) →
     ∃ pre s post,
       candidates_of_day (week_start + wd) (dur_minutes hrs)
         = pre ++ s :: post ∧
       (∀ s', s' ∈ pre →
              feasible nm (week_start + wd) (dur_minutes hrs) evs s' = false) ∧
       feasible nm (week_start + wd) (dur_minutes hrs) evs s = true ∧
       evs' = evs ++ [mk_Event nm s (s + dur_minutes hrs) col "task"]).
Proof.
  unfold try_place_task_on_day. cbv zeta.
  set (d := week_start + wd). set (dur := dur_minutes hrs).
  destruct (first_fit nm col d dur evs (candidates_of_day d dur))
    as [evs1 ok] eqn:Hf.
  cbn [fst snd]. split; [|split].
  - split.
    + intros ->. destruct (first_fit_first _ _ _ _ _ _ _ Hf)
        as (pre & s & post & Hc & _ & Hs & _).
      exists s. split; [|done]. apply candidates_of_day_elem. rewrite Hc.
      apply elem_of_app. right. apply list_elem_of_here.
    + intros (s & Hw & Hs). destruct ok; [done|]. exfalso.
      apply candidates_of_day_elem in Hw.
      rewrite (first_fit_false_all _ _ _ _ _ _ _ Hf s Hw) in Hs. discriminate.
  - intros ->. by apply first_fit_false in Hf.
  - intros evs' [= <- ->]. by apply first_fit_first.
Qed.

(** ** What the event list is made of *)

Lemma place_tasks_ind_specs (P : State → Prop) week_start
    (catalog : list TaskSpec) :
  (∀ nm hrs count col st st',
     (nm, hrs, count, col) ∈ catalog → P st →
     place_occurrence week_start nm hrs col st = Some st' → P st') →
  ∀ specs st st',
    (∀ sp, sp ∈ specs → sp ∈ catalog) → P st →
    place_tasks week_start specs st = Some st' → P st'.
Proof.
  intros Hstep.
  induction specs as [|[[[nm hrs] count] col] specs IH]; intros st st' Hsub HP;
    cbn [place_tasks]; [by intros [= <-]|].
  destruct (place_occurrences _ week_start nm hrs col st) as [st1|] eqn:H1;
    [|discriminate].
  cbn [mbind option_bind]. apply IH.
  - intros sp Hsp. by apply Hsub, list_elem_of_further.
  - eapply place_occurrences_ind; [|exact HP|exact H1].
    intros s s'. apply (Hstep nm hrs count col).
    apply Hsub, list_elem_of_here.
Qed.

Lemma place_occurrence_event week_start nm hrs col st st' :
  place_occurrence week_start nm hrs col st = Some st' →
  events st' = events st ∨
  ∃ wd s, wd ∈ preferred_days ∧
    in_window (week_start + wd) (dur_minutes hrs) s ∧
    events st' = events st ++ [mk_Event nm s (s + dur_minutes hrs) col "task"].
Proof.
  intros H. destruct (place_occurrence_cases _ _ _ _ _ _ H)
    as [->|(wd & counted & Hwd & Hrec & _)]; [by left|right].
  destruct Hrec as (used & _ & Ht & _).
  apply try_place_true in Ht as (s & Hs & _ & _ & _ & Hev).
  exists wd, s. split; [done|]. split; [|done].
  by apply candidates_of_day_elem.
Qed.

Lemma placed_state_events teaching specs week_start st :
  placed_state teaching specs week_start = Some st →
  ∃ tasks, events st = seed_teaching teaching week_start ++ tasks ∧
           Forall (catalog_task specs week_start) tasks.
Proof.
  unfold placed_state.
  apply (place_tasks_ind_specs
           (λ s, ∃ tasks,
              events s = seed_teaching teaching week_start ++ tasks ∧
              Forall (catalog_task specs week_start) tasks)
           week_start specs); [|done|].
  - intros nm hrs count col s s' Hin (tasks & Hev & Hall) H.
    destruct (place_occurrence_event _ _ _ _ _ _ H)
      as [->|(wd & s0 & Hwd & Hw & ->)]; [by exists tasks|].
    exists (tasks ++ [mk_Event nm s0 (s0 + dur_minutes hrs) col "task"]).
    split; [by rewrite Hev, app_assoc|].
    apply Forall_app. split; [done|]. constructor; [|constructor].
    split; [reflexivity|]. by exists hrs, count, wd.
  - exists []. split; [by rewrite app_nil_r|constructor].
Qed.

(** X8.  The teaching blocks of the table open the event list and stay
    there: the list the loops leave is the seeded teaching events followed
    by task events only, and the list [build_events] returns is a
    reordering of it, so it holds every teaching block, unchanged, and no
    other event of kind "teaching". *)
Theorem teaching_blocks_are_kept
    (teaching : gmap Z (list TeachingBlock)) (specs : list TaskSpec)
    (week_start : date) :
  ∃ st tasks evs,
    placed_state teaching specs week_start = Some st ∧
    build_events_from teaching specs week_start = Some evs ∧
    events st = seed_teaching teaching week_start ++ tasks ∧
    Forall (λ ev, kind ev = "task") tasks ∧
    Forall (λ ev, kind ev = "teaching") (seed_teaching teaching week_start) ∧
    evs ≡ₚ seed_teaching teaching week_start ++ tasks ∧
    (∀ ev, ev ∈ seed_teaching teaching week_start → ev ∈ evs) ∧
    (∀ ev, ev ∈ evs → kind ev = "teaching" →
           ev ∈ seed_teaching teaching week_start).
Proof.
  destruct (build_events_from_total teaching specs week_start) as [evs Hevs].
  unfold build_events_from in Hevs.
  destruct (placed_state teaching specs week_start) as [st|] eqn:Hst;
    [|discriminate].
  cbn [mbind option_bind] in Hevs. injection Hevs as <-.
  destruct (placed_state_events _ _ _ _ Hst) as (tasks & Hev & Hall).
  exists st, tasks, (sort_by_start (events st)).
  assert (Hperm : sort_by_start (events st)
                  ≡ₚ seed_teaching teaching week_start ++ tasks)
    by (rewrite <- Hev; apply sort_by_start_perm).
  split; [done|]. split; [by unfold build_events_from; rewrite Hst|].
  split; [done|]. split; [|split; [|split; [done|split]]].
  - eapply Forall_impl; [exact Hall|]. by intros ev [? _].
  - apply Forall_forall. intros ev. apply seed_teaching_kind.
  - intros ev Hin. rewrite Hperm. apply elem_of_app. by left.
  - intros ev Hin Hk. rewrite Hperm in Hin.
    apply elem_of_app in Hin as [Hin|Hin]; [done|].
    rewrite Forall_forall in Hall. destruct (Hall ev Hin) as [Hk' _].
    congruence.
Qed.


(** ** The bookkeeping and the events *)

Lemma place_occurrence_used week_start nm hrs col st st' :
  place_occurrence week_start nm hrs col st = Some st' →
  st' = st ∨
  ∃ wd s used, wd ∈ preferred_days ∧
    used_days st !! nm = Some used ∧ (wd ∉ used) ∧
    used_days st' = <[nm := {[wd]} ∪ used]> (used_days st) ∧
    events st' = events st ++ [mk_Event nm s (s + dur_minutes hrs) col "task"].
Proof.
  intros H. destruct (place_occurrence_cases _ _ _ _ _ _ H)
    as [->|(wd & counted & Hwd & Hrec & _ & Hfresh & _)]; [by left|right].
  destruct Hrec as (used & Hu & Ht & Hud & _).
  apply try_place_true in Ht as (s & _ & _ & _ & _ & Hev).
  exists wd, s, used. repeat split; try done. by apply Hfresh.
Qed.

Lemma place_occurrence_used_count week_start nm hrs col st st' :
  (∀ n used, used_days st !! n = Some used →
     task_count n (events st) = Z.of_nat (size used) ∧
     ∀ wd, wd ∈ used → wd ∈ preferred_days) →
  place_occurrence week_start nm hrs col st = Some st' →
  (∀ n used, used_days st' !! n = Some used →
     task_count n (events st') = Z.of_nat (size used) ∧
     ∀ wd, wd ∈ used → wd ∈ preferred_days).
Proof.
  intros Hinv H.
  destruct (place_occurrence_used _ _ _ _ _ _ H)
    as [->|(wd & s & used0 & Hwd & Hu & Hfresh & Hud & Hev)]; [done|].
  intros n used. rewrite Hud, Hev, task_count_app, task_count_cons.
  unfold is_task_named. cbn [name kind]. rewrite andb_true_r.
  change (task_count n []) with 0.
  destruct (decide (nm = n)) as [->|Hne].
  - rewrite lookup_insert_eq, String.eqb_refl. intros [= <-].
    destruct (Hinv n used0 Hu) as [Hc Hdays]. split.
    + rewrite Hc, size_union, size_singleton
        by (by apply disjoint_singleton_l). lia.
    + intros w Hw. apply elem_of_union in Hw as [Hw|Hw]; [|by apply Hdays].
      by apply elem_of_singleton in Hw as ->.
  - rewrite lookup_insert_ne by done. intros Hn.
    destruct (Hinv n used Hn) as [Hc Hdays].
    destruct (String.eqb_spec nm n); [done|]. split; [lia|done].
Qed.

(** X10.  A task never gets two events for the same weekday: for every
    name of the catalog the number of its task events in the list
    [build_events] returns is the number of weekdays recorded in
    [used_days] for it, all of them weekdays 0 to 6, so it is at most 7
    whatever number of occurrences the catalog asks for. *)
Theorem one_event_per_task_and_weekday
    (teaching : gmap Z (list TeachingBlock)) (specs : list TaskSpec)
    (week_start : date) :
  ∃ st evs,
    placed_state teaching specs week_start = Some st ∧
    build_events_from teaching specs week_start = Some evs ∧
    (∀ sp, sp ∈ specs → is_Some (used_days st !! spec_name sp)) ∧
    ∀ nm used, used_days st !! nm = Some used →
      task_count nm evs = Z.of_nat (size used) ∧
      (∀ wd, wd ∈ used → 0 ≤ wd ≤ 6) ∧
      task_count nm evs ≤ 7.
Proof.
  destruct (build_events_from_total teaching specs week_start) as [evs Hevs].
  unfold build_events_from in Hevs.
  destruct (placed_state teaching specs week_start) as [st|] eqn:Hst;
    [|discriminate].
  cbn [mbind option_bind] in Hevs. injection Hevs as <-.
  exists st, (sort_by_start (events st)).
  split; [done|]. split; [by unfold build_events_from; rewrite Hst|].
  assert (Hinv : ∀ n used, used_days st !! n = Some used →
            task_count n (events st) = Z.of_nat (size used) ∧
            ∀ wd, wd ∈ used → wd ∈ preferred_days).
  { revert Hst. unfold placed_state.
    apply (place_tasks_ind
             (λ s, ∀ n used, used_days s !! n = Some used →
                task_count n (events s) = Z.of_nat (size used) ∧
                ∀ wd, wd ∈ used → wd ∈ preferred_days)).
    - intros nm hrs col s s'. apply place_occurrence_used_count.
    - intros n used Hn. apply init_used_days_empty in Hn as ->.
      cbn [init_state events]. rewrite task_count_seed, size_empty.
      split; [done|]. by intros wd ?%not_elem_of_empty. }
  split.
  { intros sp Hsp. unfold placed_state in Hst.
    destruct (init_state_keys teaching specs week_start) as [Hu Hk].
    revert Hst.
    apply (place_tasks_ind (λ s, is_Some (used_days s !! spec_name sp)));
      [|by apply Hu].
    intros nm hrs col s s' Hs H.
    by apply (place_occurrence_keys _ _ _ _ _ _ H). }
  intros nm used Hn. destruct (Hinv nm used Hn) as [Hc Hdays].
  rewrite task_count_sort. split; [done|].
  assert (Hrange : ∀ wd, wd ∈ used → 0 ≤ wd ≤ 6).
  { intros wd Hwd. apply Hdays in Hwd. unfold preferred_days in Hwd.
    repeat (apply elem_of_cons in Hwd as [->|Hwd]; [lia|]).
    by apply elem_of_nil in Hwd. }
  split; [done|]. rewrite Hc.
  assert (used ⊆ list_to_set preferred_days) as Hsub.
  { intros wd Hwd. apply elem_of_list_to_set. by apply Hdays. }
  apply subseteq_size in Hsub.
  assert (size (list_to_set preferred_days : gset Z) = 7%nat) as H7
    by (by vm_compute).
  lia.
Qed.

Lemma place_occurrence_counters week_start nm hrs col st st' :
  place_occurrence week_start nm hrs col st = Some st' →
  tasks_per_day st' = tasks_per_day st ∨
  ∃ wd cnt, tasks_per_day st !! wd = Some cnt ∧ cnt < day_limit wd ∧
    tasks_per_day st' = <[wd := cnt + 1]> (tasks_per_day st).
Proof.
  unfold place_occurrence.
  destruct (strict_pass week_start nm hrs col preferred_days st)
    as [[st1 placed]|] eqn:Hs; [|discriminate].
  cbn [mbind option_bind]. destruct placed.
  - intros [= <-]. right.
    destruct (strict_pass_true _ _ _ _ _ _ _ Hs)
      as (wd & _ & Hrec & _ & _ & Hq & _).
    destruct Hrec as (used & _ & _ & _ & (cnt & Hc & Ht) & _).
    exists wd, cnt. split; [done|]. split; [by apply Hq|done].
  - apply strict_pass_false in Hs. subst st1.
    destruct (relaxed_pass week_start nm hrs col preferred_days st)
      as [[st2 placed]|] eqn:Hr; [|discriminate].
    cbn [fmap option_fmap option_map fst]. intros [= <-]. left.
    destruct placed.
    + by destruct (relaxed_pass_true _ _ _ _ _ _ _ Hr) as (_ & _ & _ & ? & _).
    + by apply relaxed_pass_false in Hr as ->.
Qed.

(** X11.  The day counters never pass the quota: when the loops end,
    [tasks_per_day] holds for every weekday a count between 0 and the
    day's limit, 3 from Monday to Friday and 4 on Saturday and Sunday. *)
Theorem day_counters_within_quota
    (teaching : gmap Z (list TeachingBlock)) (specs : list TaskSpec)
    (week_start : date) :
  ∃ st, placed_state teaching specs week_start = Some st ∧
    ∀ wd, 0 ≤ wd ≤ 6 →
      ∃ cnt, tasks_per_day st !! wd = Some cnt ∧
        0 ≤ cnt ≤ day_limit wd ∧
        day_limit wd = (if wd <? 5 then 3 else 4).
Proof.
  destruct (build_events_from_total teaching specs week_start) as [evs Hevs].
  unfold build_events_from in Hevs.
  destruct (placed_state teaching specs week_start) as [st|] eqn:Hst;
    [|discriminate].
  exists st. split; [done|].
  assert (Hinv : ∀ wd, 0 ≤ wd ≤ 6 →
            ∃ cnt, tasks_per_day st !! wd = Some cnt ∧ 0 ≤ cnt ≤ day_limit wd).
  { revert Hst. unfold placed_state.
    apply (place_tasks_ind
             (λ s, ∀ wd, 0 ≤ wd ≤ 6 →
                ∃ cnt, tasks_per_day s !! wd = Some cnt ∧
                       0 ≤ cnt ≤ day_limit wd)).
    - intros nm hrs col s s' Hs H wd Hwd.
      destruct (place_occurrence_counters _ _ _ _ _ _ H)
        as [->|(w & c & Hc & Hlt & ->)]; [by apply Hs|].
      destruct (decide (w = wd)) as [->|Hne].
      + rewrite lookup_insert_eq. exists (c + 1). split; [done|].
        destruct (Hs wd Hwd) as (c' & Hc' & Hb).
        assert (c' = c) as -> by congruence. lia.
      + rewrite lookup_insert_ne by done. by apply Hs.
    - intros wd Hwd. exists 0. cbn [init_state tasks_per_day].
      assert (wd = 0 ∨ wd = 1 ∨ wd = 2 ∨ wd = 3 ∨ wd = 4 ∨ wd = 5 ∨ wd = 6)
        as Hcase by lia.
      destruct Hcase as [->|[->|[->|[->|[->|[->| ->]]]]]];
        (split; [reflexivity|by vm_compute]). }
  intros wd Hwd. destruct (Hinv wd Hwd) as (cnt & Hc & Hb).
  exists cnt. split; [done|]. split; [done|].
  unfold day_limit, MAX_TASKS_WEEKEND, MAX_TASKS_WEEKDAY.
  rewrite Z.geb_leb. destruct (Z.leb_spec 5 wd), (Z.ltb_spec wd 5); lia.
Qed.

(** X12.  The relaxed pass only overflows a quota: when the strict pass has
    found nothing and the relaxed pass places the occurrence on weekday
    [wd], the counter of [wd] had reached the day's limit, and the relaxed
    pass leaves every counter as it was. *)
Theorem relaxed_pass_overflows_quota
    (week_start : date) (nm : string) (hrs : Q) (col : string)
    (st st1 st' : State) :
  strict_pass week_start nm hrs col preferred_days st = Some (st1, false) →
  relaxed_pass week_start nm hrs col preferred_days st1 = Some (st', true) →
  ∃ wd cnt, wd ∈ preferred_days ∧
    try_place_task_on_day week_start (events st) nm hrs col wd
      = (events st', true) ∧
    tasks_per_day st !! wd = Some cnt ∧ day_limit wd ≤ cnt ∧
    tasks_per_day st' = tasks_per_day st.
Proof.
  intros Hs Hr.
  destruct (relaxed_pass_only_over_quota _ _ _ _ _ _ _ _ Hs Hr)
    as (wd & cnt & Hwd & Hrec & Hc & Hq & Ht).
  exists wd, cnt. destruct Hrec as (used & _ & Htry & _). done.
Qed.

Lemma relaxed_pass_overflows_quota_witness :
  ∃ wd cnt, wd ∈ preferred_days ∧
    try_place_task_on_day 0 (events quota_full_state) "My System" 1 "#8b5cf6" wd
      = (events quota_full_after, true) ∧
    tasks_per_day quota_full_state !! wd = Some cnt ∧ day_limit wd ≤ cnt ∧
    tasks_per_day quota_full_after = tasks_per_day quota_full_state.
Proof.
  apply (relaxed_pass_overflows_quota 0 "My System" 1 "#8b5cf6"
           quota_full_state quota_full_state quota_full_after).
  - vm_compute. reflexivity.
  - vm_compute. reflexivity.
Defined.

(** ** The buffer between the events of the list *)

Lemma all_pairs_elems (R : Event → Event → Prop) l :
  (∀ x y, x ∈ l → y ∈ l → R x y) → all_pairs R l.
Proof.
  induction l as [|x l IH]; intros H; [done|]. split.
  - apply Forall_forall. intros y Hy.
    apply H; [apply list_elem_of_here|by apply list_elem_of_further].
  - apply IH. intros a b Ha Hb. apply H; by apply list_elem_of_further.
Qed.

Lemma all_pairs_app (R : Event → Event → Prop) l1 l2 :
  all_pairs R (l1 ++ l2) ↔
  all_pairs R l1 ∧ all_pairs R l2 ∧ ∀ x y, x ∈ l1 → y ∈ l2 → R x y.
Proof.
  induction l1 as [|a l1 IH]; cbn [app all_pairs].
  - split; [intros H; repeat split; [done|]|tauto].
    by intros x y ?%elem_of_nil.
  - rewrite IH, Forall_app, !Forall_forall. split.
    + intros [[H1 H2] (H3 & H4 & H5)]. repeat split; try done.
      intros x y [->|Hx]%elem_of_cons Hy; [by apply H2|by apply H5].
    + intros ([H1 H2] & H3 & H4). repeat split; try done.
      * intros y Hy. apply H4; [apply list_elem_of_here|done].
      * intros x y Hx Hy. apply H4; [by apply list_elem_of_further|done].
Qed.

Lemma all_pairs_perm (R : Event → Event → Prop) l l' :
  (∀ x y, R x y → R y x) → l ≡ₚ l' → all_pairs R l → all_pairs R l'.
Proof.
  intros Hsym Hp. induction Hp as [|x l l' Hp IH|x y l|l1 l2 l3 _ IH1 _ IH2].
  - done.
  - cbn [all_pairs]. intros [H1 H2]. split; [by rewrite <- Hp|by apply IH].
  - cbn [all_pairs]. intros [H1 [H2 H3]].
    apply Forall_cons in H1 as [Hyx H1]. repeat split; try done.
    constructor; [by apply Hsym|done].
  - intros H. by apply IH2, IH1.
Qed.

Lemma all_pairs_lookup (R : Event → Event → Prop) l :
  (∀ x y, R x y → R y x) → all_pairs R l →
  ∀ (i j : nat) a b, i ≠ j → l !! i = Some a → l !! j = Some b → R a b.
Proof.
  intros Hsym. induction l as [|x l IH]; intros Hl i j a b Hij Ha Hb.
  - by rewrite lookup_nil in Ha.
  - destruct Hl as [Hx Hl]. rewrite Forall_forall in Hx.
    destruct i as [|i], j as [|j]; cbn in Ha, Hb; try done.
    + injection Ha as <-. by apply Hx, list_elem_of_lookup_2 with j.
    + injection Hb as <-. by apply Hsym, Hx, list_elem_of_lookup_2 with i.
    + apply (IH Hl i j); [lia|done..].
Qed.

Lemma buffered_sym a b : buffered a b → buffered b a.
Proof. unfold buffered. tauto. Qed.

Lemma place_occurrence_buffered week_start nm hrs col st st' :
  all_pairs buffered (events st) →
  place_occurrence week_start nm hrs col st = Some st' →
  all_pairs buffered (events st').
Proof.
  intros Hinv H.
  destruct (place_occurrence_cases _ _ _ _ _ _ H)
    as [->|(wd & counted & _ & Hrec & _)]; [done|].
  destruct Hrec as (used & _ & Ht & _).
  apply try_place_true in Ht as (s & _ & _ & _ & Hcp & ->).
  apply all_pairs_app. split; [done|]. split; [by split|].
  intros x y Hx [->|?%elem_of_nil]%elem_of_cons; [|done].
  rewrite can_place_gap in Hcp. specialize (Hcp x Hx).
  intros _. cbn [start end_]. lia.
Qed.

Lemma placed_state_buffered teaching specs week_start st :
  placed_state teaching specs week_start = Some st →
  all_pairs buffered (events st).
Proof.
  unfold placed_state.
  apply (place_tasks_ind (λ s, all_pairs buffered (events s))).
  - intros nm hrs col s s'. apply place_occurrence_buffered.
  - apply all_pairs_elems. intros x y Hx Hy [Hk|Hk];
      [apply seed_teaching_kind in Hx|apply seed_teaching_kind in Hy];
      congruence.
Qed.

(** X13.  For any teaching table and catalog, in the list [build_events]
    returns a task event is at least [BUFFER_MIN] minutes away from every
    other event, teaching or task, whichever of the two was placed first:
    one ends 15 minutes or more before the other starts. *)
Theorem tasks_keep_their_distance
    (teaching : gmap Z (list TeachingBlock)) (specs : list TaskSpec)
    (week_start : date) :
  ∃ evs, build_events_from teaching specs week_start = Some evs ∧
    ∀ (i j : nat) a b, i ≠ j → evs !! i = Some a → evs !! j = Some b →
      kind a = "task" ∨ kind b = "task" →
      end_ a + BUFFER_MIN ≤ start b ∨ end_ b + BUFFER_MIN ≤ start a.
Proof.
  destruct (build_events_from_total teaching specs week_start) as [evs Hevs].
  exists evs. split; [done|].
  unfold build_events_from in Hevs.
  destruct (placed_state teaching specs week_start) as [st|] eqn:Hst;
    [|discriminate].
  cbn [mbind option_bind] in Hevs. injection Hevs as <-.
  apply (all_pairs_lookup buffered); [apply buffered_sym|].
  apply (all_pairs_perm buffered (events st)); [apply buffered_sym| |].
  - symmetry. apply sort_by_start_perm.
  - by eapply placed_state_buffered.
Qed.

(** ** The list the consumers receive *)

Lemma is_monday_my_system_shift k mon ev :
  is_monday_my_system (mon + k) (shift_event k ev)
  = is_monday_my_system mon ev.
Proof.
  unfold is_monday_my_system.
  by rewrite shift_event_name, shift_event_start_date, eqb_shift.
Qed.

Lemma pin_my_system_shift k mon ns ne l :
  pin_my_system (mon + k) (shift_dt k ns) (shift_dt k ne) (shift_event k <$> l)
  = shift_event k <$> pin_my_system mon ns ne l.
Proof.
  induction l as [|ev l IH]; [reflexivity|].
  cbn [fmap list_fmap pin_my_system]. rewrite is_monday_my_system_shift.
  destruct (is_monday_my_system mon ev); [reflexivity|].
  cbn [fmap list_fmap]. f_equal. exact IH.
Qed.

Lemma manual_override_shift k week_start l :
  manual_override (week_start + k) (shift_event k <$> l)
  = shift_event k <$> manual_override week_start l.
Proof.
  unfold manual_override. cbv zeta. rewrite !combine_shift.
  change (combine week_start (mk_time 13 0) + k * 1440)
    with (shift_dt k (combine week_start (mk_time 13 0))).
  change (combine week_start (mk_time 14 0) + k * 1440)
    with (shift_dt k (combine week_start (mk_time 14 0))).
  by rewrite pin_my_system_shift, sort_by_start_shift.
Qed.

Lemma ui_events_closed today :
  ui_events today
  = Some (shift_event (start_of_week_monday today) <$> week0_final).
Proof.
  unfold ui_events. cbv zeta. rewrite build_events_closed.
  cbn [mbind option_bind]. f_equal. unfold week0_final.
  rewrite <- manual_override_shift. reflexivity.
Qed.

Lemma week0_final_pinned :
  mk_Event "My System" (combine 0 (mk_time 13 0)) (combine 0 (mk_time 14 0))
           "#8b5cf6" "task" ∈ week0_final.
Proof. apply (list_elem_of_lookup_2 _ 0%nat). vm_compute. reflexivity. Qed.

Lemma week0_final_checks :
  forallb (λ ev, start ev <? end_ ev) week0_final
  && pairwiseb disjointb week0_final
  && pairwiseb bufferedb week0_final = true.
Proof. vm_compute. reflexivity. Qed.

Lemma bufferedb_sym a b : bufferedb a b = bufferedb b a.
Proof.
  unfold bufferedb.
  rewrite (orb_comm (String.eqb (kind a) "task")).
  destruct (negb _), (end_ a + BUFFER_MIN <=? start b),
    (end_ b + BUFFER_MIN <=? start a); reflexivity.
Qed.

(** X14.  With the shipped tables the manual override always finds its
    event and does no harm: for every date, the list handed to the renderer
    and the exporter has as many events as [build_events] returned, holds
    "My System" on the week's Monday from 1 PM to 2 PM, and still has
    [start < end] everywhere, no two overlapping events, and at least
    [BUFFER_MIN] minutes between a task and any other event. *)
Theorem override_leaves_calendar_sound (today : date) :
  ∃ evs out,
    build_events (start_of_week_monday today) = Some evs ∧
    ui_events today = Some out ∧
    length out = length evs ∧
    mk_Event "My System"
             (combine (start_of_week_monday today) (mk_time 13 0))
             (combine (start_of_week_monday today) (mk_time 14 0))
             "#8b5cf6" "task" ∈ out ∧
    (∀ ev, ev ∈ out → start ev < end_ ev) ∧
    (∀ (i j : nat) a b, i ≠ j → out !! i = Some a → out !! j = Some b →
       overlaps (start a) (end_ a) (start b) (end_ b) = false ∧
       (kind a = "task" ∨ kind b = "task" →
        end_ a + BUFFER_MIN ≤ start b ∨ end_ b + BUFFER_MIN ≤ start a)).
Proof.
  set (mon := start_of_week_monday today).
  exists (shift_event mon <$> week0_schedule), (shift_event mon <$> week0_final).
  pose proof week0_final_checks as Hchk.
  apply andb_prop in Hchk as [Hchk Hbuf]. apply andb_prop in Hchk as [Hpos Hdis].
  split; [apply build_events_closed|]. split; [apply ui_events_closed|].
  split; [rewrite !length_fmap; by vm_compute|]. split; [|split].
  - pose proof week0_final_pinned as Hp.
    apply (list_elem_of_fmap_2 (shift_event mon)) in Hp.
    unfold shift_event, shift_dt in Hp. cbn [name start end_ color kind] in Hp.
    replace (combine mon (mk_time 13 0))
      with (combine 0 (mk_time 13 0) + mon * 1440)
      by (unfold combine; lia).
    replace (combine mon (mk_time 14 0))
      with (combine 0 (mk_time 14 0) + mon * 1440)
      by (unfold combine; lia).
    exact Hp.
  - intros ev Hev. apply list_elem_of_fmap in Hev as (ev0 & -> & Hev0).
    rewrite forallb_forall in Hpos.
    specialize (Hpos ev0 (proj1 (list_elem_of_In _ _) Hev0)).
    apply Z.ltb_lt in Hpos. cbn [shift_event start end_]. unfold shift_dt. lia.
  - intros i j a b Hij Ha Hb.
    apply list_lookup_fmap_Some in Ha as (a0 & -> & Ha).
    apply list_lookup_fmap_Some in Hb as (b0 & -> & Hb).
    split.
    + rewrite shift_event_overlaps.
      pose proof (pairwiseb_lookup disjointb week0_final disjointb_sym
                    Hdis i j a0 b0 Hij Ha Hb) as H.
      unfold disjointb in H. by apply negb_true_iff in H.
    + pose proof (pairwiseb_lookup bufferedb week0_final bufferedb_sym
                    Hbuf i j a0 b0 Hij Ha Hb) as H.
      rewrite !shift_event_kind. cbn [shift_event start end_].
      unfold shift_dt. unfold bufferedb in H. intros Hk.
      assert (String.eqb (kind a0) "task" || String.eqb (kind b0) "task"
              = true) as Hk'.
      { apply orb_true_iff. destruct Hk as [Hk|Hk]; [left|right];
          by apply String.eqb_eq. }
      rewrite Hk' in H. cbn [negb orb] in H.
      apply orb_true_iff in H as [H|H]; apply Z.leb_le in H; lia.
Qed.

(** ** Calendar render *)

Lemma minute_of_day dt : dt mod 1440 = dt - dt_date dt * 1440.
Proof. unfold dt_date. pose proof (Z.div_mod dt 1440 ltac:(lia)). lia. Qed.

Lemma dt_date_mono a b : a ≤ b → dt_date a ≤ dt_date b.
Proof. unfold dt_date. apply Z.div_le_mono. lia. Qed.

Lemma calendar_block_Some week_start e d s en :
  calendar_block week_start e = Some (d, s, en) ↔
  d = dt_date (start e) - week_start ∧ 0 ≤ d ≤ 6 ∧
  s = start e - dt_date (start e) * 1440 ∧
  en = (if dt_date (end_ e) =? dt_date (start e)
        then end_ e - dt_date (end_ e) * 1440 else 1440) ∧
  s < en.
Proof.
  unfold calendar_block. cbv zeta. rewrite !minutes_of_dt_time, !minute_of_day.
  destruct (Z.leb_spec 0 (dt_date (start e) - week_start)) as [H0|H0];
    destruct (Z.leb_spec (dt_date (start e) - week_start) 6) as [H6|H6];
    cbn [andb negb]; try (split; [discriminate|lia]).
  destruct (dt_date (end_ e) =? dt_date (start e)); cbn [negb].
  - destruct (Z.leb_spec (end_ e - dt_date (end_ e) * 1440)
                         (start e - dt_date (start e) * 1440));
      (split; [intros [= <- <- <-] || discriminate; lia|]).
    + lia.
    + intros (-> & _ & -> & -> & _). reflexivity.
  - change (24 * 60) with 1440.
    destruct (Z.leb_spec 1440 (start e - dt_date (start e) * 1440));
      (split; [intros [= <- <- <-] || discriminate; lia|]).
    + lia.
    + intros (-> & _ & -> & -> & _). reflexivity.
Qed.

(** X15.  The calendar draws an event in the column of its start date when
    that date is one of the seven days of the week, from its start minute to
    its end minute, or to midnight when it ends on another date; the block
    lies within the day, and for an event with [start < end] it exists and
    is no longer than the event.  An event that starts outside the week, or
    ends on its start date at or before its start minute, is not drawn. *)
Theorem calendar_block_is_clipped_to_its_day (week_start : date) (e : Event) :
  (∀ d s en, calendar_block week_start e = Some (d, s, en) →
     0 ≤ d ≤ 6 ∧ dt_date (start e) = week_start + d ∧
     start e = combine (week_start + d) (mk_time 0 0) + s ∧
     0 ≤ s < en ∧ en ≤ 1440 ∧
     (dt_date (end_ e) = dt_date (start e) →
      end_ e = combine (week_start + d) (mk_time 0 0) + en) ∧
     (dt_date (end_ e) ≠ dt_date (start e) → en = 1440) ∧
     (start e < end_ e → en - s ≤ end_ e - start e)) ∧
  (start e < end_ e → 0 ≤ dt_date (start e) - week_start ≤ 6 →
   is_Some (calendar_block week_start e)) ∧
  (¬ 0 ≤ dt_date (start e) - week_start ≤ 6 →
   calendar_block week_start e = None) ∧
  (dt_date (end_ e) = dt_date (start e) → end_ e ≤ start e →
   calendar_block week_start e = None).
Proof.
  pose proof (Z.mod_pos_bound (start e) 1440 ltac:(lia)) as Hs.
  pose proof (Z.mod_pos_bound (end_ e) 1440 ltac:(lia)) as He.
  rewrite !minute_of_day in Hs, He.
  split; [|split; [|split]].
  - intros d s en H. apply calendar_block_Some in H as (-> & Hd & -> & -> & Hlt).
    unfold combine, minutes_since_midnight. cbn [hour minute].
    destruct (Z.eqb_spec (dt_date (end_ e)) (dt_date (start e))) as [Heq|Hne].
    + repeat split; lia.
    + repeat split; lia.
  - intros Hlt Hd.
    destruct (calendar_block week_start e) as [[[d s] en]|] eqn:Hb;
      [by eexists|exfalso].
    assert (calendar_block week_start e
            = Some (dt_date (start e) - week_start,
                    start e - dt_date (start e) * 1440,
                    if dt_date (end_ e) =? dt_date (start e)
                    then end_ e - dt_date (end_ e) * 1440 else 1440)) as Hb'.
    { apply calendar_block_Some. repeat split; try lia.
      destruct (Z.eqb_spec (dt_date (end_ e)) (dt_date (start e))) as [Heq|];
        [rewrite Heq|]; lia. }
    congruence.
  - intros Hd.
    destruct (calendar_block week_start e) as [[[d s] en]|] eqn:Hb; [|done].
    apply calendar_block_Some in Hb. lia.
  - intros Heq Hle.
    destruct (calendar_block week_start e) as [[[d s] en]|] eqn:Hb; [|done].
    apply calendar_block_Some in Hb as (_ & _ & -> & -> & Hlt).
    rewrite Heq, Z.eqb_refl in Hlt. lia.
Qed.

Lemma empty_week_lookup {A} i :
  (empty_week (A := A)) !! i = if bool_decide (0 ≤ i ≤ 6) then Some [] else None.
Proof.
  unfold empty_week, range7. cbn [fmap list_fmap list_to_map foldr].
  case_bool_decide as Hi.
  - assert (i = 0 ∨ i = 1 ∨ i = 2 ∨ i = 3 ∨ i = 4 ∨ i = 5 ∨ i = 6) as Hc by lia.
    destruct Hc as [->|[->|[->|[->|[->|[->| ->]]]]]]; by vm_compute.
  - cbn [uncurry fst snd].
    rewrite !lookup_insert_ne by lia. apply lookup_empty.
Qed.

Lemma per_day_blocks_loop_spec week_start events : ∀ m,
  (∀ i, 0 ≤ i ≤ 6 → is_Some (m !! i)) →
  ∃ m', per_day_blocks_loop week_start events m = Some m' ∧
    ∀ i, m' !! i
         = (λ col, col ++ blocks_of_day week_start i events) <$> (m !! i).
Proof.
  induction events as [|e events IH]; intros m Hm.
  - exists m. split; [done|]. intros i. cbn.
    destruct (m !! i); cbn; [by rewrite app_nil_r|done].
  - cbn [per_day_blocks_loop]. unfold blocks_of_day. cbn [omap list_omap].
    destruct (calendar_block week_start e) as [[[d s] en]|] eqn:Hb;
      cbv beta iota.
    + pose proof (proj1 (calendar_block_Some _ _ _ _ _) Hb) as (_ & Hd & _).
      destruct (Hm d Hd) as [col Hcol]. rewrite Hcol. cbn [mbind option_bind].
      destruct (IH (<[d := col ++ [(e, s, en)]]> m)) as (m' & Hm' & Hl).
      { intros i Hi. apply lookup_insert_is_Some'. right. by apply Hm. }
      exists m'. split; [done|]. intros i. rewrite Hl.
      destruct (Z.eqb_spec d i) as [->|Hne].
      * rewrite lookup_insert_eq, Hcol. cbn. by rewrite <- app_assoc.
      * by rewrite lookup_insert_ne.
    + destruct (IH m Hm) as (m' & Hm' & Hl). by exists m'.
Qed.

Lemma per_day_blocks_groups_by_start_date_aux week_start events :
  ∃ m, per_day_blocks week_start events = Some m ∧
    (∀ i, 0 ≤ i ≤ 6 → m !! i = Some (blocks_of_day week_start i events)) ∧
    (∀ i e s en, (e, s, en) ∈ blocks_of_day week_start i events ↔
       e ∈ events ∧ calendar_block week_start e = Some (i, s, en)).
Proof.
  destruct (per_day_blocks_loop_spec week_start events empty_week)
    as (m & Hm & Hl).
  { intros i Hi. rewrite empty_week_lookup, bool_decide_eq_true_2 by done.
    by eexists. }
  exists m. split; [exact Hm|]. split.
  - intros i Hi. rewrite Hl, empty_week_lookup, bool_decide_eq_true_2 by done.
    reflexivity.
  - intros i e s en. unfold blocks_of_day. rewrite list_elem_of_omap. split.
    + intros (e' & He' & H).
      destruct (calendar_block week_start e') as [[[d s'] en']|] eqn:Hb;
        [|discriminate].
      destruct (Z.eqb_spec d i) as [->|]; [|discriminate].
      injection H as -> -> ->. done.
    + intros [He Hb]. exists e. split; [done|]. by rewrite Hb, Z.eqb_refl.
Qed.

(** X16.  The render loop never meets a missing column, and when it ends
    column [i] (0 to 6) holds, in the order of the event list, one block for
    each event that [calendar_block] draws on day [i]; there is no other
    column.  So an event is drawn in at most one column, that of its start
    date. *)
Theorem per_day_blocks_groups_by_start_date
    (week_start : date) (events : list Event) :
  ∃ m, per_day_blocks week_start events = Some m ∧
    (∀ i, 0 ≤ i ≤ 6 → m !! i = Some (blocks_of_day week_start i events)) ∧
    (∀ i, ¬ 0 ≤ i ≤ 6 → m !! i = None) ∧
    (∀ i e s en, (e, s, en) ∈ blocks_of_day week_start i events ↔
       e ∈ events ∧ calendar_block week_start e = Some (i, s, en)).
Proof.
  destruct (per_day_blocks_loop_spec week_start events empty_week)
    as (m & Hm & Hl).
  { intros i Hi. rewrite empty_week_lookup, bool_decide_eq_true_2 by done.
    by eexists. }
  exists m. split; [exact Hm|]. split; [|split].
  - intros i Hi. rewrite Hl, empty_week_lookup, bool_decide_eq_true_2 by done.
    reflexivity.
  - intros i Hi. rewrite Hl, empty_week_lookup, bool_decide_eq_false_2 by done.
    reflexivity.
  - intros i e s en. unfold blocks_of_day. rewrite list_elem_of_omap. split.
    + intros (e' & He' & H).
      destruct (calendar_block week_start e') as [[[d s'] en']|] eqn:Hb;
        [|discriminate].
      destruct (Z.eqb_spec d i) as [->|]; [|discriminate].
      injection H as -> -> ->. done.
    + intros [He Hb]. exists e. split; [done|]. by rewrite Hb, Z.eqb_refl.
Qed.

Lemma calendar_block_shift k week_start e :
  calendar_block (week_start + k) (shift_event k e)
  = calendar_block week_start e.
Proof.
  unfold calendar_block. cbv zeta.
  rewrite shift_event_start_date, shift_event_end_date,
    shift_event_start_time, shift_event_end_time, eqb_shift.
  by replace (dt_date (start e) + k - (week_start + k))
    with (dt_date (start e) - week_start) by lia.
Qed.

Lemma week0_final_drawn :
  forallb (λ e, bool_decide (is_Some (calendar_block 0 e))) week0_final = true.
Proof. vm_compute. reflexivity. Qed.

(** X17.  With the shipped tables nothing the engine scheduled is missing
    from the calendar: for every date, each event of the list handed to the
    renderer gets a block, in the column of its start date. *)
Theorem every_event_is_drawn (today : date) :
  ∃ out m,
    ui_events today = Some out ∧
    per_day_blocks (start_of_week_monday today) out = Some m ∧
    ∀ ev, ev ∈ out →
      ∃ s en col,
        calendar_block (start_of_week_monday today) ev
          = Some (dt_date (start ev) - start_of_week_monday today, s, en) ∧
        m !! (dt_date (start ev) - start_of_week_monday today) = Some col ∧
        (ev, s, en) ∈ col.
Proof.
  set (mon := start_of_week_monday today).
  destruct (per_day_blocks_groups_by_start_date_aux mon
              (shift_event mon <$> week0_final)) as (m & Hm & Hcol & Hin).
  exists (shift_event mon <$> week0_final), m.
  split; [apply ui_events_closed|]. split; [exact Hm|].
  intros ev Hev. pose proof Hev as Hev'.
  apply list_elem_of_fmap in Hev as (e0 & -> & He0).
  pose proof week0_final_drawn as Hd. rewrite forallb_forall in Hd.
  specialize (Hd e0 (proj1 (list_elem_of_In _ _) He0)).
  apply bool_decide_eq_true in Hd as [[[d s] en] Hb].
  assert (Hb' : calendar_block mon (shift_event mon e0) = Some (d, s, en)).
  { rewrite <- Hb. rewrite <- (calendar_block_shift mon 0). f_equal. }
  pose proof (proj1 (calendar_block_Some _ _ _ _ _) Hb') as (Hdd & Hrange & _).
  exists s, en, (blocks_of_day mon d (shift_event mon <$> week0_final)).
  rewrite <- Hdd. split; [exact Hb'|]. split; [by apply Hcol|].
  by apply Hin.
Qed.

(** ** PDF export: the events of each day *)

Lemma sort_by_start_idemp l :
  sort_by_start (sort_by_start l) = sort_by_start l.
Proof. apply sort_by_start_id, sort_by_start_sorted. Qed.

Lemma events_by_day_loop_spec week_start events : ∀ m,
  (∀ i, 0 ≤ i ≤ 6 → is_Some (m !! i)) →
  ∃ m', events_by_day_loop week_start events m = Some m' ∧
    ∀ i, 0 ≤ i ≤ 6 →
      m' !! i = (λ day, day ++ starts_on week_start i events) <$> (m !! i).
Proof.
  induction events as [|e events IH]; intros m Hm.
  - exists m. split; [done|]. intros i Hi. cbn.
    destruct (m !! i); cbn; [by rewrite app_nil_r|done].
  - cbn [events_by_day_loop]. cbv zeta. unfold starts_on. cbn [List.filter].
    set (idx := dt_date (start e) - week_start).
    destruct (Z.leb_spec 0 idx) as [H0|H0];
      destruct (Z.leb_spec idx 6) as [H6|H6]; cbn [andb].
    2-4: destruct (IH m Hm) as (m' & Hm' & Hl); exists m'; split; [done|];
         intros i Hi; rewrite (Hl i Hi);
         destruct (Z.eqb_spec idx i); [lia|done].
    destruct (Hm idx ltac:(lia)) as [day Hday]. rewrite Hday.
    cbn [mbind option_bind].
    destruct (IH (<[idx := day ++ [e]]> m)) as (m' & Hm' & Hl).
    { intros i Hi. apply lookup_insert_is_Some'. right. by apply Hm. }
    exists m'. split; [done|]. intros i Hi. rewrite (Hl i Hi).
    destruct (Z.eqb_spec idx i) as [->|Hne].
    + rewrite lookup_insert_eq, Hday. cbn. by rewrite <- app_assoc.
    + by rewrite lookup_insert_ne.
Qed.

Lemma sort_days_spec days : ∀ m,
  (∀ i, i ∈ days → is_Some (m !! i)) →
  ∃ m', sort_days days m = Some m' ∧
    ∀ i, m' !! i = if bool_decide (i ∈ days) then sort_by_start <$> m !! i
                   else m !! i.
Proof.
  induction days as [|d days IH]; intros m Hm.
  - exists m. split; [done|]. intros i.
    by rewrite bool_decide_eq_false_2 by apply not_elem_of_nil.
  - cbn [sort_days]. destruct (Hm d) as [day Hday]; [apply list_elem_of_here|].
    rewrite Hday. cbn [mbind option_bind].
    destruct (IH (<[d := sort_by_start day]> m)) as (m' & Hm' & Hl).
    { intros i Hi. apply lookup_insert_is_Some'. right.
      by apply Hm, list_elem_of_further. }
    exists m'. split; [done|]. intros i. rewrite Hl.
    destruct (decide (i = d)) as [->|Hne].
    + rewrite lookup_insert_eq, Hday.
      rewrite (bool_decide_eq_true_2 (d ∈ d :: days))
        by apply list_elem_of_here.
      case_bool_decide; cbn; by rewrite ?sort_by_start_idemp.
    + rewrite lookup_insert_ne by done.
      rewrite (bool_decide_ext (i ∈ d :: days) (i ∈ days)); [done|].
      rewrite elem_of_cons. tauto.
Qed.

Lemma events_by_day_spec week_start events :
  ∃ m, events_by_day week_start events = Some m ∧
    ∀ i, 0 ≤ i ≤ 6 →
      m !! i = Some (sort_by_start (starts_on week_start i events)).
Proof.
  unfold events_by_day.
  destruct (events_by_day_loop_spec week_start events empty_week)
    as (m1 & Hm1 & Hl1).
  { intros i Hi. rewrite empty_week_lookup, bool_decide_eq_true_2 by done.
    by eexists. }
  rewrite Hm1. cbn [mbind option_bind].
  assert (Hrange : ∀ i, i ∈ range7 ↔ 0 ≤ i ≤ 6).
  { intros i. unfold range7. rewrite !elem_of_cons, elem_of_nil. lia. }
  destruct (sort_days_spec range7 m1) as (m & Hm & Hl).
  { intros i Hi. apply Hrange in Hi. rewrite (Hl1 i Hi), empty_week_lookup,
      bool_decide_eq_true_2 by done. by eexists. }
  exists m. split; [done|]. intros i Hi.
  rewrite Hl, bool_decide_eq_true_2 by (by apply Hrange).
  rewrite (Hl1 i Hi), empty_week_lookup, bool_decide_eq_true_2 by done.
  reflexivity.
Qed.

Lemma starts_on_elem week_start i events e :
  e ∈ starts_on week_start i events ↔
  e ∈ events ∧ dt_date (start e) = week_start + i.
Proof.
  unfold starts_on. rewrite list_elem_of_In, filter_In, <- list_elem_of_In.
  rewrite Z.eqb_eq. split; intros [? ?]; split; (done || lia).
Qed.

(** X18.  The export groups the events by start date without losing any
    inside the week: the loop never meets a missing day, and day [i]
    (0 to 6) ends up holding exactly the events that start on date
    [week_start + i], as often as they occur in the list, in ascending
    order of start.  Events starting outside the week are in no day. *)
Theorem events_by_day_groups_and_sorts
    (week_start : date) (events : list Event) :
  ∃ m, events_by_day week_start events = Some m ∧
    ∀ i, 0 ≤ i ≤ 6 →
      ∃ day, m !! i = Some day ∧
        sorted_by_start day ∧
        day ≡ₚ starts_on week_start i events ∧
        (∀ e, e ∈ day ↔ e ∈ events ∧ dt_date (start e) = week_start + i).
Proof.
  destruct (events_by_day_spec week_start events) as (m & Hm & Hl).
  exists m. split; [done|]. intros i Hi.
  exists (sort_by_start (starts_on week_start i events)).
  split; [by apply Hl|]. split; [apply sort_by_start_sorted|].
  split; [apply sort_by_start_perm|].
  intros e. rewrite sort_by_start_perm. apply starts_on_elem.
Qed.

Lemma sorted_by_start_StronglySorted l :
  sorted_by_start l → StronglySorted by_start l.
Proof.
  induction l as [|x l IH]; intros Hs; [constructor|].
  constructor; [by eapply IH, sorted_by_start_tail|].
  apply Forall_forall. intros y Hy.
  apply list_elem_of_lookup_1 in Hy as [j Hj].
  apply (Hs 0%nat (S j)); [lia|done..].
Qed.

Lemma starts_on_later week_start a l :
  Forall (λ y, a < dt_date (start y) - week_start) l →
  starts_on week_start a l = [].
Proof.
  induction 1 as [|y l Hy _ IH]; [reflexivity|].
  unfold starts_on in *. cbn [List.filter].
  destruct (Z.eqb_spec (dt_date (start y) - week_start) a); [lia|exact IH].
Qed.

Lemma between_split week_start l :
  StronglySorted by_start l → ∀ a hi, a ≤ hi →
  between week_start a hi l
  = starts_on week_start a l ++ between week_start (a + 1) hi l.
Proof.
  induction 1 as [|x l Hl IH Hx]; intros a hi Hhi; [reflexivity|].
  unfold between, starts_on in *. cbn [List.filter].
  set (j := dt_date (start x) - week_start).
  destruct (Z.lt_trichotomy j a) as [Hlt|[Heq|Hgt]].
  - destruct (Z.leb_spec a j), (Z.leb_spec (a + 1) j), (Z.eqb_spec j a);
      try lia. cbn [andb]. by apply IH.
  - destruct (Z.leb_spec a j), (Z.leb_spec (a + 1) j), (Z.eqb_spec j a),
      (Z.leb_spec j hi); try lia. cbn [andb app]. f_equal. by apply IH.
  - assert (Hall : Forall (λ y, a < dt_date (start y) - week_start) l).
    { eapply Forall_impl; [exact Hx|]. intros y Hy. unfold by_start in Hy.
      pose proof (dt_date_mono _ _ Hy). lia. }
    pose proof (starts_on_later week_start a l Hall) as Hnil.
    unfold starts_on in Hnil. rewrite Hnil.
    destruct (Z.eqb_spec j a); [lia|]. cbn [app].
    assert (Hext : List.filter
              (λ e, (a <=? dt_date (start e) - week_start)
                    && (dt_date (start e) - week_start <=? hi)) l
            = List.filter
              (λ e, (a + 1 <=? dt_date (start e) - week_start)
                    && (dt_date (start e) - week_start <=? hi)) l).
    { apply filter_ext_in. intros y Hy. rewrite Forall_forall in Hall.
      specialize (Hall y (proj2 (list_elem_of_In _ _) Hy)).
      destruct (Z.leb_spec a (dt_date (start y) - week_start)),
        (Z.leb_spec (a + 1) (dt_date (start y) - week_start)); (done || lia). }
    rewrite Hext.
    destruct (Z.leb_spec a j), (Z.leb_spec (a + 1) j); (done || lia).
Qed.

Lemma between_empty week_start lo hi l :
  hi < lo → between week_start lo hi l = [].
Proof.
  intros H. unfold between. induction l as [|x l IH]; [reflexivity|].
  cbn [List.filter].
  destruct (Z.leb_spec lo (dt_date (start x) - week_start)),
    (Z.leb_spec (dt_date (start x) - week_start) hi); (exact IH || lia).
Qed.

Lemma in_week_by_days week_start l :
  sorted_by_start l →
  in_week week_start l
  = flat_map (λ i, starts_on week_start i l) range7.
Proof.
  intros Hs. apply sorted_by_start_StronglySorted in Hs.
  change (in_week week_start l) with (between week_start 0 6 l).
  unfold range7. cbn [flat_map].
  rewrite (between_split _ _ Hs 0 6), (between_split _ _ Hs (0 + 1) 6),
    (between_split _ _ Hs (0 + 1 + 1) 6),
    (between_split _ _ Hs (0 + 1 + 1 + 1) 6),
    (between_split _ _ Hs (0 + 1 + 1 + 1 + 1) 6),
    (between_split _ _ Hs (0 + 1 + 1 + 1 + 1 + 1) 6),
    (between_split _ _ Hs (0 + 1 + 1 + 1 + 1 + 1 + 1) 6) by lia.
  rewrite between_empty by lia. reflexivity.
Qed.

Lemma sorted_by_start_filter f l :
  sorted_by_start l → sorted_by_start (List.filter f l).
Proof.
  intros Hs. apply StronglySorted_sorted_by_start.
  apply sorted_by_start_StronglySorted in Hs.
  induction Hs as [|x l Hl IH Hx]; [constructor|].
  cbn [List.filter]. destruct (f x); [|exact IH].
  constructor; [exact IH|]. apply Forall_forall. intros y Hy.
  rewrite Forall_forall in Hx. apply Hx.
  apply list_elem_of_In in Hy. apply filter_In in Hy as [Hy _].
  by apply list_elem_of_In.
Qed.

Lemma export_of_sorted week_start events :
  sorted_by_start events →
  ∃ m, events_by_day week_start events = Some m ∧
    (∀ i, 0 ≤ i ≤ 6 → m !! i = Some (starts_on week_start i events)) ∧
    export_order m = in_week week_start events.
Proof.
  intros Hs. destruct (events_by_day_spec week_start events) as (m & Hm & Hl).
  assert (Hl' : ∀ i, 0 ≤ i ≤ 6 →
            m !! i = Some (starts_on week_start i events)).
  { intros i Hi. rewrite (Hl i Hi). f_equal. apply sort_by_start_id.
    by apply sorted_by_start_filter. }
  exists m. split; [done|]. split; [done|].
  rewrite (in_week_by_days _ _ Hs). unfold export_order, range7.
  cbn [flat_map]. by rewrite !Hl' by lia.
Qed.

(** X19.  On a list that is in ascending order of start, as the one the
    export receives, the per-day sort changes nothing: every day keeps its
    events in the order of the list, and the seven days read one after the
    other are the list itself without the events that start outside the
    week. *)
Theorem export_keeps_the_order (week_start : date) (events : list Event) :
  sorted_by_start events →
  ∃ m, events_by_day week_start events = Some m ∧
    (∀ i, 0 ≤ i ≤ 6 → m !! i = Some (starts_on week_start i events)) ∧
    export_order m = in_week week_start events.
Proof. apply export_of_sorted. Qed.

Lemma export_keeps_the_order_witness :
  ∃ m, events_by_day 0 week0_schedule = Some m ∧
    (∀ i, 0 ≤ i ≤ 6 → m !! i = Some (starts_on 0 i week0_schedule)) ∧
    export_order m = in_week 0 week0_schedule.
Proof.
  apply (export_keeps_the_order 0 week0_schedule).
  unfold week0_schedule. apply sort_by_start_sorted.
Defined.

Lemma in_week_shift k week_start l :
  in_week (week_start + k) (shift_event k <$> l)
  = shift_event k <$> in_week week_start l.
Proof.
  unfold in_week. induction l as [|e l IH]; [reflexivity|].
  cbn [fmap list_fmap List.filter]. rewrite shift_event_start_date.
  replace (dt_date (start e) + k - (week_start + k))
    with (dt_date (start e) - week_start) by lia.
  destruct (_ && _); cbn [fmap list_fmap]; by rewrite IH.
Qed.

Lemma week0_final_in_week : in_week 0 week0_final = week0_final.
Proof. vm_compute. reflexivity. Qed.

(** X20.  With the shipped tables the export lists every event of the
    week, in the order of the list it is given: for every date, the seven
    days of the export read one after the other are exactly the list handed
    to the exporter. *)
Theorem every_event_is_exported (today : date) :
  ∃ out m,
    ui_events today = Some out ∧
    events_by_day (start_of_week_monday today) out = Some m ∧
    export_order m = out.
Proof.
  set (mon := start_of_week_monday today).
  destruct (export_of_sorted mon (shift_event mon <$> week0_final))
    as (m & Hm & _ & Hexp).
  { unfold week0_final. replace mon with (0 + mon) by lia.
    rewrite <- manual_override_shift. unfold manual_override. cbv zeta.
    apply sort_by_start_sorted. }
  exists (shift_event mon <$> week0_final), m.
  split; [apply ui_events_closed|]. split; [exact Hm|].
  rewrite Hexp. replace mon with (0 + mon) at 1 by lia.
  by rewrite in_week_shift, week0_final_in_week.
Qed.

(** ** PDF export: wrapping a line *)

Section TextFacts.
Context {A : Type} (is_space : A → bool) (space : A).
Hypothesis space_is_space : is_space space = true.

Local Abbreviation is_word := (is_word is_space).
Local Abbreviation split_from := (split_from is_space).
Local Abbreviation split := (split is_space).
Local Abbreviation lstrip := (lstrip is_space).
Local Abbreviation strip := (strip is_space).
Local Abbreviation join := (join space).
Local Abbreviation wrap_loop := (wrap_loop is_space space).
Local Abbreviation wrap_text := (wrap_text is_space space).
Local Abbreviation fits := (fits space).

Lemma split_from_words (text cur : list A) :
  Forall (fun c => is_space c = false) cur →
  Forall is_word (split_from cur text).
Proof.
  revert cur. induction text as [|c rest IH]; intros cur Hcur; simpl.
  - destruct cur as [|a cur']; [constructor|].
    constructor; [|constructor]. split; [done|exact Hcur].
  - destruct (is_space c) eqn:Hc.
    + destruct cur as [|a cur'].
      * apply IH. constructor.
      * constructor; [split; [done|exact Hcur]|]. apply IH. constructor.
    + apply IH. apply Forall_app. split; [exact Hcur|].
      constructor; [exact Hc|constructor].
Qed.

Lemma split_words (text : list A) : Forall is_word (split text).
Proof. apply split_from_words. constructor. Qed.

Lemma split_from_word (w rest cur : list A) :
  Forall (fun c => is_space c = false) w →
  split_from cur (w ++ rest) = split_from (cur ++ w) rest.
Proof.
  revert cur. induction w as [|c w IH]; intros cur Hw; simpl.
  - by rewrite app_nil_r.
  - inversion Hw as [|? ? Hc Hw']; subst. rewrite Hc.
    rewrite IH by exact Hw'. by rewrite <- app_assoc.
Qed.

Lemma split_join (g : list (list A)) :
  Forall is_word g → split (join g) = g.
Proof.
  induction g as [|w g IH]; intros Hg; [done|].
  inversion Hg as [|? ? [Hne Hw] Hg']; subst.
  destruct g as [|w' g].
  - simpl. unfold split. pose proof (split_from_word w [] [] Hw) as Hs.
    rewrite app_nil_r in Hs. rewrite Hs. simpl.
    destruct w; [done|reflexivity].
  - change (join (w :: w' :: g)) with (w ++ [space] ++ join (w' :: g)).
    unfold split. rewrite split_from_word by exact Hw. simpl.
    rewrite space_is_space. destruct w as [|a w]; [done|].
    f_equal. apply IH. exact Hg'.
Qed.

Lemma join_empty (g : list (list A)) :
  Forall is_word g → join g = [] → g = [].
Proof.
  destruct g as [|w g]; [done|]. intros Hg.
  inversion Hg as [|? ? [Hne _] _]; subst.
  destruct g; simpl; [done|]. destruct w; done.
Qed.

Lemma join_snoc (g : list (list A)) (w : list A) :
  g ≠ [] → join (g ++ [w]) = join g ++ [space] ++ w.
Proof.
  induction g as [|v g IH]; [done|]. intros _.
  destruct g as [|v' g]; [reflexivity|].
  change (join ((v :: v' :: g) ++ [w]))
    with (v ++ [space] ++ join ((v' :: g) ++ [w])).
  rewrite IH by done.
  change (join (v :: v' :: g)) with (v ++ [space] ++ join (v' :: g)).
  by rewrite <- !app_assoc.
Qed.

Lemma join_head (g : list (list A)) :
  Forall is_word g → g ≠ [] →
  ∃ c s, join g = c :: s ∧ is_space c = false.
Proof.
  destruct g as [|w g]; [done|]. intros Hg _.
  inversion Hg as [|? ? [Hne Hw] _]; subst.
  destruct w as [|c w]; [done|].
  inversion Hw as [|? ? Hc _]; subst.
  destruct g; simpl; eauto.
Qed.

Lemma lstrip_head (c : A) (s : list A) :
  is_space c = false → lstrip (c :: s) = c :: s.
Proof. intros Hc. simpl. by rewrite Hc. Qed.

Lemma strip_id (s : list A) (c d : A) (t u : list A) :
  s = c :: t → s = u ++ [d] →
  is_space c = false → is_space d = false → strip s = s.
Proof.
  intros Hs Hu Hc Hd. unfold strip.
  rewrite Hs at 1. rewrite lstrip_head by exact Hc. rewrite <- Hs.
  rewrite Hu at 1. rewrite rev_app_distr. simpl.
  rewrite Hd. change (d :: rev u) with (rev [d] ++ rev u).
  rewrite <- rev_app_distr, rev_involutive. by rewrite Hu.
Qed.

Lemma word_last (w : list A) :
  is_word w → ∃ u d, w = u ++ [d] ∧ is_space d = false.
Proof.
  intros [Hne Hw]. destruct (exists_last Hne) as (u & d & ->).
  exists u, d. split; [done|].
  apply Forall_app in Hw as [_ Hd]. by inversion Hd.
Qed.

Lemma strip_append (g : list (list A)) (w : list A) :
  Forall is_word g → is_word w →
  strip (join g ++ [space] ++ w) = join (g ++ [w]).
Proof.
  intros Hg Hw. destruct (word_last w Hw) as (u & d & Hu & Hd).
  destruct g as [|v g].
  - simpl. unfold strip. simpl. rewrite space_is_space.
    destruct Hw as [Hne Hall]. destruct w as [|c t]; [done|].
    inversion Hall as [|? ? Hc _]; subst.
    apply (strip_id (c :: t) c d t u); done.
  - rewrite join_snoc by done.
    destruct (join_head (v :: g) Hg) as (c & s & Hj & Hc); [done|].
    apply (strip_id _ c d (s ++ [space] ++ w) (join (v :: g) ++ [space] ++ u));
      [by rewrite Hj| |done|done].
    rewrite Hu. by rewrite <- !app_assoc.
Qed.

Lemma truthy_join (g : list (list A)) :
  Forall is_word g → truthy (join g) = match g with [] => false | _ => true end.
Proof.
  intros Hg. destruct g as [|w g]; [done|].
  destruct (join_head (w :: g) Hg) as (c & s & -> & _); done.
Qed.

Lemma wrap_loop_groups (max_chars : Z) (words g : list (list A)) :
  Forall is_word words → Forall is_word g →
  (g ≠ [] → fits max_chars g) →
  ∃ groups,
    wrap_loop max_chars words (join g) = join <$> groups
    ∧ concat groups = g ++ words
    ∧ Forall (fun g' => g' ≠ []) groups
    ∧ Forall (fits max_chars) groups.
Proof.
  revert g. induction words as [|w rest IH]; intros g Hws Hg Hfit.
  - simpl. rewrite truthy_join by exact Hg. destruct g as [|v g].
    + exists []. by repeat split.
    + exists [v :: g]. split; [done|]. split; [simpl; by rewrite !app_nil_r|].
      split; constructor; try done. by apply Hfit.
  - inversion Hws as [|? ? Hw Hrest]; subst.
    cbn [wrap_loop]. rewrite truthy_join by exact Hg.
    destruct (_ <=? max_chars) eqn:Hle.
    + rewrite strip_append by done.
      destruct (IH (g ++ [w])) as (groups & Hrun & Hcat & Hne & Hfits).
      * exact Hrest.
      * apply Forall_app. split; [done|]. by constructor.
      * intros _. left. apply Z.leb_le in Hle.
        destruct g as [|v g].
        -- simpl in *. lia.
        -- rewrite join_snoc by done. rewrite !length_app in *.
           simpl in *. lia.
      * exists groups. split; [done|]. split; [|done].
        rewrite Hcat. by rewrite <- app_assoc.
    + destruct (IH [w]) as (groups & Hrun & Hcat & Hne & Hfits).
      * exact Hrest.
      * by constructor.
      * intros _. right. by exists w.
      * simpl in Hrun. rewrite Hrun. destruct g as [|v g].
        -- exists groups. by repeat split.
        -- exists ((v :: g) :: groups). split; [done|].
           split; [simpl; by rewrite Hcat|].
           split; constructor; try done. by apply Hfit.
Qed.

Lemma wrap_text_groups (text : list A) (max_chars : Z) :
  ∃ groups,
    wrap_text text max_chars = join <$> groups
    ∧ concat groups = split text
    ∧ Forall is_word (split text)
    ∧ Forall (fun g => g ≠ []) groups
    ∧ Forall (fits max_chars) groups.
Proof.
  pose proof (split_words text) as Hws.
  destruct (wrap_loop_groups max_chars (split text) [] Hws)
    as (groups & Hrun & Hcat & Hne & Hfits); [constructor|done|].
  exists groups. by repeat split.
Qed.

Lemma split_from_nonempty (cur text : list A) :
  cur ≠ [] → split_from cur text ≠ [].
Proof.
  revert cur. induction text as [|c rest IH]; intros cur Hcur; simpl.
  - by destruct cur.
  - destruct (is_space c).
    + by destruct cur.
    + apply IH. by destruct cur.
Qed.

Lemma wrap_text_nonempty (text : list A) (max_chars : Z) :
  split text ≠ [] → wrap_text text max_chars ≠ [].
Proof.
  destruct (wrap_text_groups text max_chars) as (groups & -> & Hcat & _).
  intros Hne Hnil. apply Hne. rewrite <- Hcat.
  apply fmap_nil_inv in Hnil. by rewrite Hnil.
Qed.

Lemma split_join_groups (groups : list (list (list A))) :
  Forall is_word (concat groups) →
  concat (split <$> (join <$> groups)) = concat groups.
Proof.
  induction groups as [|g gs IH]; intros Hall; [done|].
  simpl in *. apply Forall_app in Hall as [Hg Hgs].
  rewrite split_join by exact Hg. f_equal. by apply IH.
Qed.

Lemma joined_lines_fit (max_chars : Z) (groups : list (list (list A))) :
  Forall is_word (concat groups) →
  Forall (fun g => g ≠ []) groups →
  Forall (fits max_chars) groups →
  Forall (fun l => l ≠ []
                   ∧ (Z.of_nat (length l) <= max_chars ∨ l ∈ concat groups))
         (join <$> groups).
Proof.
  induction groups as [|g gs IH]; intros Hall Hne Hfit; [constructor|].
  simpl in *. apply Forall_app in Hall as [Hg Hgs].
  inversion Hne as [|? ? Hg0 Hne']; subst.
  inversion Hfit as [|? ? Hg1 Hfit']; subst.
  constructor.
  - split.
    + intros Hnil. by apply join_empty in Hnil.
    + destruct Hg1 as [Hle|[w ->]]; [by left|right].
      simpl. apply list_elem_of_here.
  - eapply Forall_impl; [by apply IH|].
    intros l [Hl [Hle|Hin]]; (split; [done|]); [by left|right].
    apply elem_of_app. by right.
Qed.

(** X21. [wrap_text] loses, adds and reorders nothing: the words of its
    lines, read line after line, are the words of the text. *)
Theorem wrap_text_keeps_the_words (text : list A) (max_chars : Z) :
  concat (split <$> wrap_text text max_chars) = split text.
Proof.
  destruct (wrap_text_groups text max_chars)
    as (groups & -> & Hcat & Hws & _ & _).
  rewrite <- Hcat in *. by apply split_join_groups.
Qed.

(** X22. No line of [wrap_text] is empty, and a line longer than
    [max_chars] is one word of the text that is itself too long. *)
Theorem wrap_text_lines_fit (text : list A) (max_chars : Z) :
  Forall (fun l => l ≠ []
                   ∧ (Z.of_nat (length l) <= max_chars
                      ∨ (l ∈ split text ∧ max_chars < Z.of_nat (length l))))
         (wrap_text text max_chars).
Proof.
  destruct (wrap_text_groups text max_chars)
    as (groups & -> & Hcat & Hws & Hne & Hfit).
  rewrite <- Hcat in *.
  eapply Forall_impl; [by apply joined_lines_fit|].
  intros l [Hl [Hle|Hin]]; (split; [done|]).
  - by left.
  - destruct (Z_le_gt_dec (Z.of_nat (length l)) max_chars); [by left|right].
    split; [done|lia].
Qed.

End TextFacts.

Lemma wrap_text_keeps_the_words_witness :
  is_space_ascii Ascii.Space = true
  ∧ concat (split is_space_ascii
              <$> wrap_text is_space_ascii Ascii.Space
                    (String.list_ascii_of_string "to be  or not to be") 5)
    = split is_space_ascii (String.list_ascii_of_string "to be  or not to be").
Proof.
  split; [reflexivity|].
  apply (wrap_text_keeps_the_words is_space_ascii Ascii.Space). reflexivity.
Defined.

Lemma wrap_text_lines_fit_witness :
  is_space_ascii Ascii.Space = true
  ∧ Forall (fun l => l ≠ []
                     ∧ (Z.of_nat (length l) <= 5
                        ∨ (l ∈ split is_space_ascii
                                 (String.list_ascii_of_string "to be  or nothing")
                           ∧ 5 < Z.of_nat (length l))))
      (wrap_text is_space_ascii Ascii.Space
         (String.list_ascii_of_string "to be  or nothing") 5).
Proof.
  split; [reflexivity|].
  apply (wrap_text_lines_fit is_space_ascii Ascii.Space). reflexivity.
Defined.

(** ** Text of the labels *)

Lemma mod_1440_60 x : (x mod 1440) mod 60 = x mod 60.
Proof. apply Z.mod_mod_divide. by exists 24. Qed.

Lemma fmt_ampm_dt_label dt : fmt_ampm_dt dt = label_of_minute (dt mod 1440).
Proof.
  unfold fmt_ampm_dt, label_of_minute, dt_time. by rewrite mod_1440_60.
Qed.

Lemma forallb_seqZ (f : Z → bool) (n m : Z) :
  forallb f (seqZ 0 n) = true → 0 ≤ m < n → f m = true.
Proof.
  intros Hall Hm. rewrite forallb_forall in Hall. apply Hall.
  apply list_elem_of_In, elem_of_seqZ. lia.
Qed.

Lemma labels_read :
  forallb (fun m => bool_decide
                      (label_of_minute m
                       = clock_reading (mk_time (m / 60) (m mod 60))))
          (seqZ 0 1440) = true.
Proof. vm_compute. reflexivity. Qed.

Lemma labels_read_back :
  forallb (fun m => read_label (label_of_minute m) =? m) (seqZ 0 1440) = true.
Proof. vm_compute. reflexivity. Qed.

Lemma label_of_minute_reading m :
  0 ≤ m < 1440 →
  label_of_minute m = clock_reading (mk_time (m / 60) (m mod 60)).
Proof.
  intros Hm.
  pose proof (forallb_seqZ _ _ m labels_read Hm) as H.
  cbv beta in H. exact (bool_decide_eq_true_1 _ H).
Qed.

Lemma read_label_of_minute m :
  0 ≤ m < 1440 → read_label (label_of_minute m) = m.
Proof.
  intros Hm.
  pose proof (forallb_seqZ _ _ m labels_read_back Hm) as H.
  cbv beta in H. exact (proj1 (Z.eqb_eq _ _) H).
Qed.

Lemma clock_reading_length t :
  7 ≤ Z.of_nat (length (clock_reading t)) ≤ 8.
Proof.
  unfold clock_reading.
  destruct (_ <? 10); destruct (hour t <? 12); cbn [length app]; lia.
Qed.

(** X23.  [fmt_ampm_dt] reads the 12-hour clock: the hour from 1 to 12
    without a leading zero, a colon, the minute with two digits, a space and
    AM or PM; stripping zeros never reaches past the hour.  Two timestamps
    get the same label exactly when they have the same time of day. *)
Theorem fmt_ampm_reads_the_12_hour_clock (dt : datetime) :
  fmt_ampm_dt dt = clock_reading (dt_time dt)
  ∧ 7 ≤ Z.of_nat (length (fmt_ampm_dt dt)) ≤ 8
  ∧ ∀ dt', fmt_ampm_dt dt = fmt_ampm_dt dt' ↔ dt_time dt = dt_time dt'.
Proof.
  assert (Hday : ∀ x, 0 ≤ x mod 1440 < 1440).
  { intros x. apply Z.mod_pos_bound. lia. }
  assert (Hread : ∀ x, fmt_ampm_dt x = clock_reading (dt_time x)).
  { intros x. rewrite fmt_ampm_dt_label.
    rewrite label_of_minute_reading by apply Hday.
    unfold dt_time. by rewrite mod_1440_60. }
  split; [apply Hread|]. split.
  - rewrite Hread. apply clock_reading_length.
  - intros dt'. split.
    + rewrite !fmt_ampm_dt_label. intros Heq.
      apply (f_equal read_label) in Heq.
      rewrite !read_label_of_minute in Heq by apply Hday. unfold dt_time.
      rewrite <- (mod_1440_60 dt), <- (mod_1440_60 dt'). by rewrite Heq.
    + unfold fmt_ampm_dt. by intros ->.
Qed.

(** ** PDF export: the lines and the page cursor *)

Section PdfFacts.
Context (is_space : Z → bool) (strftime : string → date → str)
        (inch height : Q).

Local Abbreviation run_stmt := (run_stmt inch height).
Local Abbreviation run_stmts := (run_stmts inch height).
Local Abbreviation inside_margins := (inside_margins inch height).
Local Abbreviation wrapped := (wrapped is_space).
Local Abbreviation day_block := (day_block is_space strftime).
Local Abbreviation day_lines := (day_lines is_space strftime).
Local Abbreviation library_lines := (library_lines is_space).
Local Abbreviation pdf_body := (pdf_body is_space strftime).
Local Abbreviation build_pdf_ops := (build_pdf_ops is_space strftime inch height).
Local Abbreviation body_lines := (body_lines inch).

(** *** The cursor *)

Lemma run_stmt_margins (p : Pdf) (s : PdfStmt) :
  (1.5 * inch <= height)%Q → moves_down s →
  (pdf_y p <= height - 0.75 * inch)%Q → Forall inside_margins (pdf_ops p) →
  (pdf_y (run_stmt p s) <= height - 0.75 * inch)%Q
  ∧ Forall inside_margins (pdf_ops (run_stmt p s)).
Proof.
  intros Hh Hs Hy Hops. destruct s as [text font size indent|dy]; simpl in *.
  - unfold draw_line, line_h. destruct (Qlt_le_dec _ _) as [Hlt|Hge]; simpl.
    + split; [lra|]. rewrite !Forall_app. repeat split; try done.
      * repeat constructor.
      * repeat constructor; simpl; lra.
    + split; [lra|]. rewrite Forall_app. split; [done|].
      repeat constructor; simpl; lra.
  - split; [lra|done].
Qed.

Lemma foldl_margins (body : list PdfStmt) (p : Pdf) :
  (1.5 * inch <= height)%Q → Forall moves_down body →
  (pdf_y p <= height - 0.75 * inch)%Q → Forall inside_margins (pdf_ops p) →
  Forall inside_margins (pdf_ops (foldl run_stmt p body)).
Proof.
  intros Hh. revert p. induction body as [|s body IH]; intros p Hb Hy Hops;
    [done|].
  inversion Hb as [|? ? Hs Hb']; subst. simpl.
  destruct (run_stmt_margins p s Hh Hs Hy Hops) as [Hy' Hops'].
  by apply IH.
Qed.

Lemma run_stmts_margins (body : list PdfStmt) :
  (1.5 * inch <= height)%Q → Forall moves_down body →
  Forall inside_margins (pdf_ops (run_stmts body)).
Proof.
  intros Hh Hb.
  apply foldl_margins; [exact Hh|exact Hb|simpl; lra|constructor].
Qed.

Lemma spaced_app (ops1 ops2 : list CanvasOp) (prev : option Q) :
  spaced prev (ops1 ++ ops2)
  ↔ spaced prev ops1 ∧ spaced (last_line prev ops1) ops2.
Proof.
  revert prev. induction ops1 as [|[|font size|x y text] ops1 IH];
    intros prev; simpl.
  - tauto.
  - apply IH.
  - apply IH.
  - rewrite IH. tauto.
Qed.

Lemma last_line_app (ops1 ops2 : list CanvasOp) (prev : option Q) :
  last_line prev (ops1 ++ ops2) = last_line (last_line prev ops1) ops2.
Proof.
  revert prev. induction ops1 as [|[|font size|x y text] ops1 IH];
    intros prev; simpl; auto.
Qed.

Lemma run_stmt_spaced (p : Pdf) (s : PdfStmt) :
  moves_down s → spaced None (pdf_ops p) → below_last p →
  spaced None (pdf_ops (run_stmt p s)) ∧ below_last (run_stmt p s).
Proof.
  unfold below_last.
  intros Hs Hops Hy. destruct s as [text font size indent|dy]; simpl in *.
  - unfold draw_line. destruct (Qlt_le_dec _ _) as [Hlt|Hge]; simpl.
    + rewrite !spaced_app, !last_line_app. simpl.
      split; [tauto|]. unfold line_h. lra.
    + rewrite !spaced_app, !last_line_app. simpl.
      split; [|unfold line_h; lra].
      split; [done|]. split; [|done].
      destruct (last_line None (pdf_ops p)); [|done]. exact Hy.
  - split; [done|]. destruct (last_line None (pdf_ops p)); [|done].
    unfold line_h in *. lra.
Qed.

Lemma foldl_spaced (body : list PdfStmt) (p : Pdf) :
  Forall moves_down body → spaced None (pdf_ops p) → below_last p →
  spaced None (pdf_ops (foldl run_stmt p body)).
Proof.
  revert p. induction body as [|s body IH]; intros p Hb Hops Hy; [done|].
  inversion Hb as [|? ? Hs Hb']; subst. simpl.
  destruct (run_stmt_spaced p s Hs Hops Hy) as [Hops' Hy'].
  by apply IH.
Qed.

Lemma run_stmts_spaced (body : list PdfStmt) :
  Forall moves_down body → spaced None (pdf_ops (run_stmts body)).
Proof. intros Hb. by apply foldl_spaced. Qed.

Lemma drawn_app (ops1 ops2 : list CanvasOp) (font : string) (size : Z) :
  (∀ f s, drawn f s ops2 = drawn font size ops2) →
  drawn font size (ops1 ++ ops2) = drawn font size ops1 ++ drawn font size ops2.
Proof.
  intros Hind. revert font size Hind.
  induction ops1 as [|[|f s|x y text] ops1 IH]; intros font size Hind; simpl.
  - done.
  - by apply IH.
  - rewrite (IH f s).
    + by rewrite (Hind f s).
    + intros f' s'. by rewrite !Hind.
  - f_equal. by apply IH.
Qed.

Lemma foldl_drawn (body : list PdfStmt) (p : Pdf) (font : string) (size : Z) :
  drawn font size (pdf_ops (foldl run_stmt p body))
  = drawn font size (pdf_ops p) ++ body_lines body.
Proof.
  revert p. induction body as [|s body IH]; intros p; simpl.
  - by rewrite app_nil_r.
  - rewrite IH. destruct s as [text f sz indent|dy]; simpl.
    + unfold draw_line. destruct (Qlt_le_dec _ _) as [Hlt|Hge]; simpl.
      * rewrite <- app_assoc. rewrite drawn_app by done. simpl.
        rewrite <- app_assoc. reflexivity.
      * rewrite drawn_app by done. simpl.
        rewrite <- app_assoc. reflexivity.
    + reflexivity.
Qed.

Lemma drawn_elem (ops : list CanvasOp) (font f : string) (size s : Z)
    (text : str) (x : Q) :
  (text, f, s, x) ∈ drawn font size ops → ∃ y, drawString x y text ∈ ops.
Proof.
  revert font size. induction ops as [|[|f' s'|x' y' text'] ops IH];
    intros font size; simpl.
  - by intros ?%elem_of_nil.
  - intros H. destruct (IH _ _ H) as [y Hy]. exists y. by right.
  - intros H. destruct (IH _ _ H) as [y Hy]. exists y. by right.
  - intros [Heq|H]%elem_of_cons.
    + injection Heq as -> -> -> ->. exists y'. by left.
    + destruct (IH _ _ H) as [y Hy]. exists y. by right.
Qed.

(** *** The body *)

Lemma Forall_flat_map {X Y} (P : Y → Prop) (f : X → list Y) (l : list X) :
  (∀ x, x ∈ l → Forall P (f x)) → Forall P (flat_map f l).
Proof.
  induction l as [|x l IH]; intros H; simpl; [constructor|].
  apply Forall_app. split.
  - apply H. by left.
  - apply IH. intros y Hy. apply H. by right.
Qed.

Lemma wrapped_moves_down (text : str) : Forall moves_down (wrapped text).
Proof. unfold wrapped. apply Forall_fmap, Forall_true. done. Qed.

Lemma four_moves_down : moves_down (Down 4).
Proof. simpl. lra. Qed.

Lemma day_block_moves_down week_start i evs :
  Forall moves_down (day_block week_start i evs).
Proof.
  unfold day_block. cbv zeta. rewrite !Forall_app.
  split; [by repeat constructor|]. split.
  - destruct evs; [by repeat constructor|].
    apply Forall_flat_map. intros. apply wrapped_moves_down.
  - constructor; [apply four_moves_down|constructor].
Qed.

Lemma library_lines_moves_down entry : Forall moves_down (library_lines entry).
Proof.
  unfold library_lines. rewrite !Forall_app.
  split; [by repeat constructor|]. split.
  - destruct (entry.2); [by repeat constructor|].
    apply Forall_flat_map. intros. apply wrapped_moves_down.
  - constructor; [apply four_moves_down|constructor].
Qed.

(** The body never fails: the seven days are there, each with the events of
    the list that start on it, sorted. *)
Lemma pdf_body_closed week_start events content_library :
  pdf_body week_start events content_library
  = Some ([Line (pdf_title strftime week_start) "Helvetica-Bold" 14 0; Down 6;
           Line (py "Schedule") "Helvetica-Bold" 12 0; Down 2]
          ++ flat_map (fun i => day_block week_start i
                                  (sort_by_start (starts_on week_start i events)))
                      range7
          ++ [Line (py "Content Library") "Helvetica-Bold" 12 0; Down 2]
          ++ flat_map library_lines content_library).
Proof.
  unfold pdf_body.
  destruct (events_by_day_spec week_start events) as (m & -> & Hl).
  cbn [mbind option_bind].
  assert (Hdays : mapM (day_lines week_start m) range7
                  = Some ((fun i => day_block week_start i
                             (sort_by_start (starts_on week_start i events)))
                          <$> range7)).
  { apply mapM_Some_2. unfold range7. cbn [fmap list_fmap].
    repeat (constructor;
            [unfold day_lines; rewrite Hl by lia; reflexivity|]).
    constructor. }
  rewrite Hdays. reflexivity.
Qed.

Lemma pdf_body_moves_down week_start events content_library body :
  pdf_body week_start events content_library = Some body →
  Forall moves_down body.
Proof.
  intros H. pose proof (pdf_body_closed week_start events content_library) as Hc.
  rewrite H in Hc. apply (inj Some) in Hc. rewrite Hc. clear H Hc.
  apply Forall_app_2; [repeat constructor; simpl; lra|].
  apply Forall_app_2; [|apply Forall_app_2; [repeat constructor; simpl; lra|]].
  - apply Forall_flat_map. intros. apply day_block_moves_down.
  - apply Forall_flat_map. intros. apply library_lines_moves_down.
Qed.

Lemma build_pdf_ops_closed week_start events content_library :
  ∃ body,
    pdf_body week_start events content_library = Some body
    ∧ build_pdf_ops week_start events content_library
      = Some (pdf_ops (run_stmts body)).
Proof.
  unfold build_pdf_ops. rewrite pdf_body_closed. eexists.
  split; reflexivity.
Qed.

(** X24.  The export never fails, and none of its strings is drawn below the
    bottom margin or above the first line of a page, whatever the events and
    the content library, on any page at least an inch and a half high. *)
Theorem pdf_text_stays_inside_the_margins
    (week_start : date) (events : list Event)
    (content_library : list (str * list str)) :
  (1.5 * inch <= height)%Q →
  ∃ ops, build_pdf_ops week_start events content_library = Some ops
         ∧ Forall inside_margins ops.
Proof.
  intros Hh.
  destruct (build_pdf_ops_closed week_start events content_library)
    as (body & Hbody & ->).
  eexists. split; [reflexivity|].
  apply run_stmts_margins; [exact Hh|]. by eapply pdf_body_moves_down.
Qed.

(** X25.  On every page of the export each string is drawn at least one
    line height below the string before it: two lines never print over
    each other. *)
Theorem pdf_lines_are_spaced
    (week_start : date) (events : list Event)
    (content_library : list (str * list str)) :
  ∃ ops, build_pdf_ops week_start events content_library = Some ops
         ∧ spaced None ops.
Proof.
  destruct (build_pdf_ops_closed week_start events content_library)
    as (body & Hbody & ->).
  eexists. split; [reflexivity|].
  apply run_stmts_spaced. by eapply pdf_body_moves_down.
Qed.

(** X26.  Page breaks drop, repeat and reorder nothing: the strings drawn
    on the canvas, each with the font and size set before it and its
    indent, are the lines of the body in order. *)
Theorem page_breaks_keep_every_line
    (week_start : date) (events : list Event)
    (content_library : list (str * list str)) (font : string) (size : Z) :
  ∃ body ops,
    pdf_body week_start events content_library = Some body
    ∧ build_pdf_ops week_start events content_library = Some ops
    ∧ drawn font size ops = body_lines body.
Proof.
  destruct (build_pdf_ops_closed week_start events content_library)
    as (body & Hbody & Hops).
  exists body, (pdf_ops (run_stmts body)). split; [done|]. split; [done|].
  unfold run_stmts. by rewrite foldl_drawn.
Qed.

Lemma body_line_is_drawn (body : list PdfStmt) (text : str)
    (font : string) (size : Z) (indent : Q) :
  Line text font size indent ∈ body →
  ∃ y, drawString (left inch + indent) y text ∈ pdf_ops (run_stmts body).
Proof.
  intros Hin. apply (drawn_elem _ "" font 0 size).
  unfold run_stmts. rewrite foldl_drawn. simpl.
  unfold body_lines. apply list_elem_of_omap.
  exists (Line text font size indent). split; [done|reflexivity].
Qed.

Lemma item_is_in_body week_start events content_library e ln :
  e ∈ events → 0 ≤ dt_date (start e) - week_start ≤ 6 →
  ln ∈ wrap_text is_space 32 (item_text e) 95 →
  ∃ body, pdf_body week_start events content_library = Some body
          ∧ Line ln "Helvetica" 10 10 ∈ body.
Proof.
  intros He Hd Hln. eexists. split; [apply pdf_body_closed|].
  apply elem_of_app. right. apply elem_of_app. left.
  set (i := dt_date (start e) - week_start).
  apply list_elem_of_In, in_flat_map. exists i. split.
  { apply list_elem_of_In. unfold range7. rewrite !elem_of_cons. lia. }
  apply list_elem_of_In. unfold day_block. cbv zeta.
  apply elem_of_app. right. apply elem_of_app. left.
  assert (Hev : e ∈ sort_by_start (starts_on week_start i events)).
  { rewrite sort_by_start_perm. apply starts_on_elem. split; [done|].
    unfold i. lia. }
  destruct (sort_by_start (starts_on week_start i events)) as [|e0 evs] eqn:Heq.
  { by apply elem_of_nil in Hev. }
  rewrite <- Heq. apply list_elem_of_In, in_flat_map. exists e.
  split; [apply list_elem_of_In; by rewrite Heq|].
  apply list_elem_of_In. unfold wrapped.
  apply (list_elem_of_fmap_2 (fun ln => Line ln "Helvetica" 10 10)). exact Hln.
Qed.

(** X27.  Every event of the list that starts in the week is written in the
    export: its item gives at least one line, and each line of the item is
    drawn at the indent of the items. *)
Theorem every_event_of_the_week_is_listed
    (week_start : date) (events : list Event)
    (content_library : list (str * list str)) (e : Event) :
  is_space 32 = true → is_space 8226 = false →
  e ∈ events → 0 ≤ dt_date (start e) - week_start ≤ 6 →
  ∃ ops, build_pdf_ops week_start events content_library = Some ops
    ∧ wrap_text is_space 32 (item_text e) 95 ≠ []
    ∧ ∀ ln, ln ∈ wrap_text is_space 32 (item_text e) 95 →
        ∃ y, drawString (left inch + 10) y ln ∈ ops.
Proof.
  intros Hsp Hbul He Hd.
  destruct (build_pdf_ops_closed week_start events content_library)
    as (body & Hbody & Hops).
  exists (pdf_ops (run_stmts body)). split; [done|]. split.
  - apply (wrap_text_nonempty is_space 32 Hsp).
    unfold item_text. cbn [app]. unfold split. cbn [split_from].
    rewrite Hbul. apply split_from_nonempty. done.
  - intros ln Hln.
    destruct (item_is_in_body week_start events content_library e ln He Hd Hln)
      as (body' & Hbody' & Hin).
    assert (body' = body) as -> by congruence.
    exact (body_line_is_drawn body ln "Helvetica" 10 10 Hin).
Qed.

Lemma ui_events_in_week today e :
  e ∈ shift_event (start_of_week_monday today) <$> week0_final →
  0 ≤ dt_date (start e) - start_of_week_monday today ≤ 6.
Proof.
  set (mon := start_of_week_monday today). intros He.
  assert (Hin : e ∈ in_week mon (shift_event mon <$> week0_final)).
  { replace mon with (0 + mon) at 1 by lia.
    by rewrite in_week_shift, week0_final_in_week. }
  unfold in_week in Hin. apply list_elem_of_In, filter_In in Hin as [_ Hin].
  apply andb_prop in Hin as [H0 H6]. lia.
Qed.

(** X28.  With the shipped tables the whole schedule reaches the export:
    for every date and content library, each event of the list handed to
    the exporter gives at least one line, and all its lines are drawn. *)
Theorem schedule_is_written_to_the_pdf
    (today : date) (content_library : list (str * list str)) :
  is_space 32 = true → is_space 8226 = false →
  ∃ out ops,
    ui_events today = Some out
    ∧ build_pdf_ops (start_of_week_monday today) out content_library
      = Some ops
    ∧ ∀ e, e ∈ out →
        wrap_text is_space 32 (item_text e) 95 ≠ []
        ∧ ∀ ln, ln ∈ wrap_text is_space 32 (item_text e) 95 →
            ∃ y, drawString (left inch + 10) y ln ∈ ops.
Proof.
  intros Hsp Hbul. set (mon := start_of_week_monday today).
  set (out := shift_event mon <$> week0_final).
  destruct (build_pdf_ops_closed mon out content_library)
    as (body & Hbody & Hops).
  exists out, (pdf_ops (run_stmts body)).
  split; [apply ui_events_closed|]. split; [done|].
  intros e He. split.
  - apply (wrap_text_nonempty is_space 32 Hsp).
    unfold item_text. cbn [app]. unfold split. cbn [split_from].
    rewrite Hbul. apply split_from_nonempty. done.
  - intros ln Hln.
    destruct (item_is_in_body mon out content_library e ln He
                (ui_events_in_week today e He) Hln)
      as (body' & Hbody' & Hin).
    assert (body' = body) as -> by congruence.
    exact (body_line_is_drawn body ln "Helvetica" 10 10 Hin).
Qed.

End PdfFacts.

Lemma pdf_text_stays_inside_the_margins_witness :
  (1.5 * 72 <= 792)%Q
  ∧ ∃ ops,
      build_pdf_ops (fun c => c =? 32) (fun _ _ => []) 72 792 0 week0_final []
      = Some ops
      ∧ Forall (inside_margins 72 792) ops.
Proof.
  split; [lra|].
  apply (pdf_text_stays_inside_the_margins
           (fun c => c =? 32) (fun _ _ => []) 72 792 0 week0_final []).
  lra.
Defined.

Lemma every_event_of_the_week_is_listed_witness :
  (32 =? 32) = true ∧ (8226 =? 32) = false
  ∧ sample_event ∈ [sample_event]
  ∧ 0 ≤ dt_date (start sample_event) - 0 ≤ 6
  ∧ ∃ ops,
      build_pdf_ops (fun c => c =? 32) (fun _ _ => []) 72 792 0 [sample_event] []
      = Some ops
      ∧ wrap_text (fun c => c =? 32) 32 (item_text sample_event) 95 ≠ []
      ∧ ∀ ln, ln ∈ wrap_text (fun c => c =? 32) 32 (item_text sample_event) 95 →
          ∃ y, drawString (left 72 + 10) y ln ∈ ops.
Proof.
  split; [reflexivity|]. split; [reflexivity|].
  split; [apply list_elem_of_here|].
  split; [vm_compute; split; discriminate|].
  apply (every_event_of_the_week_is_listed
           (fun c => c =? 32) (fun _ _ => []) 72 792 0 [sample_event] [] sample_event).
  - reflexivity.
  - reflexivity.
  - apply list_elem_of_here.
  - vm_compute; split; discriminate.
Defined.

Lemma schedule_is_written_to_the_pdf_witness :
  (32 =? 32) = true ∧ (8226 =? 32) = false
  ∧ ∃ out ops,
      ui_events 3 = Some out
      ∧ build_pdf_ops (fun c => c =? 32) (fun _ _ => []) 72 792
          (start_of_week_monday 3) out []
        = Some ops
      ∧ ∀ e, e ∈ out →
          wrap_text (fun c => c =? 32) 32 (item_text e) 95 ≠ []
          ∧ ∀ ln, ln ∈ wrap_text (fun c => c =? 32) 32 (item_text e) 95 →
              ∃ y, drawString (left 72 + 10) y ln ∈ ops.
Proof.
  split; [reflexivity|]. split; [reflexivity|].
  apply (schedule_is_written_to_the_pdf
           (fun c => c =? 32) (fun _ _ => []) 72 792 3 []); reflexivity.
Defined.
